(** * VHNSPO-live: capture, scoring and policy-enforcement pipeline

    A shallow embedding of the TypeScript sources
      - [src/utils/networkTap.ts]          (class NetworkTap),
      - [src/utils/anomalyDetector.ts]     (classes AnomalyDetector, FeatureExtractor),
      - [src/utils/routerManager.ts]       (class RouterManager),
      - [src/utils/networkOrchestrator.ts] (class NetworkOrchestrator),
      - [src/utils/bloomFilter.ts]         (classes BloomFilter, LogCompressor),
      - the log compression algorithms     (run-length, dictionary),
      - class NetworkAnalyzer              (the connection statistics),
    and the properties of the specification stated over it.

    Conventions.
    - A JavaScript string is a [string]; the regular-expression engine works
      on its [list ascii] of code units.  Code units above 255 are outside
      the model (tcpdump prints ASCII).
    - A JavaScript [number] that the code computes with is a binary64
      [float]; integers produced by [parseInt] on a run of digits are kept
      as the exact [N] they denote.
    - A method that may throw returns a [result]; a method of a class with
      mutable fields takes the object's state and returns the new one.
    - [emit] appends to the object's event log, in emission order. *)

From Stdlib Require Import Floats ZArith NArith Ascii String List Bool Lia.
From Stdlib Require Import DecimalString.
From stdpp Require Import gmap strings list.
Import ListNotations.

Local Open Scope string_scope.
Local Open Scope list_scope.
Set Warnings "-inexact-float".

(** ** Results of fallible calls *)

Inductive result (A : Type) : Type :=
| Ok (a : A)
| Err (msg : string).
Arguments Ok {A} a.
Arguments Err {A} msg.

(** ** JavaScript regular expressions (the fragment the sources use)

    All quantifiers in the sources are greedy and range over a character
    class ([\d+], [\s*], [[^\]]+]); groups are capturing. *)

Module Regex.

Inductive regex : Type :=
| Eps                               (* the empty pattern *)
| Lit (c : ascii)                   (* a literal character *)
| Many (p : ascii -> bool)          (* [p]*  greedy *)
| Many1 (p : ascii -> bool)         (* [p]+  greedy *)
| Cat (r1 r2 : regex)               (* r1 r2 *)
| Alt (r1 r2 : regex)               (* r1|r2 *)
| Cap (i : nat) (r : regex).        (* the i-th capturing group *)

Infix "⋅" := Cat (at level 41, right associativity).

(** A literal string, character by character. *)
Fixpoint Str (s : string) : regex :=
  match s with
  | EmptyString => Eps
  | String c s' => Cat (Lit c) (Str s')
  end.

Definition captures := list (nat * list ascii).

Fixpoint group (i : nat) (cs : captures) : option (list ascii) :=
  match cs with
  | [] => None
  | (j, w) :: cs' => if Nat.eqb i j then Some w else group i cs'
  end.

(** What was consumed between the input [s] and its suffix [s']. *)
Definition consumed (s s' : list ascii) : list ascii :=
  firstn (length s - length s') s.

Section Matcher.
Context {A : Type}.

(** Greedy iteration of a class: the longest run first, then shorter ones. *)
Fixpoint many (p : ascii -> bool) (s : list ascii)
         (k : list ascii -> option A) : option A :=
  match s with
  | c :: s' =>
      if p c then
        match many p s' k with
        | Some a => Some a
        | None => k s
        end
      else k s
  | [] => k s
  end.

(** Backtracking matcher in continuation-passing style: [k] is what
    remains to be matched, alternatives are tried in priority order. *)
Fixpoint rmatch (r : regex) (s : list ascii) (cs : captures)
         (k : list ascii -> captures -> option A) : option A :=
  match r with
  | Eps => k s cs
  | Lit c =>
      match s with
      | c' :: s' => if Ascii.eqb c c' then k s' cs else None
      | [] => None
      end
  | Many p => many p s (fun s' => k s' cs)
  | Many1 p =>
      match s with
      | c :: s' => if p c then many p s' (fun s'' => k s'' cs) else None
      | [] => None
      end
  | Cat r1 r2 => rmatch r1 s cs (fun s' cs' => rmatch r2 s' cs' k)
  | Alt r1 r2 =>
      match rmatch r1 s cs k with
      | Some a => Some a
      | None => rmatch r2 s cs k
      end
  | Cap i r => rmatch r s cs (fun s' cs' => k s' ((i, consumed s s') :: cs'))
  end.
End Matcher.

(** A match anchored at the start of [s]. *)
Definition match_here (r : regex) (s : list ascii) : option captures :=
  rmatch r s [] (fun _ cs => Some cs).

(** [String.prototype.match] with a non-global pattern: the leftmost
    position at which the pattern matches. *)
Fixpoint search (r : regex) (s : list ascii) : option captures :=
  match match_here r s with
  | Some cs => Some cs
  | None =>
      match s with
      | [] => None
      | _ :: s' => search r s'
      end
  end.

Definition js_match (r : regex) (s : string) : option captures :=
  search r (list_ascii_of_string s).

(** [m[i]] for a group that took part in the match. *)
Definition group_str (i : nat) (cs : captures) : string :=
  match group i cs with
  | Some w => string_of_list_ascii w
  | None => ""
  end.

(** The words a pattern denotes. *)
Fixpoint lang (r : regex) (w : list ascii) : Prop :=
  match r with
  | Eps => w = []
  | Lit c => w = [c]
  | Many p => forallb p w = true
  | Many1 p => w <> [] /\ forallb p w = true
  | Cat r1 r2 => exists w1 w2, w = w1 ++ w2 /\ lang r1 w1 /\ lang r2 w2
  | Alt r1 r2 => lang r1 w \/ lang r2 w
  | Cap _ r => lang r w
  end.

(** [s] has a substring in the language of [r]. *)
Definition occurs (r : regex) (s : list ascii) : Prop :=
  exists pre w post, s = pre ++ w ++ post /\ lang r w.

(** Every code unit of the model. *)
Definition all_ascii : list ascii := map ascii_of_nat (seq 0 256).

(** [inked blank r]: every word of [r] has a character outside the class
    [blank], decided on the shape of the pattern. *)
Fixpoint inked (blank : ascii -> bool) (r : regex) : bool :=
  match r with
  | Eps => false
  | Lit c => negb (blank c)
  | Many _ => false
  | Many1 p => forallb (fun c => implb (p c) (negb (blank c))) all_ascii
  | Cat r1 r2 => inked blank r1 || inked blank r2
  | Alt r1 r2 => inked blank r1 && inked blank r2
  | Cap _ r => inked blank r
  end.

End Regex.

(** ** JavaScript string primitives *)

Module JS.

(** [s.split(sep)] for a one-character separator. *)
Fixpoint split_aux (sep : ascii) (s : list ascii) (cur : list ascii)
  : list string :=
  match s with
  | [] => [string_of_list_ascii (rev cur)]
  | c :: s' =>
      if Ascii.eqb c sep
      then string_of_list_ascii (rev cur) :: split_aux sep s' []
      else split_aux sep s' (c :: cur)
  end.

Definition split (sep : ascii) (s : string) : list string :=
  split_aux sep (list_ascii_of_string s) [].

Definition upper (c : ascii) : ascii :=
  let n := nat_of_ascii c in
  if (97 <=? n)%nat && (n <=? 122)%nat then ascii_of_nat (n - 32) else c.

Definition lower (c : ascii) : ascii :=
  let n := nat_of_ascii c in
  if (65 <=? n)%nat && (n <=? 90)%nat then ascii_of_nat (n + 32) else c.

(** [s.toUpperCase()], [s.toLowerCase()] on ASCII letters. *)
Definition toUpperCase (s : string) : string :=
  string_of_list_ascii (map upper (list_ascii_of_string s)).

Definition toLowerCase (s : string) : string :=
  string_of_list_ascii (map lower (list_ascii_of_string s)).

(** Truthiness of an optional string and of an optional number. *)
Definition truthy_string (o : option string) : bool :=
  match o with
  | Some s => negb (String.eqb s "")
  | None => false
  end.

Definition truthy_Z (o : option Z) : bool :=
  match o with
  | Some z => negb (Z.eqb z 0)
  | None => false
  end.

(** The binary64 number nearest to an integer. *)
Definition float_of_Z (z : Z) : float :=
  SF2Prim (binary_normalize 53 1024 z 0 false).

End JS.

(** ** networkTap.ts: the capture adapter *)

(** [Partial<PacketData>]: an object any of whose properties may be
    missing.  [processPacket] builds such an object and emits it under the
    type [PacketData] by a cast, so consumers see one at run time. *)
Module PacketData.
Record t : Type := mk {
  timestamp : option Z;
  sourceIP : option string;
  destIP : option string;
  protocol : option string;
  length : option N;
  sourcePort : option N;
  destPort : option N;
  flags : option string;
  ttl : option N;
  window : option N;
  checksum : option N
}.

Definition has {A} (o : option A) : nat :=
  match o with Some _ => 1 | None => 0 end.

(** [Object.keys(packet).length]: [sourceIP]/[destIP] and
    [sourcePort]/[destPort] are separate own properties. *)
Definition keys (p : t) : nat :=
  has (timestamp p) + has (sourceIP p) + has (destIP p) + has (protocol p)
  + has (length p) + has (sourcePort p) + has (destPort p) + has (flags p)
  + has (ttl p) + has (window p) + has (checksum p).
End PacketData.

Module NetworkTap.
Import Regex.

(** [\d] *)
Definition isDigit (c : ascii) : bool :=
  let n := nat_of_ascii c in (48 <=? n)%nat && (n <=? 57)%nat.

(** [\s], and the characters [String.prototype.trim] strips: TAB, LF, VT,
    FF, CR, SP and NBSP among the code units below 256. *)
Definition isWhiteSpace (c : ascii) : bool :=
  let n := nat_of_ascii c in
  ((9 <=? n)%nat && (n <=? 13)%nat) || (n =? 32)%nat || (n =? 160)%nat.

(** [[^\]]] *)
Definition notRBracket (c : ascii) : bool := negb (Ascii.eqb c "]"%char).

Definition digits : regex := Many1 isDigit.          (* \d+ *)
Definition spaces : regex := Many isWhiteSpace.      (* \s* *)
Definition dot : regex := Lit "."%char.              (* \.  *)
Definition quad : regex :=                           (* \d+\.\d+\.\d+\.\d+ *)
  digits ⋅ dot ⋅ digits ⋅ dot ⋅ digits ⋅ dot ⋅ digits.

(** [/(\d+\.\d+\.\d+\.\d+)\s*>\s*(\d+\.\d+\.\d+\.\d+)/] *)
Definition ipRe : regex :=
  Cap 1 quad ⋅ spaces ⋅ Lit ">"%char ⋅ spaces ⋅ Cap 2 quad.

(** [/(TCP|UDP|ICMP)/] *)
Definition protocolRe : regex :=
  Cap 1 (Alt (Str "TCP") (Alt (Str "UDP") (Str "ICMP"))).

(** [/length (\d+)/] *)
Definition lengthRe : regex := Str "length " ⋅ Cap 1 digits.

(** [/(\d+)\.(\d+)\s*>\s*(\d+)\.(\d+)/] *)
Definition portRe : regex :=
  Cap 1 digits ⋅ dot ⋅ Cap 2 digits ⋅ spaces ⋅ Lit ">"%char ⋅ spaces
  ⋅ Cap 3 digits ⋅ dot ⋅ Cap 4 digits.

(** [/Flags \[([^\]]+)\]/] *)
Definition flagsRe : regex :=
  Str "Flags [" ⋅ Cap 1 (Many1 notRBracket) ⋅ Lit "]"%char.

(** [/ttl (\d+)/], [/win (\d+)/], [/cksum (\d+)/] *)
Definition ttlRe : regex := Str "ttl " ⋅ Cap 1 digits.
Definition windowRe : regex := Str "win " ⋅ Cap 1 digits.
Definition checksumRe : regex := Str "cksum " ⋅ Cap 1 digits.

(** The eight tokens a line is scanned for. *)
Definition tokenPatterns : list regex :=
  [ipRe; protocolRe; lengthRe; portRe; flagsRe; ttlRe; windowRe; checksumRe].

(** A line carries a recognizable token when a substring of it is a word
    of one of the eight patterns. *)
Definition recognizable (line : string) : Prop :=
  exists r, In r tokenPatterns /\ occurs r (list_ascii_of_string line).

(** [parseInt(s, 10)] on a capture of [\d+]: the number the digits denote. *)
Definition digitValue (c : ascii) : N := N.of_nat (nat_of_ascii c - 48).

Definition parseInt (s : string) : N :=
  fold_left (fun acc c => (10 * acc + digitValue c)%N)
            (list_ascii_of_string s) 0%N.

(** [!line.trim()]: the line is empty once white space is stripped. *)
Definition blank (line : string) : bool :=
  forallb isWhiteSpace (list_ascii_of_string line).

(** [rawPacket.split('\n')] *)
Definition split_lines (raw : string) : list string :=
  JS.split "010"%char raw.

(** The body of the loop of [processPacket] after the blank-line test: the
    object the eight scans leave behind.  [now] is [Date.now()]. *)
Definition scan (now : Z) (line : string) : PacketData.t :=
  let ipMatch := js_match ipRe line in
  let protocolMatch := js_match protocolRe line in
  let lengthMatch := js_match lengthRe line in
  let portMatch := js_match portRe line in
  let flagsMatch := js_match flagsRe line in
  let ttlMatch := js_match ttlRe line in
  let windowMatch := js_match windowRe line in
  let checksumMatch := js_match checksumRe line in
  {| PacketData.timestamp := Some now;
     PacketData.sourceIP := option_map (group_str 1) ipMatch;
     PacketData.destIP := option_map (group_str 2) ipMatch;
     PacketData.protocol := option_map (group_str 1) protocolMatch;
     PacketData.length := option_map (fun m => parseInt (group_str 1 m)) lengthMatch;
     PacketData.sourcePort := option_map (fun m => parseInt (group_str 2 m)) portMatch;
     PacketData.destPort := option_map (fun m => parseInt (group_str 4 m)) portMatch;
     PacketData.flags := option_map (group_str 1) flagsMatch;
     PacketData.ttl := option_map (fun m => parseInt (group_str 1 m)) ttlMatch;
     PacketData.window := option_map (fun m => parseInt (group_str 1 m)) windowMatch;
     PacketData.checksum := option_map (fun m => parseInt (group_str 1 m)) checksumMatch |}.

(** One iteration of the loop: the packet emitted for [line], if any. *)
Definition processLine (now : Z) (line : string) : option PacketData.t :=
  if blank line then None
  else
    let packet := scan now line in
    if (1 <? PacketData.keys packet)%nat then Some packet else None.

(** [processPacket]: the ['packet'] events of one chunk of output, in
    order.  [clock i] is what [Date.now()] returns at the [i]-th line. *)
Fixpoint processLines (clock : nat -> Z) (i : nat) (lines : list string)
  : list PacketData.t :=
  match lines with
  | [] => []
  | line :: rest =>
      match processLine (clock i) line with
      | Some p => p :: processLines clock (S i) rest
      | None => processLines clock (S i) rest
      end
  end.

Definition processPacket (clock : nat -> Z) (rawPacket : string)
  : list PacketData.t :=
  processLines clock 0 (split_lines rawPacket).

(** The capture session: [isCapturing] and [tcpdumpProcess]; [spawned]
    lists the commands handed to [exec], oldest first, and [errors] the
    exit codes of the ['error'] events emitted. *)
Record Process : Type := { command : string }.

Record state : Type := {
  isCapturing : bool;
  tcpdumpProcess : option Process;
  spawned : list string;
  errors : list Z
}.

Definition initial : state :=
  {| isCapturing := false; tcpdumpProcess := None; spawned := [];
     errors := [] |}.

Definition dquote : ascii := ascii_of_nat 34.

(** [startCapture(interfaceName, filter)].  [exec command] is [None]
    when the process is spawned and the message of the error thrown
    otherwise. *)
Definition startCapture (exec : string -> option string)
           (interfaceName filter : string) (st : state)
  : result unit * state :=
  if isCapturing st then (Err "Capture is already running", st)
  else
    let filterStr :=
      if String.eqb filter "" then ""
      else "-f " +:+ String dquote (filter +:+ String dquote "") in
    let command := "tcpdump -i " +:+ interfaceName +:+ " -n -tttt " +:+ filterStr in
    match exec command with
    | None =>
        (Ok tt, {| isCapturing := true;
                   tcpdumpProcess := Some {| command := command |};
                   spawned := spawned st ++ [command];
                   errors := errors st |})
    | Some message => (Err ("Failed to start capture: " +:+ message), st)
    end.

(** [stopCapture()] *)
Definition stopCapture (st : state) : result unit * state :=
  if negb (isCapturing st) then (Ok tt, st)
  else (Ok tt, {| isCapturing := false; tcpdumpProcess := None;
                  spawned := spawned st; errors := errors st |}).

(** The ['close'] handler of the process, with its exit code. *)
Definition onClose (code : Z) (st : state) : state :=
  {| isCapturing := false; tcpdumpProcess := tcpdumpProcess st;
     spawned := spawned st;
     errors := if Z.eqb code 0 then errors st else errors st ++ [code] |}.

Definition isActive (st : state) : bool := isCapturing st.

End NetworkTap.

(** ** anomalyDetector.ts: the feature extractor and the scorer *)

Module FeatureExtractor.

Section Extract.
(** Two primitives of the platform: [Number(s)] on a string, and the
    local-time hour [new Date(t).getHours()] of a time value. *)
Variable Number : string -> float.
Variable getHours : Z -> float.

Definition protocols : list string := ["TCP"; "UDP"; "ICMP"; "HTTP"; "HTTPS"].

(** [packet.protocol === protocol ? 1 : 0] *)
Definition oneHot (p : option string) (protocol : string) : float :=
  match p with
  | Some s => if String.eqb s protocol then 1%float else 0%float
  | None => 0%float
  end.

(** [packet.length] as a number; [undefined] becomes [NaN] in a division. *)
Definition toNumber (o : option N) : float :=
  match o with
  | Some n => JS.float_of_Z (Z.of_N n)
  | None => nan
  end.

(** [extractTimeFeatures(timestamp)]; [new Date(undefined)] is an invalid
    date, whose hour is [NaN]. *)
Definition extractTimeFeatures (timestamp : option Z) : float :=
  let hour := match timestamp with Some t => getHours t | None => nan end in
  (hour / 24)%float.

(** [extractIPFeatures(ip)]: [ip.split] throws a TypeError on [undefined]. *)
Definition extractIPFeatures (ip : option string) : result float :=
  match ip with
  | None => Err "TypeError: Cannot read properties of undefined (reading 'split')"
  | Some s =>
      let octets := map Number (JS.split "."%char s) in
      Ok (fold_left (fun sum octet => (sum + octet)%float) octets 0%float / 1020)%float
  end.

(** [extract(packet)] *)
Definition extract (packet : PacketData.t) : result (list float) :=
  let features := [(toNumber (PacketData.length packet) / 1500)%float] in
  let features := features ++ map (oneHot (PacketData.protocol packet)) protocols in
  let features := features ++ [extractTimeFeatures (PacketData.timestamp packet)] in
  match extractIPFeatures (PacketData.sourceIP packet) with
  | Err e => Err e
  | Ok src =>
      let features := features ++ [src] in
      match extractIPFeatures (PacketData.destIP packet) with
      | Err e => Err e
      | Ok dst => Ok (features ++ [dst])
      end
  end.

End Extract.

Definition featureCount : nat := 10.

(** A [number[]] read through the properties [extract] looks at: only
    [length] is defined on an array. *)
Definition array_as_packet (features : list float) : PacketData.t :=
  {| PacketData.timestamp := None; PacketData.sourceIP := None;
     PacketData.destIP := None; PacketData.protocol := None;
     PacketData.length := Some (N.of_nat (length features));
     PacketData.sourcePort := None; PacketData.destPort := None;
     PacketData.flags := None; PacketData.ttl := None;
     PacketData.window := None; PacketData.checksum := None |}.

(** Instances of the two primitives, for running examples: decimal digit
    strings, and the hour in UTC. *)
Definition NumberDec (s : string) : float :=
  if forallb NetworkTap.isDigit (list_ascii_of_string s)
  then JS.float_of_Z (Z.of_N (NetworkTap.parseInt s))
  else nan.

Definition getHoursUTC (t : Z) : float :=
  JS.float_of_Z ((t / 3600000) mod 24).

End FeatureExtractor.

Module AnomalyDetector.

Record AnomalyDetectionResult : Type := {
  isAnomaly : bool;
  confidence : float;
  type : string;
  details : string
}.

Inductive event : Type :=
| TrainingComplete (data : string).

Record state : Type := {
  isTraining : bool;
  lastTrainingTime : Z;
  events : list event
}.

Definition initial : state :=
  {| isTraining := false; lastTrainingTime := 0; events := [] |}.

(** [train(epochs)] up to its [await]: either the call is rejected, or
    the request [POST /train {epochs}] is sent and the call is pending. *)
Definition train_begin (epochs : option Z) (st : state)
  : result Z * state :=
  if isTraining st then (Err "Training already in progress", st)
  else
    let epochs := match epochs with Some e => e | None => 50%Z end in
    (Ok epochs, {| isTraining := true;
                   lastTrainingTime := lastTrainingTime st;
                   events := events st |}).

(** [train] from its [await] on: [response] is how the request settled and
    [now] is [Date.now()]; the [finally] clause runs on both paths. *)
Definition train_end (response : result string) (now : Z) (st : state)
  : result unit * state :=
  match response with
  | Ok data =>
      (Ok tt, {| isTraining := false;
                 lastTrainingTime := now;
                 events := events st ++ [TrainingComplete data] |})
  | Err e =>
      (Err e, {| isTraining := false;
                 lastTrainingTime := lastTrainingTime st;
                 events := events st |})
  end.

(** What callers and the service do to one scorer over time: a caller
    invokes [train], or the request in flight settles. *)
Inductive action : Type :=
| Call (epochs : option Z)
| Settle (response : result string) (now : Z).

(** What the caller of that step observes. *)
Inductive outcome : Type :=
| Rejected (msg : string)       (* the call failed at once *)
| Sent (epochs : Z)             (* the call is pending on its request *)
| Resolved                      (* the pending call returned *)
| Failed (msg : string).        (* the pending call threw *)

Definition step (a : action) (st : state) : outcome * state :=
  match a with
  | Call epochs =>
      match train_begin epochs st with
      | (Ok e, st') => (Sent e, st')
      | (Err m, st') => (Rejected m, st')
      end
  | Settle response now =>
      match train_end response now st with
      | (Ok _, st') => (Resolved, st')
      | (Err m, st') => (Failed m, st')
      end
  end.

Fixpoint run (trace : list action) (st : state) : list outcome * state :=
  match trace with
  | [] => ([], st)
  | a :: rest =>
      let (o, st') := step a st in
      let (os, st'') := run rest st' in
      (o :: os, st'')
  end.

Section Detect.
Variable Number : string -> float.
Variable getHours : Z -> float.
(** The scoring service behind [POST /predict]. *)
Variable predict : list float -> result AnomalyDetectionResult.

(** [extractFeatures(packet)] *)
Definition extractFeatures (packet : PacketData.t) : result (list float) :=
  FeatureExtractor.extract Number getHours packet.

(** [detectAnomaly(packet)]: the features are extracted before the [try]. *)
Definition detectAnomaly (packet : PacketData.t)
  : result AnomalyDetectionResult :=
  match extractFeatures packet with
  | Err e => Err e
  | Ok features => predict features
  end.
End Detect.

End AnomalyDetector.

(** ** routerManager.ts: the policy manager *)

Module RouterManager.

Inductive ObjectType : Type := OctetString | Integer.

Inductive Value : Type :=
| VString (s : string)
| VNumber (n : Z).

Record Varbind : Type := { oid : string; type : ObjectType; value : Value }.

Inductive Action : Type := allow | deny | limit.

Record Rule : Type := {
  sourceIP : option string;
  destIP : option string;
  protocol : option string;
  port : option Z;
  action : Action;
  limit_ : option Z
}.

Inductive PolicyType : Type := qos | firewall | bandwidth.

Record NetworkPolicy : Type := {
  id : string;
  name : string;
  type_ : PolicyType;
  rules : list Rule;
  enabled : bool
}.

Record RouterStats : Type := {
  cpu : Value;
  memory : Value;
  bandwidth_in : Value;
  bandwidth_out : Value;
  connections : Value;
  errors : Value
}.

Inductive event : Type :=
| Connected
| Disconnected
| PolicyApplied (policy : NetworkPolicy)
| Error (message : string).

(** A request handed to the SNMP session. *)
Inductive request : Type :=
| Get (oids : list string)
| Set_ (varbinds : list Varbind).

(** A callback registered with [setTimeout], with its delay in ms. *)
Inductive callback : Type := Reconnect.
Record timer : Type := { delay : Z; run : callback }.

Definition maxReconnectAttempts : nat := 5.
Definition reconnectDelay : Z := 5000.

(** The timer and the event of [handleConnectionError]. *)
Definition retryTimer : timer := {| delay := reconnectDelay; run := Reconnect |}.
Definition exhausted : event :=
  Error "Failed to connect to router after multiple attempts".

(** [getProtocolNumber(protocol)] *)
Definition getProtocolNumber (protocol : string) : Z :=
  let key := JS.toUpperCase protocol in
  if String.eqb key "TCP" then 6
  else if String.eqb key "UDP" then 17
  else if String.eqb key "ICMP" then 1
  else 0.

Definition actionName (a : Action) : string :=
  match a with allow => "allow" | deny => "deny" | limit => "limit" end.

(** [getActionNumber(action)] *)
Definition getActionNumber (action : string) : Z :=
  let key := JS.toLowerCase action in
  if String.eqb key "allow" then 1
  else if String.eqb key "deny" then 2
  else if String.eqb key "limit" then 3
  else 0.

(** [generatePolicyOids(rule)] *)
Definition generatePolicyOids (rule : Rule) : list Varbind :=
  (if JS.truthy_string (sourceIP rule)
   then [{| oid := "1.3.6.1.2.1.4.20.1.1"; type := OctetString;
            value := VString (default "" (sourceIP rule)) |}]
   else [])
  ++ (if JS.truthy_string (destIP rule)
      then [{| oid := "1.3.6.1.2.1.4.20.1.2"; type := OctetString;
               value := VString (default "" (destIP rule)) |}]
      else [])
  ++ (if JS.truthy_string (protocol rule)
      then [{| oid := "1.3.6.1.2.1.4.21.1.9"; type := Integer;
               value := VNumber (getProtocolNumber (default "" (protocol rule))) |}]
      else [])
  ++ (if JS.truthy_Z (port rule)
      then [{| oid := "1.3.6.1.2.1.6.13.1.3"; type := Integer;
               value := VNumber (default 0%Z (port rule)) |}]
      else [])
  ++ [{| oid := "1.3.6.1.2.1.4.21.1.13"; type := Integer;
         value := VNumber (getActionNumber (actionName (action rule))) |}].

Definition statsOids : list string :=
  [ "1.3.6.1.4.1.9.9.109.1.1.1.1.3.1";
    "1.3.6.1.4.1.9.9.48.1.1.1.6.1";
    "1.3.6.1.2.1.2.2.1.10.1";
    "1.3.6.1.2.1.2.2.1.16.1";
    "1.3.6.1.2.1.6.9.0";
    "1.3.6.1.2.1.2.2.1.14.1" ].

Section Manager.
(** The managed device behind the session, and the file system: how the
    device answers a [set] and a [get] (an error message, or success), and
    whether [writeFileSync] of the policy file succeeds. *)
Variable Device : Type.
Variable session_set : Device -> list Varbind -> option string * Device.
Variable session_get : Device -> list string -> result (list Value) * Device.
Variable writeFile_ok : gmap string NetworkPolicy -> bool.

(** The fields of the manager, with the world it acts on: the device, the
    requests sent to it (oldest first), the policy file, the events
    emitted (oldest first) and the pending timers. *)
Record state : Type := mk {
  session : bool;
  isConnected : bool;
  reconnectAttempts : nat;
  policies : gmap string NetworkPolicy;
  events : list event;
  timers : list timer;
  wire : list request;
  device : Device;
  disk : option (gmap string NetworkPolicy)
}.

Definition with_connection (c : bool) (n : nat) (st : state) : state :=
  mk (session st) c n (policies st) (events st) (timers st) (wire st)
     (device st) (disk st).

Definition emit (e : event) (st : state) : state :=
  mk (session st) (isConnected st) (reconnectAttempts st) (policies st)
     (events st ++ [e]) (timers st) (wire st) (device st) (disk st).

Definition setTimeout (cb : callback) (ms : Z) (st : state) : state :=
  mk (session st) (isConnected st) (reconnectAttempts st) (policies st)
     (events st) (timers st ++ [{| delay := ms; run := cb |}]) (wire st)
     (device st) (disk st).

Definition sent (r : request) (d : Device) (st : state) : state :=
  mk (session st) (isConnected st) (reconnectAttempts st) (policies st)
     (events st) (timers st) (wire st ++ [r]) d (disk st).

Definition with_session (b : bool) (st : state) : state :=
  mk b (isConnected st) (reconnectAttempts st) (policies st)
     (events st) (timers st) (wire st) (device st) (disk st).

Definition with_policies (m : gmap string NetworkPolicy) (st : state) : state :=
  mk (session st) (isConnected st) (reconnectAttempts st) m
     (events st) (timers st) (wire st) (device st) (disk st).

Definition with_disk (m : gmap string NetworkPolicy) (st : state) : state :=
  mk (session st) (isConnected st) (reconnectAttempts st) (policies st)
     (events st) (timers st) (wire st) (device st) (Some m).

Definition with_timers (ts : list timer) (st : state) : state :=
  mk (session st) (isConnected st) (reconnectAttempts st) (policies st)
     (events st) ts (wire st) (device st) (disk st).

(** [handleConnectionError()] *)
Definition handleConnectionError (st : state) : state :=
  let st := with_connection false (S (reconnectAttempts st)) st in
  if (reconnectAttempts st <=? maxReconnectAttempts)%nat
  then setTimeout Reconnect reconnectDelay st
  else emit exhausted st.

(** [snmpGet(oids)] *)
Definition snmpGet (oids : list string) (st : state)
  : result (list Value) * state :=
  if negb (isConnected st) then (Err "Not connected to router", st)
  else
    match session_get (device st) oids with
    | (Ok varbinds, d) => (Ok varbinds, sent (Get oids) d st)
    | (Err e, d) => (Err e, handleConnectionError (sent (Get oids) d st))
    end.

(** [snmpSet(oids)] *)
Definition snmpSet (oids : list Varbind) (st : state)
  : result unit * state :=
  if negb (isConnected st) then (Err "Not connected to router", st)
  else
    match session_set (device st) oids with
    | (None, d) => (Ok tt, sent (Set_ oids) d st)
    | (Some e, d) => (Err e, handleConnectionError (sent (Set_ oids) d st))
    end.

(** [getStats()]: reading [varbinds[i].value] past the end of the answer
    throws inside the [try]. *)
Definition getStats (st : state) : result RouterStats * state :=
  match snmpGet statsOids st with
  | (Ok (v0 :: v1 :: v2 :: v3 :: v4 :: v5 :: _), st') =>
      (Ok {| cpu := v0; memory := v1; bandwidth_in := v2;
             bandwidth_out := v3; connections := v4; errors := v5 |}, st')
  | (Ok _, st') => (Err "Failed to get router statistics", st')
  | (Err _, st') => (Err "Failed to get router statistics", st')
  end.

(** The statements of [connect] after a successful [getStats]. *)
Definition connected (st : state) : state :=
  emit Connected (with_connection true 0 st).

(** [connect()]; the promise it returns never rejects. *)
Definition connect (st : state) : state :=
  if isConnected st then st
  else
    let st := with_session true st in
    match getStats st with
    | (Ok _, st') => connected st'
    | (Err _, st') => handleConnectionError st'
    end.

(** The event loop runs the oldest pending timer. *)
Definition fire (st : state) : state :=
  match timers st with
  | [] => st
  | {| run := Reconnect |} :: ts => connect (with_timers ts st)
  end.

(** [savePolicies()] *)
Definition savePolicies (st : state) : result unit * state :=
  if writeFile_ok (policies st)
  then (Ok tt, with_disk (policies st) st)
  else (Err "Failed to save policies", st).

(** The [for] loop of [applyPolicy]. *)
Fixpoint applyRules (rs : list Rule) (st : state) : result unit * state :=
  match rs with
  | [] => (Ok tt, st)
  | rule :: rest =>
      match snmpSet (generatePolicyOids rule) st with
      | (Ok _, st') => applyRules rest st'
      | (Err e, st') => (Err e, st')
      end
  end.

(** [applyPolicy(policy)] *)
Definition applyPolicy (policy : NetworkPolicy) (st : state)
  : result unit * state :=
  if negb (isConnected st) then (Err "Failed to apply network policy", st)
  else
    match applyRules (rules policy) st with
    | (Err _, st') => (Err "Failed to apply network policy", st')
    | (Ok _, st') =>
        let st' := with_policies (<[id policy := policy]> (policies st')) st' in
        match savePolicies st' with
        | (Err _, st'') => (Err "Failed to apply network policy", st'')
        | (Ok _, st'') => (Ok tt, emit (PolicyApplied policy) st'')
        end
    end.

(** [disconnect()] *)
Definition disconnect (st : state) : state :=
  if session st
  then emit Disconnected (with_connection false (reconnectAttempts st) st)
  else st.

(** The caller's [connect()] followed by [n] runs of the event loop. *)
Definition attempts (n : nat) (st : state) : state :=
  Nat.iter n fire (connect st).

(** Sending the writes [ws] to the device one after the other: the index
    of the first one it refuses, if it refuses one. *)
Fixpoint firstRefused (d : Device) (ws : list (list Varbind)) : option nat :=
  match ws with
  | [] => None
  | w :: ws' =>
      match session_set d w with
      | (Some _, _) => Some 0
      | (None, d') => option_map S (firstRefused d' ws')
      end
  end.

(** The manager and the device once the writes [ws] have been sent. *)
Definition sentAll (ws : list (list Varbind)) (st : state) : state :=
  fold_left (fun st w => sent (Set_ w) (snd (session_set (device st) w)) st)
            ws st.

End Manager.

Arguments session {Device}.
Arguments isConnected {Device}.
Arguments reconnectAttempts {Device}.
Arguments policies {Device}.
Arguments events {Device}.
Arguments timers {Device}.
Arguments wire {Device}.
Arguments device {Device}.
Arguments disk {Device}.
Arguments mk {Device}.
Arguments handleConnectionError {Device}.
Arguments connected {Device}.
Arguments emit {Device}.
Arguments with_session {Device}.
Arguments with_timers {Device}.
Arguments with_policies {Device}.
Arguments sent {Device}.

(** The state of a manager just constructed, no policy file on disk. *)
Definition fresh {Device} (d : Device) : state Device :=
  mk false false 0 ∅ [] [] [] d None.

End RouterManager.

(** ** networkOrchestrator.ts: the orchestrator *)

Module NetworkOrchestrator.

Record OrchestratorConfig : Type := {
  cfg_trainingInterval : option float;
  cfg_anomalyThreshold : option float
}.

(** [x || d] on an optional number: [undefined], [0] and [NaN] are falsy. *)
Definition or_default (x : option float) (d : float) : float :=
  match x with
  | Some v => if (v =? 0)%float || is_nan v then d else v
  | None => d
  end.

(** The object [handlePacket] hands to [handleAnomaly]. *)
Record anomaly : Type := {
  packet : PacketData.t;
  features : list float;
  confidence : float
}.

Inductive event : Type :=
| Anomaly (a : anomaly) (routerStats : RouterManager.RouterStats).

Inductive logline : Type :=
| AnomalyDetected (a : anomaly)
| ErrorProcessingPacket (e : string)
| ErrorHandlingAnomaly (e : string).

Section Orchestrator.
Variable Device : Type.
Variable session_get :
  Device -> list string -> result (list RouterManager.Value) * Device.
(** [anomalyDetector.extractFeatures] and [anomalyDetector.detectAnomaly]
    as [handlePacket] calls them: on the packet, and on its features. *)
Variable extractFeatures : PacketData.t -> result (list float).
Variable detectAnomaly :
  list float -> result AnomalyDetector.AnomalyDetectionResult.

Record state : Type := mk {
  routerManager : RouterManager.state Device;
  isRunning : bool;
  anomalyThreshold : float;
  events : list event;
  console : list logline
}.

(** The fields the constructor sets. *)
Definition create (config : OrchestratorConfig)
           (rm : RouterManager.state Device) : state :=
  mk rm false (or_default (cfg_anomalyThreshold config) 0.8) [] [].

Definition with_router (rm : RouterManager.state Device) (st : state) : state :=
  mk rm (isRunning st) (anomalyThreshold st) (events st) (console st).

Definition emit (e : event) (st : state) : state :=
  mk (routerManager st) (isRunning st) (anomalyThreshold st)
     (events st ++ [e]) (console st).

Definition log (l : logline) (st : state) : state :=
  mk (routerManager st) (isRunning st) (anomalyThreshold st)
     (events st) (console st ++ [l]).

(** [await this.routerManager.blockIP(ip)].  The class [RouterManager]
    has no method [blockIP]: the property read gives [undefined], and
    calling it throws a [TypeError] before anything is invoked. *)
Definition doBlockIP (ip : option string) (st : state) : result unit * state :=
  (Err "TypeError: this.routerManager.blockIP is not a function", st).

(** [await this.routerManager.setBandwidthLimit(ip, mbps)]: no such
    method either. *)
Definition doSetBandwidthLimit (ip : option string) (mbps : Z) (st : state)
  : result unit * state :=
  (Err "TypeError: this.routerManager.setBandwidthLimit is not a function",
   st).

(** The response chosen by confidence tier. *)
Definition respond (a : anomaly) (st : state) : result unit * state :=
  if (0.9 <? confidence a)%float
  then doBlockIP (PacketData.sourceIP (packet a)) st
  else if (0.8 <? confidence a)%float
  then doSetBandwidthLimit (PacketData.sourceIP (packet a)) 1 st
  else (Ok tt, st).

(** [handleAnomaly(anomaly)]: one [try] around the stats fetch, the
    response and the event. *)
Definition handleAnomaly (a : anomaly) (st : state) : state :=
  let st := log (AnomalyDetected a) st in
  match RouterManager.getStats Device session_get (routerManager st) with
  | (Err e, rm) => log (ErrorHandlingAnomaly e) (with_router rm st)
  | (Ok stats, rm) =>
      match respond a (with_router rm st) with
      | (Err e, st') => log (ErrorHandlingAnomaly e) st'
      | (Ok _, st') => emit (Anomaly a stats) st'
      end
  end.

(** [handlePacket(packet)] *)
Definition handlePacket (p : PacketData.t) (st : state) : state :=
  match extractFeatures p with
  | Err e => log (ErrorProcessingPacket e) st
  | Ok fs =>
      match detectAnomaly fs with
      | Err e => log (ErrorProcessingPacket e) st
      | Ok result =>
          if AnomalyDetector.isAnomaly result
             && (anomalyThreshold st <=? AnomalyDetector.confidence result)%float
          then handleAnomaly {| packet := p; features := fs;
                                confidence := AnomalyDetector.confidence result |} st
          else st
      end
  end.

End Orchestrator.

Arguments routerManager {Device}.
Arguments isRunning {Device}.
Arguments anomalyThreshold {Device}.
Arguments events {Device}.
Arguments console {Device}.
Arguments mk {Device}.

(** The listener the constructor registers for the ['packet'] events:
    [handlePacket] of an orchestrator whose detector is the
    [AnomalyDetector] it builds.  [detectAnomaly] takes a packet and is
    handed the feature array; [predict] is the scoring service behind
    [POST /predict]. *)
Definition packetHandler (Device : Type)
           (session_get :
              Device -> list string
              -> result (list RouterManager.Value) * Device)
           (Number : string -> float) (getHours : Z -> float)
           (predict :
              list float -> result AnomalyDetector.AnomalyDetectionResult)
  : PacketData.t -> state Device -> state Device :=
  handlePacket Device session_get
    (AnomalyDetector.extractFeatures Number getHours)
    (fun features =>
       AnomalyDetector.detectAnomaly Number getHours predict
         (FeatureExtractor.array_as_packet features)).

End NetworkOrchestrator.

(** ** Concrete devices, policies and packets for the examples *)

Module Scenario.
Import RouterManager.

(** A device that counts the requests it has seen and refuses the second
    write; one that accepts every write; neither answers a read. *)
Definition refuseSecond (d : nat) (_ : list Varbind) : option string * nat :=
  (if (d =? 1)%nat then Some "RequestTimedOut" else None, S d).

Definition acceptAll (d : nat) (_ : list Varbind) : option string * nat :=
  (None, S d).

Definition noAnswer (d : nat) (_ : list string) : result (list Value) * nat :=
  (Err "RequestTimedOut", S d).

(** A device that answers every read with six counters. *)
Definition sixCounters (d : nat) (_ : list string)
  : result (list Value) * nat :=
  (Ok [VNumber 10; VNumber 20; VNumber 30; VNumber 40; VNumber 50; VNumber 0],
   S d).

Definition rule1 : Rule :=
  {| sourceIP := Some "10.0.0.5"; destIP := None; protocol := Some "tcp";
     port := Some 22%Z; action := deny; limit_ := None |}.
Definition rule2 : Rule :=
  {| sourceIP := None; destIP := Some "10.0.0.9"; protocol := None;
     port := None; action := limit; limit_ := Some 1%Z |}.
Definition rule3 : Rule :=
  {| sourceIP := None; destIP := None; protocol := Some "ICMP";
     port := Some 0%Z; action := allow; limit_ := None |}.

Definition policy3 : NetworkPolicy :=
  {| id := "p-1"; name := "lab"; type_ := firewall;
     rules := [rule1; rule2; rule3]; enabled := true |}.

(** A manager whose session is established. *)
Definition online : state nat := mk true true 0 ∅ [] [] [] 0 None.

(** A manager just constructed. *)
Definition offline : state nat := fresh 0.

End Scenario.

Module OrchestratorScenario.
Import NetworkOrchestrator.

Definition extractFeatures : PacketData.t -> result (list float) :=
  AnomalyDetector.extractFeatures FeatureExtractor.NumberDec
    FeatureExtractor.getHoursUTC.

(** A scoring service that answers every [POST /predict] with an anomaly
    of a fixed confidence. *)
Definition mlService (c : float) (_ : list float)
  : result AnomalyDetector.AnomalyDetectionResult :=
  Ok {| AnomalyDetector.isAnomaly := true;
        AnomalyDetector.confidence := c;
        AnomalyDetector.type := "suspicious_traffic";
        AnomalyDetector.details := "" |}.

Definition pkt : PacketData.t :=
  PacketData.mk (Some 1700000000000%Z) (Some "10.0.0.5") (Some "10.0.0.9")
    (Some "TCP") (Some 1500%N) (Some 4000%N) (Some 22%N) (Some "S")
    None None None.

Definition fs : list float :=
  [1; 1; 0; 0; 0; 0; 22 / 24; 15 / 1020; 19 / 1020]%float.

Definition defaults : OrchestratorConfig :=
  {| cfg_trainingInterval := None; cfg_anomalyThreshold := None |}.

(** An orchestrator as the constructor builds it, with default settings,
    over a manager just constructed. *)
Definition built : state nat := create nat defaults Scenario.offline.

End OrchestratorScenario.

(** ** routerManager.ts: the constructor and sequences of operations *)

Module ManagerOps.
Import RouterManager.

Section Ops.
Variable Device : Type.
Variable session_set : Device -> list Varbind -> option string * Device.
Variable session_get : Device -> list string -> result (list Value) * Device.
Variable writeFile_ok : gmap string NetworkPolicy -> bool.

(** The constructor: [loadPolicies] fills the store from the policy file
    when there is one ([file] is what [savePolicies] last wrote). *)
Definition construct (d : Device) (file : option (gmap string NetworkPolicy))
  : state Device :=
  mk false false 0 (default ∅ file) [] [] [] d file.

(** What can happen to a manager: a call of one of its public methods, or
    the event loop running the oldest pending timer. *)
Inductive op : Type :=
| Connect
| Fire
| ApplyPolicy (policy : NetworkPolicy)
| GetStats
| Disconnect.

Definition exec (o : op) (st : state Device) : state Device :=
  match o with
  | Connect => connect Device session_get st
  | Fire => fire Device session_get st
  | ApplyPolicy policy =>
      snd (applyPolicy Device session_set writeFile_ok policy st)
  | GetStats => snd (getStats Device session_get st)
  | Disconnect => disconnect Device st
  end.

Definition execAll (os : list op) (st : state Device) : state Device :=
  fold_left (fun st o => exec o st) os st.

End Ops.

(** The object identifiers [generatePolicyOids] can produce, in the order
    of its five tests. *)
Definition policyOids : list string :=
  [ "1.3.6.1.2.1.4.20.1.1"; "1.3.6.1.2.1.4.20.1.2"; "1.3.6.1.2.1.4.21.1.9";
    "1.3.6.1.2.1.6.13.1.3"; "1.3.6.1.2.1.4.21.1.13" ].

End ManagerOps.

(** ** Capturing groups of a pattern *)

Module RegexGroups.
Import Regex.

(** The capturing groups of a pattern, each with the pattern it encloses. *)
Fixpoint groups (r : regex) : list (nat * regex) :=
  match r with
  | Eps | Lit _ | Many _ | Many1 _ => []
  | Cat r1 r2 | Alt r1 r2 => groups r1 ++ groups r2
  | Cap i r' => (i, r') :: groups r'
  end.

(** The groups that take part in every match of the pattern. *)
Fixpoint always (r : regex) : list nat :=
  match r with
  | Eps | Lit _ | Many _ | Many1 _ => []
  | Cat r1 r2 => always r1 ++ always r2
  | Alt r1 r2 =>
      List.filter (fun i => existsb (Nat.eqb i) (always r2)) (always r1)
  | Cap i r' => i :: always r'
  end.

(** The captures a successful match hands to its continuation: the ones it
    was given, plus words of the groups of the pattern; and every group
    that always takes part is set. *)
Definition extends (r : regex) (cs cs' : captures) : Prop :=
  (forall i u, In (i, u) cs' ->
     In (i, u) cs \/ exists r', In (i, r') (groups r) /\ lang r' u)
  /\ (forall i, is_Some (group i cs) -> is_Some (group i cs'))
  /\ (forall i, In i (always r) -> is_Some (group i cs')).

End RegexGroups.

(** ** networkOrchestrator.ts: starting and stopping the system *)

Module OrchestratorLifecycle.
Import NetworkOrchestrator.

Section Lifecycle.
Variable Device : Type.
Variable session_get :
  Device -> list string -> result (list RouterManager.Value) * Device.
(** [networkTap.start()] and [networkTap.stop()] as [start] and [stop] call
    them ([networkTap.ts] itself defines [startCapture] and [stopCapture]
    only), and the health check of [anomalyDetector.initialize()]. *)
Variable Tap : Type.
Variable tapStart : Tap -> result unit * Tap.
Variable tapStop : Tap -> result unit * Tap.
Variable initialize : result unit.

(** The orchestrator with its capture adapter, the period of the
    retraining (in ms) and the intervals registered with [setInterval],
    oldest first. *)
Record system : Type := {
  orchestrator : state Device;
  tap : Tap;
  trainingInterval : float;
  intervals : list float
}.

Definition with_running (b : bool) (rm : RouterManager.state Device)
           (o : state Device) : state Device :=
  mk rm b (anomalyThreshold o) (events o) (console o).

(** [start()]; what it prints on the console is left out. *)
Definition start (sys : system) : result unit * system :=
  let o := orchestrator sys in
  if isRunning o then (Ok tt, sys)
  else
    let rm := RouterManager.connect Device session_get (routerManager o) in
    let o := with_router Device rm o in
    match tapStart (tap sys) with
    | (Err e, t) =>
        (Err e, {| orchestrator := o; tap := t;
                   trainingInterval := trainingInterval sys;
                   intervals := intervals sys |})
    | (Ok _, t) =>
        match initialize with
        | Err e =>
            (Err e, {| orchestrator := o; tap := t;
                       trainingInterval := trainingInterval sys;
                       intervals := intervals sys |})
        | Ok _ =>
            (Ok tt, {| orchestrator := with_running true rm o; tap := t;
                       trainingInterval := trainingInterval sys;
                       intervals := intervals sys ++ [trainingInterval sys] |})
        end
    end.

(** [stop()]; what it prints on the console is left out. *)
Definition stop (sys : system) : result unit * system :=
  let o := orchestrator sys in
  if negb (isRunning o) then (Ok tt, sys)
  else
    match tapStop (tap sys) with
    | (Err e, t) =>
        (Err e, {| orchestrator := o; tap := t;
                   trainingInterval := trainingInterval sys;
                   intervals := intervals sys |})
    | (Ok _, t) =>
        let rm := RouterManager.disconnect Device (routerManager o) in
        (Ok tt, {| orchestrator := with_running false rm o; tap := t;
                   trainingInterval := trainingInterval sys;
                   intervals := intervals sys |})
    end.

(** The system the constructor builds: the training period is
    [config.trainingInterval || 3600000]. *)
Definition build (config : OrchestratorConfig)
           (rm : RouterManager.state Device) (t : Tap) : system :=
  {| orchestrator := create Device config rm; tap := t;
     trainingInterval := or_default (cfg_trainingInterval config) 3600000;
     intervals := [] |}.

End Lifecycle.

Arguments orchestrator {Device Tap}.
Arguments tap {Device Tap}.
Arguments trainingInterval {Device Tap}.
Arguments intervals {Device Tap}.

End OrchestratorLifecycle.

(** ** The log compression algorithms: run-length and dictionary encoding *)

Module LogCompression.

(** An entry [{ count, log }] of the run-length format; the counts the
    encoder writes and the decoder reads are natural numbers. *)
Record entry : Type := { count : nat; log : string }.

(** The [for] loop of [runLengthEncoding], from index [i] on: [currentLog]
    and [count] are the run being read. *)
Fixpoint rleLoop (logs : list string) (currentLog : string) (count : nat)
  : list entry :=
  match logs with
  | [] => [{| count := count; log := currentLog |}]
  | l :: rest =>
      if String.eqb l currentLog
      then rleLoop rest currentLog (S count)
      else {| count := count; log := currentLog |} :: rleLoop rest l 1
  end.

(** [runLengthEncoding(logs)] *)
Definition runLengthEncoding (logs : list string) : list entry :=
  match logs with
  | [] => []
  | first :: rest => rleLoop rest first 1
  end.

(** [decompressRLE(compressed)]: [Array(count).fill(log)] for each entry. *)
Definition decompressRLE (compressed : list entry) : list string :=
  flat_map (fun e => repeat (log e) (count e)) compressed.

(** A [Map<string, number>], as its entries in insertion order. *)
Definition dictionary := list (string * nat).

(** [dictionary.get(log)] *)
Fixpoint get (d : dictionary) (key : string) : option nat :=
  match d with
  | [] => None
  | (k, code) :: d' => if String.eqb k key then Some code else get d' key
  end.

(** The loop of [dictionaryCompression]: the dictionary after the loop and
    the codes pushed. *)
Fixpoint dictLoop (logs : list string) (d : dictionary) (nextCode : nat)
  : dictionary * list nat :=
  match logs with
  | [] => (d, [])
  | l :: rest =>
      match get d l with
      | Some code =>
          let (dfinal, codes) := dictLoop rest d nextCode in
          (dfinal, code :: codes)
      | None =>
          let (dfinal, codes) :=
            dictLoop rest (d ++ [(l, nextCode)]) (S nextCode) in
          (dfinal, nextCode :: codes)
      end
  end.

(** [dictionaryCompression(logs)] *)
Definition dictionaryCompression (logs : list string)
  : dictionary * list nat :=
  dictLoop logs [] 0.

(** The [reverseDict] of [decompressDictionary]: each entry of the
    dictionary is set in insertion order, a later one replacing an earlier
    one with the same code. *)
Fixpoint reverseGet (d : dictionary) (code : nat) : option string :=
  match d with
  | [] => None
  | (k, c) :: d' =>
      match reverseGet d' code with
      | Some k' => Some k'
      | None => if Nat.eqb c code then Some k else None
      end
  end.

(** [decompressDictionary(compressed)]; [None] is the [undefined] a code
    without entry is mapped to. *)
Definition decompressDictionary (c : dictionary * list nat)
  : list (option string) :=
  map (reverseGet (fst c)) (snd c).

(** The dictionary while the loop runs: the codes handed out are the
    numbers below [nextCode], each once. *)
Definition dict_ok (d : dictionary) (nextCode : nat) : Prop :=
  map snd d = seq 0 nextCode.

(** The entries a run-length encoding is made of: positive counts, and
    neighbours with different logs. *)
Fixpoint canonical (c : list entry) : Prop :=
  match c with
  | [] => True
  | e :: rest =>
      0 < count e
      /\ match rest with
         | [] => True
         | e' :: _ => log e <> log e'
         end
      /\ canonical rest
  end.

End LogCompression.

(** ** bloomFilter.ts: Bloom filter and the log compressor built on it *)

Module BloomFilter.

(** [i.toString()] for an index of the loop. *)
Definition toString (i : nat) : string :=
  NilEmpty.string_of_uint (Nat.to_uint i).

Section Filter.
(** [options.size] and [options.hashCount], and what
    [parseInt(createHash('sha256').update(s).digest('hex').substring(0, 8), 16)]
    is for a string [s]. *)
Variable size hashCount : nat.
Variable digest : string -> nat.

(** [hashFunctions[i]], as [generateHashFunctions] builds it.  For
    [size = 0] JavaScript's [%] gives [NaN]; the properties below are for
    filters of positive size. *)
Definition hashFn (i : nat) (value : string) : nat :=
  digest (value +:+ toString i) mod size.

(** [new Array(this.size).fill(false)] *)
Definition create : list bool := replicate size false.

(** [add(value)] *)
Definition add (bitArray : list bool) (value : string) : list bool :=
  fold_left (fun bits i => <[hashFn i value := true]> bits)
            (seq 0 hashCount) bitArray.

(** [mightContain(value)]; an index without element reads [undefined]. *)
Definition mightContain (bitArray : list bool) (value : string) : bool :=
  forallb (fun i => default false (bitArray !! hashFn i value))
          (seq 0 hashCount).

(** [clear()] *)
Definition clear (bitArray : list bool) : list bool :=
  replicate (length bitArray) false.

End Filter.
End BloomFilter.

Module LogCompressor.

Record stats : Type := {
  totalLogs : nat;
  uniqueLogs : nat;
  compressedSize : nat;
  originalSize : nat
}.

Record state : Type := {
  bloomFilter : list bool;
  uniqueSet : gset string;       (* the field [uniqueLogs] *)
  compressionStats : stats
}.

Definition noStats : stats :=
  {| totalLogs := 0; uniqueLogs := 0; compressedSize := 0;
     originalSize := 0 |}.

Section Compressor.
Variable size hashCount : nat.
Variable digest : string -> nat.

(** [new LogCompressor(options)] *)
Definition create : state :=
  {| bloomFilter := BloomFilter.create size;
     uniqueSet := ∅;
     compressionStats := noStats |}.

(** [compressLog(log)]: the value returned and the compressor after. *)
Definition compressLog (s : state) (log : string) : bool * state :=
  let st := compressionStats s in
  let total := S (totalLogs st) in
  let original := originalSize st + String.length log in
  if BloomFilter.mightContain size hashCount digest (bloomFilter s) log
     && bool_decide (log ∈ uniqueSet s)
  then
    (false,
     {| bloomFilter := bloomFilter s;
        uniqueSet := uniqueSet s;
        compressionStats :=
          {| totalLogs := total; uniqueLogs := uniqueLogs st;
             compressedSize := compressedSize st;
             originalSize := original |} |})
  else
    (true,
     {| bloomFilter :=
          BloomFilter.add size hashCount digest (bloomFilter s) log;
        uniqueSet := uniqueSet s ∪ {[ log ]};
        compressionStats :=
          {| totalLogs := total; uniqueLogs := S (uniqueLogs st);
             compressedSize := compressedSize st + String.length log;
             originalSize := original |} |}).

(** [compressLog] on one log after the other: the values returned and
    the compressor at the end. *)
Fixpoint compressAll (s : state) (logs : list string) : list bool * state :=
  match logs with
  | [] => ([], s)
  | l :: rest =>
      let (b, s1) := compressLog s l in
      let (bs, s2) := compressAll s1 rest in
      (b :: bs, s2)
  end.

(** [clear()] *)
Definition clear (s : state) : state :=
  {| bloomFilter := BloomFilter.clear (bloomFilter s);
     uniqueSet := ∅;
     compressionStats := noStats |}.

(** What holds of a compressor that has been given the logs [seen]. *)
Definition tracks (s : state) (seen : list string) : Prop :=
  length (bloomFilter s) = size
  /\ uniqueSet s = list_to_set seen
  /\ (forall l, l ∈ uniqueSet s ->
        BloomFilter.mightContain size hashCount digest (bloomFilter s) l
        = true)
  /\ totalLogs (compressionStats s) = length seen
  /\ uniqueLogs (compressionStats s) = base.size (uniqueSet s)
  /\ originalSize (compressionStats s) = list_sum (map String.length seen)
  /\ compressedSize (compressionStats s)
     <= originalSize (compressionStats s).

End Compressor.
End LogCompressor.

(** ** networkTap.ts: detecting the interfaces *)

Module DetectInterfaces.
Import Regex NetworkTap.

(** [.]: every code unit but a line terminator. *)
Definition notLineTerminator (c : ascii) : bool :=
  negb (Ascii.eqb c "010"%char || Ascii.eqb c "013"%char).

Section Lazy.
Context {A : Type}.

(** A lazy [p+?]: the shortest run first, then longer ones. *)
Fixpoint lazy1 (p : ascii -> bool) (s : list ascii)
         (k : list ascii -> option A) : option A :=
  match s with
  | c :: s' =>
      if p c then
        match k s' with
        | Some a => Some a
        | None => lazy1 p s' k
        end
      else None
  | [] => None
  end.
End Lazy.

(** [line.match(/^\d+\.\s+(.+?)\s+/)]: group 1 of the match, which the
    anchor allows at the start of the line only. *)
Definition matchLine (line : list ascii) : option (list ascii) :=
  rmatch (digits ⋅ dot ⋅ Many1 isWhiteSpace) line []
    (fun s1 _ =>
       lazy1 notLineTerminator s1
         (fun s2 =>
            rmatch (Many1 isWhiteSpace) s2 []
              (fun _ _ => Some (consumed s1 s2)))).

(** [match ? match[1] : ''] *)
Definition interfaceOf (line : string) : string :=
  match matchLine (list_ascii_of_string line) with
  | Some w => string_of_list_ascii w
  | None => ""
  end.

(** [line.trim()] *)
Fixpoint trimStart (s : list ascii) : list ascii :=
  match s with
  | c :: s' => if isWhiteSpace c then trimStart s' else s
  | [] => []
  end.

Definition trimEnd (s : list ascii) : list ascii :=
  rev (trimStart (rev s)).

Definition trim (line : string) : string :=
  string_of_list_ascii (trimEnd (trimStart (list_ascii_of_string line))).

(** [s.length > 0] *)
Definition nonEmpty (s : string) : bool := negb (String.eqb s "").

(** [detectInterfaces()]; [tcpdump] is what [execAsync('tcpdump -D')]
    resolves to, its [stdout], or the message of the error it rejects
    with. *)
Definition detectInterfaces (tcpdump : result string)
  : result (list string) :=
  match tcpdump with
  | Ok stdout =>
      Ok (List.filter nonEmpty
            (map interfaceOf
               (List.filter nonEmpty (map trim (split_lines stdout)))))
  | Err message =>
      Err ("Failed to detect network interfaces: " +:+ message)
  end.

End DetectInterfaces.

(** ** networkOrchestrator.ts: the status of the system *)

Module OrchestratorStatus.
Import NetworkOrchestrator.

Section Status.
Variable Device : Type.
Variable session_get :
  Device -> list string -> result (list RouterManager.Value) * Device.
(** What [anomalyDetector.getModelStats()] resolves to or rejects with,
    and [routerManager.getPolicies()], which [routerManager.ts] does not
    define. *)
Variable ModelStats Policies : Type.
Variable getModelStats : result ModelStats.
Variable getPolicies : RouterManager.state Device -> result Policies.

Record status : Type := {
  st_isRunning : bool;
  st_router : RouterManager.RouterStats;
  st_model : ModelStats;
  st_policies : Policies
}.

(** [getStatus()]; what it prints on the console is left out. *)
Definition getStatus (o : state Device) : result status * state Device :=
  match RouterManager.getStats Device session_get (routerManager o) with
  | (Err e, rm) => (Err e, with_router Device rm o)
  | (Ok routerStats, rm) =>
      let o := with_router Device rm o in
      match getModelStats with
      | Err e => (Err e, o)
      | Ok modelStats =>
          match getPolicies rm with
          | Err e => (Err e, o)
          | Ok policies =>
              (Ok {| st_isRunning := isRunning o; st_router := routerStats;
                     st_model := modelStats; st_policies := policies |}, o)
          end
      end
  end.

End Status.
End OrchestratorStatus.

(** ** NetworkAnalyzer: the connection statistics *)

Module NetworkAnalyzer.

Record ConnectionInfo : Type := {
  localAddress : string;
  localPort : nat;
  remoteAddress : string;
  remotePort : nat;
  state : string;
  bytesIn : nat;
  bytesOut : nat
}.

(** The three maps of [NetworkStats] that [updateConnectionStats]
    writes. *)
Record stats : Type := {
  connections : gmap string ConnectionInfo;
  topTalkers : gmap string nat;
  topDestinations : gmap string nat
}.

(** The maps of a new analyzer. *)
Definition noStats : stats :=
  {| connections := ∅; topTalkers := ∅; topDestinations := ∅ |}.

(** The key of a connection: local address and port, a dash, remote
    address and port. *)
Definition key (conn : ConnectionInfo) : string :=
  localAddress conn +:+ ":" +:+ BloomFilter.toString (localPort conn)
  +:+ "-" +:+ remoteAddress conn +:+ ":"
  +:+ BloomFilter.toString (remotePort conn).

(** [m.set(k, (m.get(k) || 0) + 1)] *)
Definition bump (m : gmap string nat) (k : string) : gmap string nat :=
  <[k := default 0 (m !! k) + 1]> m.

(** The body of the [forEach] of [updateConnectionStats]. *)
Definition updateOne (st : stats) (conn : ConnectionInfo) : stats :=
  {| connections := <[key conn := conn]> (connections st);
     topTalkers := bump (topTalkers st) (localAddress conn);
     topDestinations := bump (topDestinations st) (remoteAddress conn) |}.

(** [updateConnectionStats(connections)] *)
Definition updateConnectionStats (st : stats) (conns : list ConnectionInfo)
  : stats :=
  fold_left updateOne conns st.

(** How many of the connections have [a] as the address [f] reads. *)
Definition seen (f : ConnectionInfo -> string) (a : string)
           (conns : list ConnectionInfo) : nat :=
  length (List.filter (fun c => String.eqb (f c) a) conns).

End NetworkAnalyzer.

(** * Properties *)

(** ** The matcher finds a match exactly when one exists *)

Section RegexFacts.
Import Regex.

Lemma many_sound {A} p s (k : list ascii -> option A) a :
  many p s k = Some a ->
  exists w s', s = w ++ s' /\ forallb p w = true /\ k s' = Some a.
Proof.
  revert a; induction s as [|c s IH]; intros a H; simpl in H.
  - exists [], []; auto.
  - destruct (p c) eqn:Hp.
    + destruct (many p s k) as [b|] eqn:Hm.
      * inversion H; subst b.
        destruct (IH a eq_refl) as (w & s' & -> & Hw & Hk).
        exists (c :: w), s'; simpl; rewrite Hp; auto.
      * exists [], (c :: s); auto.
    + exists [], (c :: s); auto.
Qed.

Lemma many_here {A} p s (k : list ascii -> option A) :
  is_Some (k s) -> is_Some (many p s k).
Proof.
  intros Hk; destruct s as [|c s]; simpl; auto.
  destruct (p c); auto.
  destruct (many p s k); eauto.
Qed.

Lemma many_complete {A} p w s' (k : list ascii -> option A) :
  forallb p w = true -> is_Some (k s') -> is_Some (many p (w ++ s') k).
Proof.
  induction w as [|c w IH]; simpl; intros Hw Hk.
  - now apply many_here.
  - apply andb_prop in Hw as [Hc Hw]; rewrite Hc.
    destruct (IH Hw Hk) as [a ->]; eauto.
Qed.

Lemma rmatch_sound {A} r : forall s cs (k : list ascii -> captures -> option A) a,
  rmatch r s cs k = Some a ->
  exists w s' cs', s = w ++ s' /\ lang r w /\ k s' cs' = Some a.
Proof.
  induction r as [|c|p|p|r1 IH1 r2 IH2|r1 IH1 r2 IH2|i r IH];
    intros s cs k a H; simpl in H.
  - exists [], s, cs; simpl; auto.
  - destruct s as [|c' s]; [discriminate|].
    destruct (Ascii.eqb_spec c c'); [subst c'|discriminate].
    exists [c], s, cs; simpl; auto.
  - apply many_sound in H as (w & s' & -> & Hw & Hk).
    exists w, s', cs; simpl; auto.
  - destruct s as [|c s]; [discriminate|].
    destruct (p c) eqn:Hp; [|discriminate].
    apply many_sound in H as (w & s' & -> & Hw & Hk).
    exists (c :: w), s', cs; simpl; rewrite Hp; repeat split; auto; discriminate.
  - apply IH1 in H as (w1 & s1 & cs1 & -> & H1 & H).
    apply IH2 in H as (w2 & s2 & cs2 & -> & H2 & H).
    exists (w1 ++ w2), s2, cs2; rewrite <- app_assoc; simpl; eauto 10.
  - destruct (rmatch r1 s cs k) as [b|] eqn:E.
    + inversion H; subst b.
      apply IH1 in E as (w & s' & cs' & -> & Hw & Hk).
      exists w, s', cs'; simpl; auto.
    + apply IH2 in H as (w & s' & cs' & -> & Hw & Hk).
      exists w, s', cs'; simpl; auto.
  - apply IH in H as (w & s' & cs' & -> & Hw & Hk).
    eexists w, s', _; simpl; eauto.
Qed.

Lemma rmatch_complete {A} r : forall w s' cs (k : list ascii -> captures -> option A),
  lang r w -> (forall cs', is_Some (k s' cs')) ->
  is_Some (rmatch r (w ++ s') cs k).
Proof.
  induction r as [|c|p|p|r1 IH1 r2 IH2|r1 IH1 r2 IH2|i r IH];
    intros w s' cs k Hw Hk; simpl in Hw; simpl.
  - subst w; apply Hk.
  - subst w; simpl. rewrite Ascii.eqb_refl. apply Hk.
  - apply many_complete; auto.
  - destruct Hw as [Hne Hw]. destruct w as [|c w]; [congruence|].
    simpl in Hw; apply andb_prop in Hw as [Hc Hw].
    simpl; rewrite Hc. apply many_complete; auto.
  - destruct Hw as (w1 & w2 & -> & H1 & H2).
    rewrite <- app_assoc. apply IH1; auto.
  - destruct Hw as [H1|H2].
    + destruct (IH1 w s' cs k H1 Hk) as [a ->]; eauto.
    + destruct (rmatch r1 (w ++ s') cs k); eauto.
  - apply IH; auto.
Qed.

Lemma search_sound r s cs : search r s = Some cs -> occurs r s.
Proof.
  induction s as [|c s IH]; simpl.
  - destruct (match_here r []) eqn:E; [|discriminate]. intros _.
    apply rmatch_sound in E as (w & s' & cs' & Hs & Hw & _).
    exists [], w, s'; auto.
  - destruct (match_here r (c :: s)) eqn:E.
    + intros _. apply rmatch_sound in E as (w & s' & cs' & Hs & Hw & _).
      exists [], w, s'; auto.
    + intros H. destruct (IH H) as (pre & w & post & -> & Hw).
      exists (c :: pre), w, post; auto.
Qed.

Lemma search_complete r s : occurs r s -> is_Some (search r s).
Proof.
  intros (pre & w & post & -> & Hw).
  induction pre as [|c pre IH].
  - assert (H : is_Some (match_here r (w ++ post))).
    { apply rmatch_complete; eauto. }
    destruct H as [cs H]. simpl.
    destruct (w ++ post); simpl; rewrite H; eauto.
  - simpl. destruct (match_here r (c :: pre ++ w ++ post)); eauto.
Qed.

Lemma search_occurs r s : is_Some (search r s) <-> occurs r s.
Proof.
  split; [intros [cs H]; eauto using search_sound | apply search_complete].
Qed.

Lemma in_all_ascii c : In c all_ascii.
Proof.
  unfold all_ascii. rewrite <- (ascii_nat_embedding c).
  apply in_map, in_seq. pose proof (nat_ascii_bounded c). lia.
Qed.

Lemma inked_lang blank r : forall w,
  inked blank r = true -> lang r w -> forallb blank w = false.
Proof.
  induction r as [|c|p|p|r1 IH1 r2 IH2|r1 IH1 r2 IH2|i r IH];
    intros w Hi Hw; cbn [inked] in Hi; cbn [lang] in Hw; try discriminate.
  - subst w; simpl. destruct (blank c); simpl in *; congruence.
  - destruct Hw as [Hne Hw]. destruct w as [|c w]; [congruence|].
    simpl in Hw. apply andb_prop in Hw as [Hc _].
    rewrite forallb_forall in Hi. specialize (Hi c (in_all_ascii c)).
    rewrite Hc in Hi; simpl in Hi. simpl.
    destruct (blank c); simpl in *; congruence.
  - destruct Hw as (w1 & w2 & -> & H1 & H2).
    rewrite forallb_app. apply orb_prop in Hi as [Hi|Hi].
    + rewrite (IH1 _ Hi H1); reflexivity.
    + rewrite (IH2 _ Hi H2); apply andb_false_r.
  - apply andb_prop in Hi as [Hi1 Hi2]. destruct Hw; auto.
  - auto.
Qed.

End RegexFacts.

(** ** The capture adapter *)

Section NetworkTapFacts.
Import Regex NetworkTap.

Lemma js_match_occurs r line :
  is_Some (js_match r line) <-> occurs r (list_ascii_of_string line).
Proof. apply search_occurs. Qed.

Lemma tokens_inked r : In r tokenPatterns -> inked isWhiteSpace r = true.
Proof.
  unfold tokenPatterns; simpl.
  intros H; repeat (destruct H as [<-|H]; [vm_compute; reflexivity|]).
  destruct H.
Qed.

(** No token pattern has a word made of white space only. *)
Lemma blank_not_recognizable line : blank line = true -> ~ recognizable line.
Proof.
  unfold blank. intros Hb (r & Hr & pre & w & post & Hs & Hw).
  rewrite Hs, !forallb_app in Hb.
  apply andb_prop in Hb as [_ Hb]. apply andb_prop in Hb as [Hb _].
  rewrite (inked_lang _ _ _ (tokens_inked r Hr) Hw) in Hb. discriminate.
Qed.

Lemma has_option_map {A B} (f : A -> B) (o : option A) :
  PacketData.has (option_map f o) = PacketData.has o.
Proof. destruct o; reflexivity. Qed.

Lemma keys_scan now line :
  PacketData.keys (scan now line)
  = 1 + 2 * PacketData.has (js_match ipRe line)
    + PacketData.has (js_match protocolRe line)
    + PacketData.has (js_match lengthRe line)
    + 2 * PacketData.has (js_match portRe line)
    + PacketData.has (js_match flagsRe line)
    + PacketData.has (js_match ttlRe line)
    + PacketData.has (js_match windowRe line)
    + PacketData.has (js_match checksumRe line).
Proof.
  unfold PacketData.keys, scan; cbn [PacketData.timestamp PacketData.sourceIP
    PacketData.destIP PacketData.protocol PacketData.length
    PacketData.sourcePort PacketData.destPort PacketData.flags
    PacketData.ttl PacketData.window PacketData.checksum].
  rewrite !has_option_map. cbn [PacketData.has]. lia.
Qed.

Lemma has_positive {A} (o : option A) : 0 < PacketData.has o <-> is_Some o.
Proof.
  destruct o; simpl; split; intros H; eauto; try lia.
  destruct H; discriminate.
Qed.

Lemma has_bound {A} (o : option A) : PacketData.has o <= 1.
Proof. destruct o; simpl; lia. Qed.

(** More than the timestamp is set exactly when a token occurs. *)
Lemma keys_recognizable now line :
  1 < PacketData.keys (scan now line) <-> recognizable line.
Proof.
  rewrite keys_scan. split.
  - intros H.
    assert (Hsome :
      is_Some (js_match ipRe line) \/ is_Some (js_match protocolRe line) \/
      is_Some (js_match lengthRe line) \/ is_Some (js_match portRe line) \/
      is_Some (js_match flagsRe line) \/ is_Some (js_match ttlRe line) \/
      is_Some (js_match windowRe line) \/ is_Some (js_match checksumRe line)).
    { rewrite <- !has_positive. lia. }
    unfold recognizable, tokenPatterns.
    repeat (destruct Hsome as [Hs|Hsome];
            [apply js_match_occurs in Hs; eexists; split; [|exact Hs];
             simpl; tauto|]).
    apply js_match_occurs in Hsome; eexists; split; [|exact Hsome].
    simpl; tauto.
  - intros (r & Hr & Ho). apply js_match_occurs, has_positive in Ho.
    unfold tokenPatterns in Hr; simpl in Hr.
    repeat (destruct Hr as [<-|Hr]; [lia|]). destruct Hr.
Qed.

Lemma processLine_Some now line p :
  processLine now line = Some p <->
  blank line = false /\ 1 < PacketData.keys (scan now line) /\ p = scan now line.
Proof.
  unfold processLine. destruct (blank line).
  - split; [discriminate|intros [? _]; discriminate].
  - destruct (Nat.ltb_spec 1 (PacketData.keys (scan now line))).
    + split; [intros [= <-]; auto|intros (_ & _ & ->); auto].
    + split; [discriminate|intros (_ & ? & _); lia].
Qed.

Lemma processLine_recognizable now line :
  is_Some (processLine now line) <-> recognizable line.
Proof.
  split.
  - intros [p Hp]. apply processLine_Some in Hp as (_ & Hk & _).
    now apply keys_recognizable in Hk.
  - intros Hr. exists (scan now line). apply processLine_Some.
    repeat split; [|now apply keys_recognizable].
    destruct (blank line) eqn:Hb; auto.
    now apply blank_not_recognizable in Hb.
Qed.

(** A word of the address pattern contains a word of the port pattern:
    the last two components of the source and the first two of the
    destination. *)
Lemma ip_occurs_port s : occurs ipRe s -> occurs portRe s.
Proof.
  intros (pre & w & post & -> & Hw).
  cbn [lang ipRe quad digits dot spaces] in Hw.
  destruct Hw as (q1 & w1 & -> & Hq1 & sp1 & w2 & -> & Hsp1 & gt & w3 & ->
                  & -> & sp2 & q2 & -> & Hsp2 & Hq2).
  destruct Hq1 as (a1 & x1 & -> & Ha1 & ? & x2 & -> & -> & a2 & x3 & -> & Ha2
                   & ? & x4 & -> & -> & a3 & x5 & -> & Ha3 & ? & a4 & -> & ->
                   & Ha4).
  destruct Hq2 as (b1 & y1 & -> & Hb1 & ? & y2 & -> & -> & b2 & y3 & -> & Hb2
                   & ? & y4 & -> & -> & b3 & y5 & -> & Hb3 & ? & b4 & -> & ->
                   & Hb4).
  exists (pre ++ a1 ++ ["."%char] ++ a2 ++ ["."%char]),
         (a3 ++ ["."%char] ++ a4 ++ sp1 ++ [">"%char] ++ sp2
             ++ b1 ++ ["."%char] ++ b2),
         (["."%char] ++ b3 ++ ["."%char] ++ b4 ++ post).
  split.
  - repeat rewrite <- app_assoc. reflexivity.
  - cbn [lang portRe digits dot spaces].
    repeat (eexists; eexists; split; [reflexivity|split; [eassumption||reflexivity|]]).
    assumption.
Qed.

End NetworkTapFacts.

Section NetworkTapClaims.
Import Regex NetworkTap.

(** The records of a chunk are those of its lines, one line at a time. *)
Lemma processLines_records clock lines : forall i p,
  In p (processLines clock i lines) <->
  exists j line, nth_error lines j = Some line
                 /\ processLine (clock (i + j)) line = Some p.
Proof.
  induction lines as [|l ls IH]; intros i p; simpl.
  - split; [tauto|]. intros (j & line & H & _). now destruct j.
  - assert (Hrest : In p (processLines clock (S i) ls) <->
      exists j line, nth_error (l :: ls) (S j) = Some line
                     /\ processLine (clock (i + S j)) line = Some p).
    { rewrite IH. split; intros (j & line & H1 & H2); exists j, line;
        (split; [exact H1|]); rewrite Nat.add_succ_r in *; exact H2. }
    destruct (processLine (clock i) l) as [q|] eqn:E; simpl; rewrite Hrest.
    + split.
      * intros [<-|(j & line & H)]; [exists 0, l|exists (S j), line; exact H].
        rewrite Nat.add_0_r. auto.
      * intros ([|j] & line & H1 & H2).
        -- left. simpl in H1. injection H1 as <-.
           rewrite Nat.add_0_r in H2. congruence.
        -- right. eauto.
    + split.
      * intros (j & line & H). exists (S j), line. exact H.
      * intros ([|j] & line & H1 & H2); [|eauto].
        simpl in H1. injection H1 as <-.
        rewrite Nat.add_0_r in H2. congruence.
Qed.

(** A chunk of three lines: the empty one and the blank one are dropped,
    and the third is stamped with the clock of its position. *)
Example processPacket_chunk :
  processPacket (fun i => Z.of_nat i)
    (String "010"%char "" +:+ "    " +:+ String "010"%char ""
       +:+ "IP 10.0.0.5 > 10.0.0.9: ICMP echo request, length 64")
  = [ PacketData.mk (Some 2%Z) (Some "10.0.0.5") (Some "10.0.0.9")
        (Some "ICMP") (Some 64%N) (Some 5%N) (Some 0%N) None None None None ].
Proof. vm_compute. reflexivity. Qed.

(** The parser on two ordinary lines: free text is dropped, a length
    token alone gives a record. *)
Example processLine_free_text : processLine 0 "listening on eth0" = None.
Proof. vm_compute. reflexivity. Qed.

Example processLine_length_only :
  processLine 0 "length 100"
  = Some (PacketData.mk (Some 0%Z) None None None (Some 100%N)
            None None None None None None).
Proof. vm_compute. reflexivity. Qed.

(** C3 (evaluation of the code on the scenario line).  For the line
    ["10.0.0.5.4000 > 10.0.0.9.80: Flags [S], length 1500"] the parser emits
    exactly one record; its protocol is unset, its length is 1500 and its
    flags are ["S"], but its sourceIP is ["0.0.5.4000"] (the leftmost place
    where four dotted numbers are followed by [>]), its destIP is
    ["10.0.0.9"], its sourcePort is 4000 and its destPort is 0 (the second
    component of the destination), not ["10.0.0.5"] and 80. *)
Theorem processPacket_scenario_line (clock : nat -> Z) :
  processPacket clock "10.0.0.5.4000 > 10.0.0.9.80: Flags [S], length 1500"
  = [ PacketData.mk (Some (clock 0)) (Some "0.0.5.4000") (Some "10.0.0.9")
        None (Some 1500%N) (Some 4000%N) (Some 0%N) (Some "S")
        None None None ].
Proof. vm_compute. reflexivity. Qed.

(** C4.  For every line, a record is emitted exactly when the scan set
    more than the timestamp, which is exactly when one of the eight token
    patterns occurs in the line; the record emitted is the scan's; a line
    with no recognizable token emits nothing. *)
Theorem processLine_emits_iff_parsed (now : Z) (line : string) :
  (is_Some (processLine now line) <-> 1 < PacketData.keys (scan now line))
  /\ (is_Some (processLine now line) <-> recognizable line)
  /\ (forall p, processLine now line = Some p -> p = scan now line)
  /\ (~ recognizable line -> processLine now line = None).
Proof.
  split; [|split; [|split]].
  - rewrite keys_recognizable. apply processLine_recognizable.
  - apply processLine_recognizable.
  - intros p Hp. now apply processLine_Some in Hp as (_ & _ & ->).
  - intros Hn. destruct (processLine now line) as [p|] eqn:E; auto.
    exfalso. apply Hn, (processLine_recognizable now). rewrite E. eauto.
Qed.

(** C5 (the claim fails).  The line ["1.2 > 3.4"] has no address pair, and
    the record emitted for it carries sourcePort 2 and destPort 4. *)
Lemma port_pair_alone_sets_ports :
  js_match ipRe "1.2 > 3.4" = None
  /\ processLine 0 "1.2 > 3.4"
     = Some (PacketData.mk (Some 0%Z) None None None None
               (Some 2%N) (Some 4%N) None None None None).
Proof. split; vm_compute; reflexivity. Qed.

(** C5 (amended).  The port fields of an emitted record are set exactly
    when the port-pair pattern occurs in the line, whether or not an
    address pair was found; and whenever the address fields are set the
    port fields are set too. *)
Theorem ports_set_iff_port_pair (now : Z) (line : string) (p : PacketData.t) :
  processLine now line = Some p ->
  (is_Some (PacketData.sourcePort p)
     <-> occurs portRe (list_ascii_of_string line))
  /\ (is_Some (PacketData.destPort p)
     <-> occurs portRe (list_ascii_of_string line))
  /\ (is_Some (PacketData.sourceIP p) ->
      is_Some (PacketData.sourcePort p) /\ is_Some (PacketData.destPort p)).
Proof.
  intros Hp. apply processLine_Some in Hp as (_ & _ & ->).
  unfold scan; cbn [PacketData.sourcePort PacketData.destPort PacketData.sourceIP].
  rewrite <- !has_positive, !has_option_map, !has_positive.
  split; [apply js_match_occurs|split; [apply js_match_occurs|]].
  intros H. apply js_match_occurs, ip_occurs_port, js_match_occurs in H.
  split; exact H.
Qed.

(** The line with a port pair and no address pair. *)
Lemma ports_set_iff_port_pair_witness :
  let p := scan 0 "1.2 > 3.4" in
  (is_Some (PacketData.sourcePort p)
     <-> occurs portRe (list_ascii_of_string "1.2 > 3.4"))
  /\ (is_Some (PacketData.destPort p)
     <-> occurs portRe (list_ascii_of_string "1.2 > 3.4"))
  /\ (is_Some (PacketData.sourceIP p) ->
      is_Some (PacketData.sourcePort p) /\ is_Some (PacketData.destPort p)).
Proof.
  apply (ports_set_iff_port_pair 0 "1.2 > 3.4"). vm_compute. reflexivity.
Defined.

(** C8.  On an adapter that is capturing, [startCapture] fails with
    "Capture is already running" and changes nothing: the adapter is still
    active, with the same process, and no command was spawned. *)
Theorem startCapture_already_running
  (exec : string -> option string) (interfaceName filter : string)
  (st : state) :
  isCapturing st = true ->
  startCapture exec interfaceName filter st
    = (Err "Capture is already running", st)
  /\ isActive (snd (startCapture exec interfaceName filter st)) = true
  /\ tcpdumpProcess (snd (startCapture exec interfaceName filter st))
     = tcpdumpProcess st
  /\ spawned (snd (startCapture exec interfaceName filter st)) = spawned st.
Proof.
  intros H. unfold startCapture. rewrite H. simpl. auto.
Qed.

(** A second [startCapture] after a first one that succeeded. *)
Lemma startCapture_already_running_witness :
  let st := snd (startCapture (fun _ => None) "eth0" "" initial) in
  startCapture (fun _ => None) "eth1" "tcp" st
    = (Err "Capture is already running", st)
  /\ isActive (snd (startCapture (fun _ => None) "eth1" "tcp" st)) = true
  /\ tcpdumpProcess (snd (startCapture (fun _ => None) "eth1" "tcp" st))
     = tcpdumpProcess st
  /\ spawned (snd (startCapture (fun _ => None) "eth1" "tcp" st)) = spawned st.
Proof.
  apply (startCapture_already_running (fun _ => None) "eth1" "tcp").
  reflexivity.
Defined.

End NetworkTapClaims.

(** ** The feature extractor and the scorer *)

Section ExtractorFacts.
Import FeatureExtractor.

(** What [extract] returns when it returns: one size, five one-hot
    indicators, one hour and two address scalars. *)
Lemma extract_Ok_inv Number getHours p v :
  extract Number getHours p = Ok v ->
  is_Some (PacketData.sourceIP p) /\ is_Some (PacketData.destIP p)
  /\ length v = 1 + length protocols + 1 + 2.
Proof.
  unfold extract, extractIPFeatures.
  destruct (PacketData.sourceIP p), (PacketData.destIP p); try discriminate.
  intros [= <-]. split; [eauto|split; [eauto|reflexivity]].
Qed.

(** C6 (the claim fails).  The record the parser emits for the line
    ["length 100"] has no source address, and [extract] throws on it. *)
Lemma extract_throws_without_address :
  exists p,
    NetworkTap.processLine 0 "length 100" = Some p
    /\ PacketData.sourceIP p = None
    /\ extract NumberDec getHoursUTC p
       = Err "TypeError: Cannot read properties of undefined (reading 'split')".
Proof. eexists. repeat split. Qed.

(** C6 (amended).  [extract] is a function of the packet (and of the
    platform's [Number] and [getHours]).  On every packet that carries a
    source and a destination address, as the type [PacketData] requires, it
    returns a vector, whatever the other fields hold; all the vectors it
    returns have one and the same length; on a packet that lacks an
    address it throws a TypeError. *)
Theorem extract_fixed_length
  (Number : string -> float) (getHours : Z -> float) (p : PacketData.t)
  (src dst : string) :
  PacketData.sourceIP p = Some src ->
  PacketData.destIP p = Some dst ->
  (exists v, extract Number getHours p = Ok v)
  /\ (forall q v w, extract Number getHours p = Ok v ->
        extract Number getHours q = Ok w -> length w = length v)
  /\ (forall q, PacketData.sourceIP q = None \/ PacketData.destIP q = None ->
        extract Number getHours q
        = Err "TypeError: Cannot read properties of undefined (reading 'split')").
Proof.
  intros Hs Hd. split; [|split].
  - unfold extract, extractIPFeatures. rewrite Hs, Hd. eauto.
  - intros q v w Hv Hw.
    apply extract_Ok_inv in Hv as (_ & _ & ->).
    now apply extract_Ok_inv in Hw as (_ & _ & ->).
  - intros q [H|H]; unfold extract, extractIPFeatures; rewrite H; auto.
    destruct (PacketData.sourceIP q); reflexivity.
Qed.

(** A full-size TCP packet with both addresses. *)
Lemma extract_fixed_length_witness :
  let p := PacketData.mk (Some 1700000000000%Z) (Some "10.0.0.5")
             (Some "10.0.0.9") (Some "TCP") (Some 1500%N) (Some 4000%N)
             (Some 80%N) (Some "S") None None None in
  (exists v, extract NumberDec getHoursUTC p = Ok v)
  /\ (forall q v w, extract NumberDec getHoursUTC p = Ok v ->
        extract NumberDec getHoursUTC q = Ok w -> length w = length v)
  /\ (forall q, PacketData.sourceIP q = None \/ PacketData.destIP q = None ->
        extract NumberDec getHoursUTC q
        = Err "TypeError: Cannot read properties of undefined (reading 'split')").
Proof.
  apply (extract_fixed_length NumberDec getHoursUTC _ "10.0.0.5" "10.0.0.9");
    reflexivity.
Defined.

(** The features of that packet: full-size TCP, 22h UTC, octet sums 15
    and 19 over 1020. *)
Example extract_example :
  extract NumberDec getHoursUTC
    (PacketData.mk (Some 1700000000000%Z) (Some "10.0.0.5")
       (Some "10.0.0.9") (Some "TCP") (Some 1500%N) (Some 4000%N)
       (Some 80%N) (Some "S") None None None)
  = Ok [1; 1; 0; 0; 0; 0; 22 / 24; 15 / 1020; 19 / 1020]%float.
Proof. vm_compute. reflexivity. Qed.

(** Handed a feature array instead of a packet, [detectAnomaly] throws
    before the scoring service is called: an array has no [sourceIP]. *)
Lemma detectAnomaly_on_array Number getHours predict fs :
  AnomalyDetector.detectAnomaly Number getHours predict (array_as_packet fs)
  = Err "TypeError: Cannot read properties of undefined (reading 'split')".
Proof. reflexivity. Qed.

End ExtractorFacts.

Section TrainFacts.
Import AnomalyDetector.

(** C7.  While a [train] call is in flight, another [train] call fails at
    once with "Training already in progress" and leaves the scorer as it
    was: whatever happens next (the call in flight settling, further
    calls), it happens as if the rejected call had not been made, and no
    last-trained time is recorded by the rejected call.  A call whose
    request fails surfaces that error, emits nothing and records no time;
    a call whose request succeeds records the time and emits
    [trainingComplete] with the response. *)
Theorem train_single_flight (st : state) (epochs : option Z) :
  isTraining st = true ->
  train_begin epochs st = (Err "Training already in progress", st)
  /\ (forall trace,
        run (Call epochs :: trace) st
        = (Rejected "Training already in progress" :: fst (run trace st),
           snd (run trace st)))
  /\ lastTrainingTime (snd (train_begin epochs st)) = lastTrainingTime st
  /\ (forall e now,
        fst (train_end (Err e) now st) = Err e
        /\ events (snd (train_end (Err e) now st)) = events st
        /\ lastTrainingTime (snd (train_end (Err e) now st))
           = lastTrainingTime st
        /\ isTraining (snd (train_end (Err e) now st)) = false)
  /\ (forall data now,
        fst (train_end (Ok data) now st) = Ok tt
        /\ events (snd (train_end (Ok data) now st))
           = events st ++ [TrainingComplete data]
        /\ lastTrainingTime (snd (train_end (Ok data) now st)) = now
        /\ isTraining (snd (train_end (Ok data) now st)) = false).
Proof.
  intros H. unfold train_begin. rewrite H.
  split; [reflexivity|]. split; [|repeat split].
  intros trace. cbn [run step]. unfold train_begin. rewrite H.
  now destruct (run trace st).
Qed.

(** The scorer after a first [train()] on a fresh instance: a second call
    is rejected, and the first one then completes. *)
Lemma train_single_flight_witness :
  let st := snd (train_begin None initial) in
  train_begin (Some 10%Z) st = (Err "Training already in progress", st)
  /\ run [Call (Some 10%Z); Settle (Ok "{}") 1700000000000] st
     = ([Rejected "Training already in progress"; Resolved],
        {| isTraining := false; lastTrainingTime := 1700000000000;
           events := [TrainingComplete "{}"] |}).
Proof.
  destruct (train_single_flight (snd (train_begin None initial)) (Some 10%Z)
              eq_refl) as (H1 & H2 & _).
  split; [exact H1|].
  exact (H2 [Settle (Ok "{}") 1700000000000%Z]).
Defined.

(** A first call on an idle scorer is accepted and sends the request. *)
Lemma train_begin_idle (st : state) (epochs : option Z) :
  isTraining st = false ->
  fst (train_begin epochs st) = Ok (default 50%Z epochs)
  /\ isTraining (snd (train_begin epochs st)) = true.
Proof.
  intros H. unfold train_begin. rewrite H. destruct epochs; auto.
Qed.

End TrainFacts.

(** ** The policy manager *)

Section ManagerFacts.
Import RouterManager.
Context {Device : Type}.
Variable session_set : Device -> list Varbind -> option string * Device.
Variable session_get : Device -> list string -> result (list Value) * Device.
Variable writeFile_ok : gmap string NetworkPolicy -> bool.

Abbreviation snmpSet := (snmpSet Device session_set).
Abbreviation applyRules := (applyRules Device session_set).
Abbreviation applyPolicy := (applyPolicy Device session_set writeFile_ok).
Abbreviation firstRefused := (firstRefused Device session_set).
Abbreviation sentAll := (sentAll Device session_set).
Abbreviation getStats := (getStats Device session_get).
Abbreviation connect := (connect Device session_get).
Abbreviation fire := (fire Device session_get).
Abbreviation attempts := (attempts Device session_get).

(** What [handleConnectionError] changes. *)
Lemma handleConnectionError_spec (st : state Device) :
  let st' := handleConnectionError st in
  isConnected st' = false
  /\ reconnectAttempts st' = S (reconnectAttempts st)
  /\ (reconnectAttempts st' <= 5 ->
      timers st' = timers st ++ [retryTimer] /\ events st' = events st)
  /\ (5 < reconnectAttempts st' ->
      timers st' = timers st /\ events st' = events st ++ [exhausted])
  /\ session st' = session st /\ policies st' = policies st
  /\ wire st' = wire st /\ device st' = device st /\ disk st' = disk st.
Proof.
  unfold handleConnectionError; cbn [reconnectAttempts with_connection].
  destruct (Nat.leb_spec (S (reconnectAttempts st)) maxReconnectAttempts)
    as [H|H]; unfold maxReconnectAttempts in H; simpl;
    repeat split; auto; intros; lia.
Qed.

Lemma sentAll_fields ws : forall st : state Device,
  wire (sentAll ws st) = wire st ++ map Set_ ws
  /\ isConnected (sentAll ws st) = isConnected st
  /\ reconnectAttempts (sentAll ws st) = reconnectAttempts st
  /\ policies (sentAll ws st) = policies st
  /\ events (sentAll ws st) = events st
  /\ timers (sentAll ws st) = timers st
  /\ disk (sentAll ws st) = disk st
  /\ session (sentAll ws st) = session st.
Proof.
  induction ws as [|w ws IH]; intros st; simpl.
  - rewrite app_nil_r. repeat split.
  - destruct (IH (sent (Set_ w) (snd (session_set (device st) w)) st))
      as (-> & -> & -> & -> & -> & -> & -> & ->).
    simpl. rewrite <- app_assoc. repeat split.
Qed.

(** The loop of [applyPolicy] sends the writes in order and stops at the
    first one the device refuses. *)
Lemma applyRules_spec rs : forall st : state Device,
  isConnected st = true ->
  match firstRefused (device st) (map generatePolicyOids rs) with
  | Some k =>
      k < length rs
      /\ exists e,
        applyRules rs st
        = (Err e, handleConnectionError
                    (sentAll (map generatePolicyOids (firstn (S k) rs)) st))
  | None =>
      applyRules rs st = (Ok tt, sentAll (map generatePolicyOids rs) st)
  end.
Proof.
  induction rs as [|r rs IH]; intros st Hc; [reflexivity|].
  cbn [map RouterManager.firstRefused RouterManager.applyRules].
  unfold RouterManager.snmpSet. rewrite Hc. cbn [negb].
  destruct (session_set (device st) (generatePolicyOids r)) as [[e|] d] eqn:E.
  - split; [simpl; lia|]. exists e. simpl.
    unfold RouterManager.sentAll; simpl. rewrite E. reflexivity.
  - specialize (IH (sent (Set_ (generatePolicyOids r)) d st) Hc).
    cbn [device sent] in IH.
    assert (Hs : forall ws,
      sentAll (generatePolicyOids r :: ws) st
      = sentAll ws (sent (Set_ (generatePolicyOids r)) d st)).
    { intros ws. unfold RouterManager.sentAll at 1. simpl.
      rewrite E. reflexivity. }
    destruct (firstRefused d (map generatePolicyOids rs)) as [k|]; simpl.
    + destruct IH as (Hk & e & ->). split; [lia|]. exists e.
      rewrite <- Hs. reflexivity.
    + rewrite IH, <- Hs. reflexivity.
Qed.

(** C1.  On a connected manager, [applyPolicy] sends one write per rule,
    in the order of the rules.  If the device refuses the write of rule
    [k] (counting from 0), the writes of the rules before it and that write
    are exactly what was sent, in order, and nothing after it (no later
    rule, no compensating write); the call fails; the policy store and the
    policy file are untouched and no [policyApplied] is emitted.  If the
    device accepts every write, the policy is stored under its identifier;
    then, if the file is written, the file holds the store, the call
    succeeds and [policyApplied] is the last event; if writing the file
    fails, the call fails without that event.  So the call succeeds only
    if every write was accepted, and then the policy is in the store and
    in the file when it returns. *)
Theorem applyPolicy_in_rule_order (policy : NetworkPolicy) (st : state Device) :
  isConnected st = true ->
  let ws := map generatePolicyOids (rules policy) in
  let r := fst (applyPolicy policy st) in
  let st' := snd (applyPolicy policy st) in
  (match firstRefused (device st) ws with
  | Some k =>
      k < length (rules policy)
      /\ r = Err "Failed to apply network policy"
      /\ wire st' = wire st ++ map Set_ (firstn (S k) ws)
      /\ device st' = device (sentAll (firstn (S k) ws) st)
      /\ policies st' = policies st
      /\ disk st' = disk st
      /\ (events st' = events st \/ events st' = events st ++ [exhausted])
  | None =>
      wire st' = wire st ++ map Set_ ws
      /\ device st' = device (sentAll ws st)
      /\ policies st' = <[id policy := policy]> (policies st)
      /\ if writeFile_ok (policies st')
         then r = Ok tt /\ disk st' = Some (policies st')
              /\ events st' = events st ++ [PolicyApplied policy]
         else r = Err "Failed to apply network policy"
              /\ disk st' = disk st /\ events st' = events st
   end)
  /\ (fst (applyPolicy policy st) = Ok tt ->
      firstRefused (device st) (map generatePolicyOids (rules policy)) = None
      /\ policies (snd (applyPolicy policy st)) !! id policy = Some policy
      /\ disk (snd (applyPolicy policy st))
         = Some (policies (snd (applyPolicy policy st)))).
Proof.
  intros Hc ws r st'. subst ws r st'.
  match goal with |- ?A /\ _ => assert (H0 : A) end.
  { pose proof (applyRules_spec (rules policy) st Hc) as H.
    unfold RouterManager.applyPolicy. rewrite Hc. cbn [negb].
    destruct (firstRefused (device st) (map generatePolicyOids (rules policy)))
      as [k|].
    - destruct H as (Hk & e & ->). cbn [fst snd].
      rewrite firstn_map.
      set (s1 := sentAll (map generatePolicyOids (firstn (S k) (rules policy))) st).
      destruct (handleConnectionError_spec s1)
        as (_ & Hn & Hle & Hgt & _ & Hp & Hw & Hd & Hk').
      destruct (sentAll_fields
                  (map generatePolicyOids (firstn (S k) (rules policy))) st)
        as (Hw1 & _ & _ & Hp1 & He1 & _ & Hk1 & _).
      fold s1 in Hw1, Hp1, He1, Hk1.
      split; [exact Hk|]. split; [reflexivity|].
      split; [congruence|]. split; [exact Hd|].
      split; [congruence|]. split; [congruence|].
      destruct (Nat.le_gt_cases (reconnectAttempts (handleConnectionError s1)) 5)
        as [L|L].
      + left. destruct (Hle L). congruence.
      + right. destruct (Hgt L). congruence.
    - rewrite H. cbn [fst snd].
      destruct (sentAll_fields (map generatePolicyOids (rules policy)) st)
        as (Hw1 & _ & _ & Hp1 & He1 & _ & Hk1 & _).
      unfold RouterManager.savePolicies. cbn [policies with_policies].
      rewrite Hp1.
      destruct (writeFile_ok (<[id policy:=policy]> (policies st))) eqn:Hf;
      cbn; rewrite ?Hf; repeat split; congruence. }
  split; [exact H0|]. intros Hok.
  destruct (firstRefused (device st) (map generatePolicyOids (rules policy))).
  - destruct H0 as (_ & H & _). congruence.
  - destruct H0 as (_ & _ & Hp & H). split; [reflexivity|].
    destruct (writeFile_ok _).
    + destruct H as (_ & Hd & _). rewrite Hd, Hp.
      now rewrite lookup_insert_eq.
    + destruct H as (H & _). congruence.
Qed.

(** A manager that is not connected sends nothing. *)
Lemma applyPolicy_not_connected (policy : NetworkPolicy) (st : state Device) :
  isConnected st = false ->
  applyPolicy policy st = (Err "Failed to apply network policy", st).
Proof. intros H. unfold RouterManager.applyPolicy. now rewrite H. Qed.

(** [connect] on a manager that is not connected: [getStats] goes through
    [snmpGet], which rejects while [isConnected] is false. *)
Lemma connect_disconnected (st : state Device) :
  isConnected st = false ->
  connect st = handleConnectionError (with_session true st).
Proof.
  intros H. unfold RouterManager.connect, RouterManager.getStats,
    RouterManager.snmpGet. rewrite H. cbn. rewrite H. reflexivity.
Qed.

Lemma fire_idle (st : state Device) : timers st = [] -> fire st = st.
Proof. intros H. unfold RouterManager.fire. now rewrite H. Qed.

(** The event loop runs a pending reconnection of a disconnected manager. *)
Lemma fire_pending (st : state Device) :
  isConnected st = false -> timers st = [retryTimer] ->
  let st' := fire st in
  isConnected st' = false
  /\ reconnectAttempts st' = S (reconnectAttempts st)
  /\ (reconnectAttempts st' <= 5 ->
      timers st' = [retryTimer] /\ events st' = events st)
  /\ (5 < reconnectAttempts st' ->
      timers st' = [] /\ events st' = events st ++ [exhausted]).
Proof.
  intros Hc Ht. unfold RouterManager.fire. rewrite Ht. cbn.
  rewrite connect_disconnected by exact Hc.
  destruct (handleConnectionError_spec (with_session true (with_timers [] st)))
    as (H1 & H2 & H3 & H4 & _).
  cbn in *. split; [exact H1|]. split; [exact H2|].
  split; intros L; [apply (H3 L)|apply (H4 L)].
Qed.

(** After the caller's [connect()] and [n <= 4] automatic attempts on a
    manager that starts disconnected with a counter of 0: [n + 1] failures,
    a counter of [n + 1], one reconnection pending, no error event. *)
Lemma attempts_pending (st : state Device) n :
  isConnected st = false -> reconnectAttempts st = 0 -> timers st = [] ->
  n <= 4 ->
  isConnected (attempts n st) = false
  /\ reconnectAttempts (attempts n st) = S n
  /\ timers (attempts n st) = [retryTimer]
  /\ events (attempts n st) = events st.
Proof.
  intros Hc Hn Ht. induction n as [|n IH]; intros Hle.
  - unfold RouterManager.attempts. cbn [Nat.iter].
    rewrite connect_disconnected by exact Hc.
    destruct (handleConnectionError_spec (with_session true st))
      as (H1 & H2 & H3 & _). cbn in *. rewrite Hn in H2.
    destruct H3 as [H3 H3']; [lia|]. rewrite Ht in H3. auto.
  - destruct IH as (I1 & I2 & I3 & I4); [lia|].
    unfold RouterManager.attempts in *. rewrite Nat.iter_succ.
    destruct (fire_pending _ I1 I3) as (F1 & F2 & F3 & _).
    rewrite I2 in F2. destruct F3 as [F3 F3']; [lia|].
    repeat split; auto; congruence.
Qed.

End ManagerFacts.

Section ManagerClaims.
Import RouterManager Scenario.

(** The writes of the three rules of the example policy. *)
Example generatePolicyOids_rules :
  map generatePolicyOids (rules policy3)
  = [ [ Build_Varbind "1.3.6.1.2.1.4.20.1.1" OctetString (VString "10.0.0.5");
        Build_Varbind "1.3.6.1.2.1.4.21.1.9" Integer (VNumber 6);
        Build_Varbind "1.3.6.1.2.1.6.13.1.3" Integer (VNumber 22);
        Build_Varbind "1.3.6.1.2.1.4.21.1.13" Integer (VNumber 2) ];
      [ Build_Varbind "1.3.6.1.2.1.4.20.1.2" OctetString (VString "10.0.0.9");
        Build_Varbind "1.3.6.1.2.1.4.21.1.13" Integer (VNumber 3) ];
      [ Build_Varbind "1.3.6.1.2.1.4.21.1.9" Integer (VNumber 1);
        Build_Varbind "1.3.6.1.2.1.4.21.1.13" Integer (VNumber 1) ] ].
Proof. vm_compute. reflexivity. Qed.

(** The device refuses the write of the second rule: two writes were sent,
    the call failed, nothing was stored, a reconnection is pending. *)
Lemma applyPolicy_in_rule_order_witness :
  let run := applyPolicy nat refuseSecond (fun _ => true) policy3 online in
  fst run = Err "Failed to apply network policy"
  /\ wire (snd run)
     = wire online
       ++ map Set_ (firstn 2 (map generatePolicyOids (rules policy3)))
  /\ policies (snd run) = policies online
  /\ disk (snd run) = disk online.
Proof.
  pose proof (applyPolicy_in_rule_order refuseSecond (fun _ => true)
                policy3 online eq_refl) as H.
  cbv zeta in H. destruct H as [H _].
  change (firstRefused nat refuseSecond (device online)
            (map generatePolicyOids (rules policy3))) with (Some 1) in H.
  cbv beta iota in H.
  destruct H as (_ & Hr & Hw & _ & Hp & Hd & _).
  exact (conj Hr (conj Hw (conj Hp Hd))).
Defined.

(** The device accepts the three writes and the file is written. *)
Example applyPolicy_accepted :
  let run := applyPolicy nat acceptAll (fun _ => true) policy3 online in
  fst run = Ok tt
  /\ wire (snd run) = map Set_ (map generatePolicyOids (rules policy3))
  /\ policies (snd run) !! "p-1" = Some policy3
  /\ disk (snd run) = Some (policies (snd run))
  /\ events (snd run) = [PolicyApplied policy3].
Proof.
  cbv zeta. split; [reflexivity|]. split; [reflexivity|].
  split; [apply lookup_insert_eq|]. split; reflexivity.
Qed.

(** C2 (the claim fails).  After exactly five consecutive failures (the
    caller's [connect()] and four automatic attempts) the counter is 5, a
    sixth attempt is pending and no error event has been emitted; the
    terminal error is emitted when that sixth attempt fails. *)
Lemma sixth_attempt_after_five_failures :
  let st5 := attempts nat noAnswer 4 offline in
  let st6 := fire nat noAnswer st5 in
  reconnectAttempts st5 = 5
  /\ timers st5 = [retryTimer]
  /\ events st5 = []
  /\ reconnectAttempts st6 = 6
  /\ timers st6 = []
  /\ events st6 = [exhausted].
Proof. cbv zeta. repeat split. Qed.

End ManagerClaims.

Section ReconnectClaims.
Import RouterManager.
Context {Device : Type}.
Variable session_get : Device -> list string -> result (list Value) * Device.

Abbreviation attempts_ := (attempts Device session_get).

Lemma attempts_sixth (st : state Device) :
  isConnected st = false -> reconnectAttempts st = 0 -> timers st = [] ->
  isConnected (attempts_ 5 st) = false
  /\ reconnectAttempts (attempts_ 5 st) = 6
  /\ timers (attempts_ 5 st) = []
  /\ events (attempts_ 5 st) = events st ++ [exhausted].
Proof.
  intros Hc Hn Ht.
  destruct (attempts_pending session_get st 4 Hc Hn Ht (le_n 4))
    as (I1 & I2 & I3 & I4).
  change (attempts_ 5 st) with (fire Device session_get (attempts_ 4 st)).
  destruct (fire_pending session_get _ I1 I3) as (F1 & F2 & _ & F4).
  rewrite I2 in F2. destruct F4 as [F4 F4']; [lia|].
  repeat split; auto; congruence.
Qed.

Lemma attempts_stable (st : state Device) n :
  isConnected st = false -> reconnectAttempts st = 0 -> timers st = [] ->
  5 <= n -> attempts_ n st = attempts_ 5 st.
Proof.
  intros Hc Hn Ht Hle. induction Hle as [|n Hle IH]; [reflexivity|].
  destruct (attempts_sixth st Hc Hn Ht) as (_ & _ & Hidle & _).
  unfold RouterManager.attempts in *. rewrite Nat.iter_succ, IH.
  now apply fire_idle.
Qed.

(** C2 (amended).  Each connection failure increments the counter; while
    the counter is at most 5 another [connect] is scheduled after 5000 ms
    and no error is emitted; once it exceeds 5 nothing is scheduled and
    the terminal error is emitted.  So, on a manager that starts
    disconnected with a counter of 0: after each of the first five
    consecutive failures one attempt is pending and no terminal error has
    been emitted; the sixth attempt does occur; after the sixth
    consecutive failure nothing is pending, the terminal error has been
    emitted exactly once, and the event loop changes nothing any more.  The
    statements that follow a successful verification call reset the
    counter to 0. *)
Theorem reconnect_policy (st : state Device) :
  isConnected st = false -> reconnectAttempts st = 0 -> timers st = [] ->
  (forall s : state Device,
      let s' := handleConnectionError s in
      reconnectAttempts s' = S (reconnectAttempts s)
      /\ (reconnectAttempts s' <= maxReconnectAttempts ->
          timers s' = timers s ++ [retryTimer] /\ events s' = events s)
      /\ (maxReconnectAttempts < reconnectAttempts s' ->
          timers s' = timers s /\ events s' = events s ++ [exhausted]))
  /\ delay retryTimer = 5000%Z
  /\ (forall n, n <= 4 ->
        reconnectAttempts (attempts_ n st) = S n
        /\ timers (attempts_ n st) = [retryTimer]
        /\ events (attempts_ n st) = events st)
  /\ (reconnectAttempts (attempts_ 5 st) = 6
      /\ timers (attempts_ 5 st) = []
      /\ events (attempts_ 5 st) = events st ++ [exhausted])
  /\ (forall n, 5 <= n -> attempts_ n st = attempts_ 5 st)
  /\ (forall s : state Device,
        reconnectAttempts (connected s) = 0 /\ isConnected (connected s) = true).
Proof.
  intros Hc Hn Ht. split; [|split; [reflexivity|split; [|split; [|split]]]].
  - intros s. destruct (handleConnectionError_spec s) as (_ & H1 & H2 & H3 & _).
    cbv zeta. unfold maxReconnectAttempts. auto.
  - intros n Hle.
    now destruct (attempts_pending session_get st n Hc Hn Ht Hle)
      as (_ & ? & ? & ?).
  - now destruct (attempts_sixth st Hc Hn Ht) as (_ & ? & ? & ?).
  - intros n Hle. now apply attempts_stable.
  - intros s. split; reflexivity.
Qed.

End ReconnectClaims.

Section ReconnectWitness.
Import RouterManager Scenario.

(** A manager just constructed, facing a device that never answers. *)
Lemma reconnect_policy_witness :
  (forall n, n <= 4 ->
     reconnectAttempts (attempts nat noAnswer n offline) = S n
     /\ timers (attempts nat noAnswer n offline) = [retryTimer]
     /\ events (attempts nat noAnswer n offline) = events offline)
  /\ (reconnectAttempts (attempts nat noAnswer 5 offline) = 6
      /\ timers (attempts nat noAnswer 5 offline) = []
      /\ events (attempts nat noAnswer 5 offline) = events offline ++ [exhausted])
  /\ (forall n, 5 <= n ->
      attempts nat noAnswer n offline = attempts nat noAnswer 5 offline).
Proof.
  pose proof (reconnect_policy noAnswer offline eq_refl eq_refl eq_refl) as H.
  destruct H as (_ & _ & H1 & H2 & H3 & _).
  exact (conj H1 (conj H2 H3)).
Defined.

(** Whatever the device would answer, [connect] on a disconnected manager
    takes the failure path: the verification call is rejected by the
    guard of [snmpGet] before a request is sent. *)
Example connect_never_reads :
  connect nat sixCounters offline
  = handleConnectionError (with_session true offline)
  /\ wire (connect nat sixCounters offline) = [].
Proof. split; reflexivity. Qed.

End ReconnectWitness.

(** ** The orchestrator *)

Section OrchestratorFacts.
Import NetworkOrchestrator.
Context {Device : Type}.
Variable session_get :
  Device -> list string -> result (list RouterManager.Value) * Device.

Abbreviation getStats_ := (RouterManager.getStats Device session_get).
Abbreviation handleAnomaly_ := (handleAnomaly Device session_get).

(** The response leaves the orchestrator as it is, and returns normally
    only when no action is selected: both actions are calls of methods
    the policy manager does not have. *)
Lemma respond_outcome (a : anomaly) (st : state Device) :
  snd (respond Device a st) = st
  /\ (fst (respond Device a st) = Ok tt <->
      (0.9 <? confidence a)%float = false
      /\ (0.8 <? confidence a)%float = false).
Proof.
  unfold respond, doBlockIP, doSetBandwidthLimit.
  destruct (0.9 <? confidence a)%float; cbn [fst snd].
  - split; [reflexivity|]. split; [discriminate|intros [H _]; discriminate].
  - destruct (0.8 <? confidence a)%float; cbn [fst snd].
    + split; [reflexivity|].
      split; [discriminate|intros [_ H]; discriminate].
    + split; [reflexivity|]. split; auto.
Qed.

(** [handleAnomaly] by cases on the stats fetch: after a failed fetch the
    error is logged; after a successful one either the response throws and
    that error is logged, or the event is emitted with the stats. *)
Lemma handleAnomaly_cases (a : anomaly) (st : state Device) :
  let s1 := log Device (AnomalyDetected a) st in
  match getStats_ (routerManager st) with
  | (Err e, rm) =>
      handleAnomaly_ a st
      = log Device (ErrorHandlingAnomaly e) (with_router Device rm s1)
  | (Ok stats, rm) =>
      (exists e,
         handleAnomaly_ a st
         = log Device (ErrorHandlingAnomaly e) (with_router Device rm s1)
         /\ ((0.9 <? confidence a)%float = true
             \/ (0.8 <? confidence a)%float = true))
      \/ (handleAnomaly_ a st
          = emit Device (Anomaly a stats) (with_router Device rm s1)
          /\ (0.9 <? confidence a)%float = false
          /\ (0.8 <? confidence a)%float = false)
  end.
Proof.
  cbv zeta. unfold NetworkOrchestrator.handleAnomaly.
  cbn [routerManager log].
  destruct (getStats_ (routerManager st)) as [[stats|e] rm]; [|reflexivity].
  set (s1 := with_router Device rm (log Device (AnomalyDetected a) st)).
  destruct (respond_outcome a s1) as [Hs Hok].
  destruct (respond Device a s1) as [[[]|e] s2] eqn:Er; cbn [fst snd] in *;
    subst s2.
  - right. split; [reflexivity|]. now apply Hok.
  - left. exists e. split; [reflexivity|].
    destruct (0.9 <? confidence a)%float; [now left|].
    destruct (0.8 <? confidence a)%float; [now right|].
    destruct Hok as [_ Hok]. discriminate (Hok (conj eq_refl eq_refl)).
Qed.

(** C9 (amended).  The stats fetch of [handleAnomaly] is not best-effort:
    it is awaited first, inside the [try] block that also holds the
    response and the event.  When it fails, for an anomaly of any
    confidence, no response action is attempted and no anomaly event is
    emitted: the orchestrator is left as the failed fetch left its policy
    manager, with two more lines on the console, the anomaly and the error
    of the fetch. *)
Theorem handleAnomaly_stats_failure
  (a : anomaly) (st : state Device) (e : string)
  (rm : RouterManager.state Device) :
  getStats_ (routerManager st) = (Err e, rm) ->
  let st' := handleAnomaly_ a st in
  st' = log Device (ErrorHandlingAnomaly e)
          (with_router Device rm (log Device (AnomalyDetected a) st))
  /\ routerManager st' = rm
  /\ events st' = events st
  /\ console st' = console st ++ [AnomalyDetected a; ErrorHandlingAnomaly e]
  /\ isRunning st' = isRunning st
  /\ anomalyThreshold st' = anomalyThreshold st.
Proof.
  intros Hg. cbv zeta.
  pose proof (handleAnomaly_cases a st) as H. cbv zeta in H.
  rewrite Hg in H. rewrite H. cbn.
  rewrite <- app_assoc. repeat split.
Qed.

(** An anomaly event is emitted only after a successful stats fetch, and
    carries the stats fetched. *)
Lemma handleAnomaly_event (a : anomaly) (st : state Device) :
  events (handleAnomaly_ a st) = events st
  \/ exists stats rm,
       getStats_ (routerManager st) = (Ok stats, rm)
       /\ events (handleAnomaly_ a st) = events st ++ [Anomaly a stats].
Proof.
  pose proof (handleAnomaly_cases a st) as H. cbv zeta in H.
  destruct (getStats_ (routerManager st)) as [[stats|e] rm].
  - destruct H as [(e & -> & _)|(-> & _)]; [now left|].
    right. exists stats, rm. auto.
  - rewrite H. now left.
Qed.

(** [handleAnomaly] logs the anomaly before anything else. *)
Lemma handleAnomaly_logged (a : anomaly) (st : state Device) :
  exists rest,
    console (handleAnomaly_ a st) = console st ++ AnomalyDetected a :: rest.
Proof.
  pose proof (handleAnomaly_cases a st) as H. cbv zeta in H.
  destruct (getStats_ (routerManager st)) as [[stats|e] rm].
  - destruct H as [(e & -> & _)|(-> & _)]; cbn.
    + rewrite <- app_assoc. eauto.
    + eauto.
  - rewrite H. cbn. rewrite <- app_assoc. eauto.
Qed.

End OrchestratorFacts.

Section OrchestratorClaims.
Import NetworkOrchestrator.
Context {Device : Type}.
Variable session_get :
  Device -> list string -> result (list RouterManager.Value) * Device.
Variable Number : string -> float.
Variable getHours : Z -> float.
Variable predict :
  list float -> result AnomalyDetector.AnomalyDetectionResult.

(** The packet listener never obtains a score, whatever the packet, the
    orchestrator and the scoring service: either the extraction throws on
    the packet, or [detectAnomaly] throws on the feature array.  One line
    goes to the console and nothing else changes. *)
Lemma packetHandler_throws (p : PacketData.t) (st : state Device) :
  packetHandler Device session_get Number getHours predict p st
  = log Device
      (ErrorProcessingPacket
         "TypeError: Cannot read properties of undefined (reading 'split')") st.
Proof.
  unfold packetHandler, NetworkOrchestrator.handlePacket.
  destruct (AnomalyDetector.extractFeatures Number getHours p) as [fs|e] eqn:E.
  - reflexivity.
  - unfold AnomalyDetector.extractFeatures, FeatureExtractor.extract,
      FeatureExtractor.extractIPFeatures in E.
    destruct (PacketData.sourceIP p), (PacketData.destIP p);
      try discriminate; now inversion E.
Qed.

End OrchestratorClaims.

Section OrchestratorWitness.
Import NetworkOrchestrator OrchestratorScenario.

(** C9 (the claim fails).  A newly built orchestrator, whose policy
    manager is not connected, handles an anomaly of confidence 0.95 and
    one of confidence 0.85, both above the threshold.  The stats fetch
    fails, although the device would answer; nothing is sent to the
    device, no response action is attempted and no event is emitted: the
    orchestrator ends as it started, with the anomaly and the error of the
    fetch on the console. *)
Lemma stats_failure_blocks_response :
  let high := {| packet := pkt; features := fs; confidence := 0.95 |} in
  let medium := {| packet := pkt; features := fs; confidence := 0.85 |} in
  let fetch := RouterManager.getStats nat Scenario.sixCounters in
  let handle := handleAnomaly nat Scenario.sixCounters in
  (anomalyThreshold built <=? 0.85)%float = true
  /\ (0.9 <? 0.95)%float = true /\ (0.8 <? 0.85)%float = true
  /\ fetch (routerManager built)
     = (Err "Failed to get router statistics", routerManager built)
  /\ handle high built
     = log nat (ErrorHandlingAnomaly "Failed to get router statistics")
         (log nat (AnomalyDetected high) built)
  /\ handle medium built
     = log nat (ErrorHandlingAnomaly "Failed to get router statistics")
         (log nat (AnomalyDetected medium) built)
  /\ events (handle high built) = []
  /\ events (handle medium built) = []
  /\ RouterManager.wire (routerManager (handle high built)) = []
  /\ RouterManager.wire (routerManager (handle medium built)) = [].
Proof. cbv zeta. repeat split. Qed.

(** The same orchestrator and an anomaly of confidence 0.95. *)
Lemma handleAnomaly_stats_failure_witness :
  let high := {| packet := pkt; features := fs; confidence := 0.95 |} in
  let st' := handleAnomaly nat Scenario.sixCounters high built in
  routerManager st' = routerManager built
  /\ events st' = []
  /\ console st'
     = [AnomalyDetected high;
        ErrorHandlingAnomaly "Failed to get router statistics"].
Proof.
  intros high st'.
  destruct (handleAnomaly_stats_failure Scenario.sixCounters high built
              "Failed to get router statistics" (routerManager built)
              eq_refl) as (_ & H1 & H2 & H3 & _).
  exact (conj H1 (conj H2 H3)).
Defined.

(** C10 (the code diverges).  A newly built orchestrator with the default
    threshold receives a well-formed packet, and the scoring service
    would answer any request with an anomaly of confidence exactly 0.8.
    The features of the packet are extracted, but [handlePacket] hands
    them, not the packet, to [detectAnomaly], which throws before the
    service is asked: the anomaly handling is not triggered and no anomaly
    event is emitted; the console gets the error and nothing else
    changes. *)
Theorem threshold_packet_not_scored :
  let service := mlService 0.8 in
  let handler :=
    packetHandler nat Scenario.sixCounters FeatureExtractor.NumberDec
      FeatureExtractor.getHoursUTC service in
  let thrown :=
    "TypeError: Cannot read properties of undefined (reading 'split')" in
  anomalyThreshold built = 0.8%float
  /\ extractFeatures pkt = Ok fs
  /\ service fs
     = Ok {| AnomalyDetector.isAnomaly := true;
             AnomalyDetector.confidence := 0.8;
             AnomalyDetector.type := "suspicious_traffic";
             AnomalyDetector.details := "" |}
  /\ AnomalyDetector.detectAnomaly FeatureExtractor.NumberDec
       FeatureExtractor.getHoursUTC service
       (FeatureExtractor.array_as_packet fs) = Err thrown
  /\ handler pkt built = log nat (ErrorProcessingPacket thrown) built
  /\ events (handler pkt built) = []
  /\ console (handler pkt built) = [ErrorProcessingPacket thrown]
  /\ routerManager (handler pkt built) = routerManager built.
Proof.
  cbv zeta.
  split; [reflexivity|]. split; [reflexivity|]. split; [reflexivity|].
  split; [reflexivity|].
  rewrite packetHandler_throws. repeat split.
Qed.

(** What the tiers would select had the stats been fetched: on a manager
    whose session is established and whose device answers, the response
    to a confidence above 0.8 is a call of a method the policy manager
    does not have, so the error is logged and no event is emitted; at
    exactly 0.8 no action is selected and the event is emitted. *)
Example response_tiers :
  let connected := create nat defaults Scenario.online in
  let anomaly c := {| packet := pkt; features := fs; confidence := c |} in
  let handle c :=
    handleAnomaly nat Scenario.sixCounters (anomaly c) connected in
  console (handle 0.95%float)
  = [AnomalyDetected (anomaly 0.95%float);
     ErrorHandlingAnomaly
       "TypeError: this.routerManager.blockIP is not a function"]
  /\ events (handle 0.95%float) = []
  /\ console (handle 0.85%float)
     = [AnomalyDetected (anomaly 0.85%float);
        ErrorHandlingAnomaly
          "TypeError: this.routerManager.setBandwidthLimit is not a function"]
  /\ events (handle 0.85%float) = []
  /\ console (handle 0.8%float) = [AnomalyDetected (anomaly 0.8%float)]
  /\ length (events (handle 0.8%float)) = 1.
Proof. cbv zeta. repeat split. Qed.

End OrchestratorWitness.

(** * Further properties *)

(** ** The policy manager: errors, invariants and sequences of calls *)

Section ManagerMore.
Import RouterManager ManagerOps.
Context {Device : Type}.
Variable session_set : Device -> list Varbind -> option string * Device.
Variable session_get : Device -> list string -> result (list Value) * Device.
Variable writeFile_ok : gmap string NetworkPolicy -> bool.

Abbreviation applyPolicy1 :=
  (RouterManager.applyPolicy Device session_set writeFile_ok).
Abbreviation getStats1 := (RouterManager.getStats Device session_get).
Abbreviation connect1 := (RouterManager.connect Device session_get).
Abbreviation fire1 := (RouterManager.fire Device session_get).
Abbreviation exec1 := (exec Device session_set session_get writeFile_ok).
Abbreviation execAll1 := (execAll Device session_set session_get writeFile_ok).

(** The loop of [applyPolicy] never touches the store or the file. *)
Lemma applyRules_keeps rs : forall st : state Device,
  policies (snd (RouterManager.applyRules Device session_set rs st)) = policies st
  /\ disk (snd (RouterManager.applyRules Device session_set rs st)) = disk st.
Proof.
  induction rs as [|r rs IH]; intros st; [auto|].
  cbn [RouterManager.applyRules]. unfold snmpSet.
  destruct (negb (isConnected st)); [auto|].
  destruct (session_set (device st) (generatePolicyOids r)) as [[e|] d].
  - cbn [snd]. destruct (handleConnectionError_spec
                           (sent (Set_ (generatePolicyOids r)) d st))
      as (_ & _ & _ & _ & _ & -> & _ & _ & ->). auto.
  - destruct (IH (sent (Set_ (generatePolicyOids r)) d st)) as [-> ->]. auto.
Qed.

(** An offline manager answers every call without sending anything. *)
Lemma offline_exec (o : op) (st : state Device) :
  isConnected st = false ->
  isConnected (exec1 o st) = false /\ wire (exec1 o st) = wire st
  /\ policies (exec1 o st) = policies st /\ disk (exec1 o st) = disk st.
Proof.
  intros H. destruct o; cbn [exec].
  - rewrite (connect_disconnected session_get st H).
    destruct (handleConnectionError_spec (with_session true st))
      as (? & _ & _ & _ & _ & ? & ? & _ & ?). auto.
  - unfold RouterManager.fire. destruct (timers st) as [|[ms []] ts]; [auto|].
    rewrite connect_disconnected by exact H.
    destruct (handleConnectionError_spec
                (with_session true (with_timers ts st)))
      as (? & _ & _ & _ & _ & ? & ? & _ & ?). auto.
  - rewrite (applyPolicy_not_connected session_set writeFile_ok policy st H).
    auto.
  - unfold RouterManager.getStats, snmpGet. rewrite H. auto.
  - unfold disconnect. destruct (session st); auto.
Qed.

Lemma offline_execAll (os : list op) : forall st : state Device,
  isConnected st = false ->
  isConnected (execAll1 os st) = false /\ wire (execAll1 os st) = wire st
  /\ policies (execAll1 os st) = policies st
  /\ disk (execAll1 os st) = disk st.
Proof.
  induction os as [|o os IH]; intros st H; [auto|].
  destruct (offline_exec o st H) as (H1 & <- & <- & <-).
  apply (IH _ H1).
Qed.

(** X1.  A manager built by the constructor never becomes connected and
    never sends a request to the device, whatever sequence of [connect],
    timer firings, [applyPolicy], [getStats] and [disconnect] follows: the
    verification call of [connect] is itself rejected by the connection
    guard of [snmpGet].  Its store and the policy file stay what the
    constructor found. *)
Theorem constructed_manager_stays_offline
  (d : Device) (file : option (gmap string NetworkPolicy)) (os : list op) :
  let st := execAll1 os (construct Device d file) in
  isConnected st = false
  /\ wire st = []
  /\ policies st = default ∅ file
  /\ disk st = file.
Proof. exact (offline_execAll os (construct Device d file) eq_refl). Qed.

(** What a successful [applyPolicy] leaves behind. *)
Lemma applyPolicy_Ok_inv (policy : NetworkPolicy) (st : state Device) :
  fst (applyPolicy1 policy st) = Ok tt ->
  policies (snd (applyPolicy1 policy st)) = <[id policy := policy]> (policies st)
  /\ disk (snd (applyPolicy1 policy st))
     = Some (policies (snd (applyPolicy1 policy st))).
Proof.
  unfold RouterManager.applyPolicy.
  destruct (negb (isConnected st)); [discriminate|].
  pose proof (applyRules_keeps (rules policy) st) as [Hp Hd].
  destruct (RouterManager.applyRules Device session_set (rules policy) st)
    as [[[]|e] s1]; [|discriminate].
  cbn [snd] in Hp, Hd. unfold savePolicies. cbn [policies with_policies].
  destruct (writeFile_ok (<[id policy:=policy]> (policies s1)));
    [|discriminate].
  intros _. cbn. now rewrite Hp.
Qed.

(** X2.  [applyPolicy] never removes or alters a policy stored under
    another identifier: whatever the outcome, the store is either
    unchanged or the old store with the policy put under its identifier. *)
Theorem applyPolicy_keeps_other_policies
  (policy : NetworkPolicy) (st : state Device) :
  let st' := snd (applyPolicy1 policy st) in
  (policies st' = policies st
   \/ policies st' = <[id policy := policy]> (policies st))
  /\ (forall k, k <> id policy -> policies st' !! k = policies st !! k)
  /\ (forall k, is_Some (policies st !! k) -> is_Some (policies st' !! k)).
Proof.
  cbv zeta.
  assert (H : policies (snd (applyPolicy1 policy st)) = policies st
              \/ policies (snd (applyPolicy1 policy st))
                 = <[id policy := policy]> (policies st)).
  { unfold RouterManager.applyPolicy.
    destruct (negb (isConnected st)); [now left|].
    pose proof (applyRules_keeps (rules policy) st) as [Hp Hd].
    destruct (RouterManager.applyRules Device session_set (rules policy) st)
      as [[[]|e] s1]; cbn [snd] in Hp, Hd; [|now left].
    right. unfold savePolicies. cbn [policies with_policies].
    destruct (writeFile_ok _); cbn; now rewrite Hp. }
  split; [exact H|]. split.
  - intros k Hk. destruct H as [->| ->]; [reflexivity|].
    now rewrite lookup_insert_ne.
  - intros k Hs. destruct H as [->| ->]; [exact Hs|].
    destruct (decide (id policy = k)) as [->|Hne].
    + rewrite lookup_insert_eq. eauto.
    + now rewrite lookup_insert_ne.
Qed.

(** X3.  Once the device has refused a write, the manager is offline: the
    failed call counted one connection failure, and every later
    [applyPolicy] or [getStats] fails at once, sends nothing and changes
    nothing. *)
Theorem applyPolicy_after_refusal
  (policy : NetworkPolicy) (st : state Device) (k : nat) :
  isConnected st = true ->
  RouterManager.firstRefused Device session_set (device st)
    (map generatePolicyOids (rules policy)) = Some k ->
  let st' := snd (applyPolicy1 policy st) in
  isConnected st' = false
  /\ reconnectAttempts st' = S (reconnectAttempts st)
  /\ (forall q, applyPolicy1 q st' = (Err "Failed to apply network policy", st'))
  /\ getStats1 st' = (Err "Failed to get router statistics", st').
Proof.
  intros Hc Hk. cbv zeta.
  pose proof (applyRules_spec session_set (rules policy) st Hc) as H.
  rewrite Hk in H. destruct H as (_ & e & H).
  set (s1 := RouterManager.sentAll Device session_set
               (map generatePolicyOids (firstn (S k) (rules policy))) st) in H.
  assert (E : snd (applyPolicy1 policy st) = handleConnectionError s1).
  { unfold RouterManager.applyPolicy. rewrite Hc. cbn [negb]. now rewrite H. }
  rewrite E.
  destruct (handleConnectionError_spec s1) as (Hoff & Hn & _).
  destruct (sentAll_fields session_set
              (map generatePolicyOids (firstn (S k) (rules policy))) st)
    as (_ & _ & Hr & _). fold s1 in Hr.
  split; [exact Hoff|]. split; [congruence|]. split.
  - intros q. now apply applyPolicy_not_connected.
  - unfold RouterManager.getStats, snmpGet. now rewrite Hoff.
Qed.



(** X5.  A policy applied successfully survives a restart: a manager
    constructed afterwards over the same policy file starts with exactly
    the store the first one ended with, which holds the policy under its
    identifier. *)
Theorem policy_survives_restart
  (policy : NetworkPolicy) (st : state Device) (d : Device) :
  fst (applyPolicy1 policy st) = Ok tt ->
  let st' := snd (applyPolicy1 policy st) in
  policies (construct Device d (disk st')) = policies st'
  /\ policies (construct Device d (disk st')) !! id policy = Some policy.
Proof.
  intros Hok. cbv zeta.
  destruct (applyPolicy_Ok_inv policy st Hok) as [Hp Hd].
  unfold construct. cbn [policies]. rewrite Hd. cbn [default].
  split; [reflexivity|]. rewrite Hp. apply lookup_insert_eq.
Qed.

(** X6.  [disconnect] does not cancel a pending reconnection: the timers
    are left as they are, so the event loop still runs the scheduled
    [connect], which counts one more failure. *)
Theorem disconnect_keeps_retry (st : state Device) (ts : list timer) :
  isConnected st = false ->
  timers st = retryTimer :: ts ->
  timers (disconnect Device st) = timers st
  /\ isConnected (disconnect Device st) = false
  /\ reconnectAttempts (fire1 (disconnect Device st))
     = S (reconnectAttempts st).
Proof.
  intros Hc Ht.
  assert (H : timers (disconnect Device st) = timers st
              /\ isConnected (disconnect Device st) = false
              /\ reconnectAttempts (disconnect Device st) = reconnectAttempts st).
  { unfold disconnect. destruct (session st); auto. }
  destruct H as (H1 & H2 & H3). split; [exact H1|]. split; [exact H2|].
  unfold RouterManager.fire. rewrite H1, Ht. cbn [retryTimer run].
  rewrite connect_disconnected by exact H2.
  destruct (handleConnectionError_spec
              (with_session true (with_timers ts (disconnect Device st))))
    as (_ & -> & _). cbn. now rewrite H3.
Qed.

(** X7.  On a connected manager [getStats] sends one read of the six
    counters.  The statistics are the first six values of the answer, in
    order: cpu, memory, inbound, outbound, connections, errors.  An answer
    with fewer than six values makes the call fail while the manager stays
    connected and the failure counter is untouched; an error of the device
    makes it fail too, and takes the manager through the connection-failure
    path. *)
Theorem getStats_outcome (st : state Device) :
  isConnected st = true ->
  let r := fst (getStats1 st) in
  let st' := snd (getStats1 st) in
  wire st' = wire st ++ [Get statsOids]
  /\ device st' = snd (session_get (device st) statsOids)
  /\ policies st' = policies st
  /\ match fst (session_get (device st) statsOids) with
     | Ok vs =>
         isConnected st' = true
         /\ reconnectAttempts st' = reconnectAttempts st
         /\ timers st' = timers st /\ events st' = events st
         /\ (6 <= length vs ->
             r = Ok {| cpu := nth 0 vs (VNumber 0);
                       memory := nth 1 vs (VNumber 0);
                       bandwidth_in := nth 2 vs (VNumber 0);
                       bandwidth_out := nth 3 vs (VNumber 0);
                       connections := nth 4 vs (VNumber 0);
                       errors := nth 5 vs (VNumber 0) |})
         /\ (length vs < 6 -> r = Err "Failed to get router statistics")
     | Err _ =>
         r = Err "Failed to get router statistics"
         /\ isConnected st' = false
         /\ reconnectAttempts st' = S (reconnectAttempts st)
     end.
Proof.
  intros Hc. cbv zeta. unfold RouterManager.getStats, snmpGet.
  rewrite Hc. cbn [negb].
  destruct (session_get (device st) statsOids) as [[vs|e] d]; cbn [fst snd].
  - destruct vs as [|v0 [|v1 [|v2 [|v3 [|v4 [|v5 vs]]]]]]; cbn;
      repeat split; auto; intros; solve [lia | reflexivity].
  - destruct (handleConnectionError_spec (sent (Get statsOids) d st))
      as (H1 & H2 & _ & _ & _ & H3 & H4 & H5 & _).
    cbn in *. repeat split; auto.
Qed.

End ManagerMore.

Section ManagerTables.
Import RouterManager ManagerOps.

Lemma upper_lower (c : ascii) : JS.upper (JS.lower c) = JS.upper c.
Proof. destruct c as [[] [] [] [] [] [] [] []]; reflexivity. Qed.

Lemma upper_upper (c : ascii) : JS.upper (JS.upper c) = JS.upper c.
Proof. destruct c as [[] [] [] [] [] [] [] []]; reflexivity. Qed.

Lemma toUpperCase_toLowerCase (s : string) :
  JS.toUpperCase (JS.toLowerCase s) = JS.toUpperCase s.
Proof.
  unfold JS.toUpperCase, JS.toLowerCase.
  rewrite list_ascii_of_string_of_list_ascii, map_map.
  f_equal. apply map_ext. exact upper_lower.
Qed.

Lemma toUpperCase_idempotent (s : string) :
  JS.toUpperCase (JS.toUpperCase s) = JS.toUpperCase s.
Proof.
  unfold JS.toUpperCase.
  rewrite list_ascii_of_string_of_list_ascii, map_map.
  f_equal. apply map_ext. exact upper_upper.
Qed.

(** X8.  The protocol table ignores letter case, and sends every name
    other than TCP, UDP and ICMP to 0 instead of failing. *)
Theorem getProtocolNumber_case_insensitive (s : string) :
  getProtocolNumber (JS.toLowerCase s) = getProtocolNumber s
  /\ getProtocolNumber (JS.toUpperCase s) = getProtocolNumber s
  /\ (getProtocolNumber s = 6%Z <-> JS.toUpperCase s = "TCP")
  /\ (getProtocolNumber s = 17%Z <-> JS.toUpperCase s = "UDP")
  /\ (getProtocolNumber s = 1%Z <-> JS.toUpperCase s = "ICMP")
  /\ (getProtocolNumber s = 0%Z <->
      JS.toUpperCase s <> "TCP" /\ JS.toUpperCase s <> "UDP"
      /\ JS.toUpperCase s <> "ICMP").
Proof.
  unfold getProtocolNumber.
  rewrite toUpperCase_toLowerCase, toUpperCase_idempotent.
  split; [reflexivity|]. split; [reflexivity|].
  destruct (String.eqb_spec (JS.toUpperCase s) "TCP") as [->|H1];
    [repeat split; intros; try congruence; try discriminate; tauto|].
  destruct (String.eqb_spec (JS.toUpperCase s) "UDP") as [->|H2];
    [repeat split; intros; try congruence; try discriminate; tauto|].
  destruct (String.eqb_spec (JS.toUpperCase s) "ICMP") as [->|H3];
    [repeat split; intros; try congruence; try discriminate; tauto|].
  repeat split; intros; try congruence; try discriminate; tauto.
Qed.

(** X9.  [generatePolicyOids] yields between one and five varbinds, in
    the fixed order source, destination, protocol, port, action.  The
    action varbind is always the last one and carries 1, 2 or 3; each of
    the other four is present exactly when the rule's field is truthy, so
    an empty address or protocol and a port of 0 are left out like an
    absent one. *)
Theorem generatePolicyOids_shape (rule : Rule) :
  let oids := generatePolicyOids rule in
  1 <= length oids <= 5
  /\ sublist (map oid oids) policyOids
  /\ last oids
     = Some {| oid := "1.3.6.1.2.1.4.21.1.13"; type := Integer;
               value := VNumber (match action rule with
                                 | allow => 1 | deny => 2 | limit => 3
                                 end) |}
  /\ (In "1.3.6.1.2.1.4.20.1.1" (map oid oids)
      <-> JS.truthy_string (sourceIP rule) = true)
  /\ (In "1.3.6.1.2.1.4.20.1.2" (map oid oids)
      <-> JS.truthy_string (destIP rule) = true)
  /\ (In "1.3.6.1.2.1.4.21.1.9" (map oid oids)
      <-> JS.truthy_string (protocol rule) = true)
  /\ (In "1.3.6.1.2.1.6.13.1.3" (map oid oids)
      <-> JS.truthy_Z (port rule) = true).
Proof.
  cbv zeta. unfold generatePolicyOids, policyOids.
  assert (Ha : getActionNumber (actionName (action rule))
               = match action rule with
                 | allow => 1 | deny => 2 | limit => 3
                 end%Z) by (destruct (action rule); reflexivity).
  rewrite Ha.
  destruct (JS.truthy_string (sourceIP rule)),
           (JS.truthy_string (destIP rule)),
           (JS.truthy_string (protocol rule)),
           (JS.truthy_Z (port rule)); cbn [app map length last oid];
    (split; [lia|]);
    (split; [repeat first [apply sublist_nil | apply sublist_skip
                          | apply sublist_cons]|]);
    (split; [reflexivity|]);
    repeat split; intros H; try reflexivity; try discriminate;
    cbn [In] in *; intuition discriminate.
Qed.

End ManagerTables.

Section ManagerMoreWitness.
Import RouterManager ManagerOps Scenario.

(** The second write of the example policy is refused; a second call and
    a stats request then fail without reaching the device. *)
Lemma applyPolicy_after_refusal_witness :
  let st' := snd (applyPolicy nat refuseSecond (fun _ => true) policy3 online) in
  isConnected st' = false
  /\ reconnectAttempts st' = 1
  /\ (forall q, applyPolicy nat refuseSecond (fun _ => true) q st'
                = (Err "Failed to apply network policy", st'))
  /\ getStats nat sixCounters st'
     = (Err "Failed to get router statistics", st').
Proof.
  exact (applyPolicy_after_refusal refuseSecond sixCounters (fun _ => true)
           policy3 online 1 eq_refl eq_refl).
Defined.


(** The example policy is applied, then a new manager is constructed. *)
Lemma policy_survives_restart_witness :
  let st' := snd (applyPolicy nat acceptAll (fun _ => true) policy3 online) in
  policies (construct nat 7 (disk st')) = policies st'
  /\ policies (construct nat 7 (disk st')) !! "p-1" = Some policy3.
Proof.
  exact (policy_survives_restart acceptAll (fun _ => true) policy3 online 7
           eq_refl).
Defined.

(** A manager whose first [connect] has just failed is disconnected. *)
Lemma disconnect_keeps_retry_witness :
  let st := connect nat noAnswer offline in
  timers (disconnect nat st) = timers st
  /\ isConnected (disconnect nat st) = false
  /\ reconnectAttempts (fire nat noAnswer (disconnect nat st)) = 2.
Proof.
  exact (disconnect_keeps_retry noAnswer (connect nat noAnswer offline) []
           eq_refl eq_refl).
Defined.

(** A connected manager and a device that answers with six counters. *)
Lemma getStats_outcome_witness :
  fst (getStats nat sixCounters online)
  = Ok {| cpu := VNumber 10; memory := VNumber 20; bandwidth_in := VNumber 30;
          bandwidth_out := VNumber 40; connections := VNumber 50;
          errors := VNumber 0 |}
  /\ wire (snd (getStats nat sixCounters online)) = [Get statsOids].
Proof.
  pose proof (getStats_outcome sixCounters online eq_refl) as H.
  cbv zeta in H. destruct H as (Hw & _ & _ & H).
  change (fst (sixCounters (device online) statsOids))
    with (Ok (A:=list Value)
            [VNumber 10; VNumber 20; VNumber 30; VNumber 40; VNumber 50;
             VNumber 0]) in H.
  cbv beta iota in H. destruct H as (_ & _ & _ & _ & H & _).
  split; [apply H; cbn; lia|exact Hw].
Defined.

End ManagerMoreWitness.

(** ** The capture adapter: what the fields of a record hold *)

Section CaptureFacts.
Import Regex RegexGroups NetworkTap.

Lemma consumed_app (w s' : list ascii) : consumed (w ++ s') s' = w.
Proof.
  unfold consumed. rewrite length_app.
  replace (length w + length s' - length s') with (length w) by lia.
  apply take_app_length.
Qed.

Lemma group_In i cs u : group i cs = Some u -> In (i, u) cs.
Proof.
  induction cs as [|[j w] cs IH]; simpl; [discriminate|].
  destruct (Nat.eqb_spec i j) as [->|]; [intros [= ->]; auto|auto].
Qed.

Lemma group_cons_Some i j w cs :
  is_Some (group i cs) -> is_Some (group i ((j, w) :: cs)).
Proof. simpl. destruct (i =? j)%nat; eauto. Qed.

Lemma rmatch_captures {A} r :
  forall s cs (k : list ascii -> captures -> option A) a,
  rmatch r s cs k = Some a ->
  exists w s' cs',
    s = w ++ s' /\ lang r w /\ k s' cs' = Some a /\ extends r cs cs'.
Proof.
  induction r as [|c|p|p|r1 IH1 r2 IH2|r1 IH1 r2 IH2|i r IH];
    intros s cs k a H; simpl in H.
  - exists [], s, cs. repeat split; auto; intros ? [].
  - destruct s as [|c' s]; [discriminate|].
    destruct (Ascii.eqb_spec c c'); [subst c'|discriminate].
    exists [c], s, cs. repeat split; auto; intros ? [].
  - apply many_sound in H as (w & s' & -> & Hw & Hk).
    exists w, s', cs. repeat split; auto; intros ? [].
  - destruct s as [|c s]; [discriminate|].
    destruct (p c) eqn:Hp; [|discriminate].
    apply many_sound in H as (w & s' & -> & Hw & Hk).
    exists (c :: w), s', cs. simpl. rewrite Hp.
    repeat split; auto; try discriminate; intros ? [].
  - apply IH1 in H as (w1 & s1 & cs1 & -> & H1 & H & E1 & M1 & A1).
    apply IH2 in H as (w2 & s2 & cs2 & -> & H2 & H & E2 & M2 & A2).
    exists (w1 ++ w2), s2, cs2. rewrite <- app_assoc.
    split; [reflexivity|]. split; [simpl; eauto|]. split; [exact H|].
    split; [|split].
    + intros j u Hin. simpl. destruct (E2 j u Hin) as [Hc|(r' & Hr & Hl)].
      * destruct (E1 j u Hc) as [?|(r' & Hr & Hl)]; [auto|].
        right. exists r'. rewrite in_app_iff. auto.
      * right. exists r'. rewrite in_app_iff. auto.
    + auto.
    + intros j Hj. simpl in Hj. apply in_app_iff in Hj as [Hj|Hj]; auto.
  - assert (Hor : (exists w s' cs', s = w ++ s' /\ lang r1 w /\
                     k s' cs' = Some a /\ extends r1 cs cs')
                  \/ (exists w s' cs', s = w ++ s' /\ lang r2 w /\
                     k s' cs' = Some a /\ extends r2 cs cs')).
    { destruct (rmatch r1 s cs k) as [b|] eqn:E.
      - inversion H; subst b. left. eauto.
      - right. eauto. }
    destruct Hor as [(w & s' & cs' & -> & Hw & Hk & E & M & Al)
                    |(w & s' & cs' & -> & Hw & Hk & E & M & Al)];
      exists w, s', cs'; (split; [reflexivity|]); (split; [simpl; auto|]);
      (split; [exact Hk|]); (split; [|split; [exact M|]]).
    + intros j u Hin. destruct (E j u Hin) as [?|(r' & Hr & Hl)]; [auto|].
      right. exists r'. simpl. rewrite in_app_iff. auto.
    + intros j Hj. simpl in Hj. apply filter_In in Hj as [Hj _]. auto.
    + intros j u Hin. destruct (E j u Hin) as [?|(r' & Hr & Hl)]; [auto|].
      right. exists r'. simpl. rewrite in_app_iff. auto.
    + intros j Hj. simpl in Hj. apply filter_In in Hj as [_ Hj].
      apply existsb_exists in Hj as (j' & Hj' & Heq).
      apply Nat.eqb_eq in Heq. subst j'. auto.
  - apply IH in H as (w & s' & cs' & -> & Hw & Hk & E & M & Al).
    rewrite consumed_app in Hk.
    exists w, s', ((i, w) :: cs').
    split; [reflexivity|]. split; [exact Hw|]. split; [exact Hk|].
    split; [|split].
    + intros j u [[= <- <-]|Hin].
      * right. exists r. simpl. auto.
      * destruct (E j u Hin) as [?|(r' & Hr & Hl)]; [auto|].
        right. exists r'. simpl. auto.
    + intros j Hj. apply group_cons_Some. auto.
    + intros j [<-|Hj].
      * simpl. rewrite Nat.eqb_refl. eauto.
      * apply group_cons_Some. auto.
Qed.

(** A match found by [search]: every capture is a word of its group, and
    the groups that always take part are set. *)
Lemma search_captures r s cs :
  search r s = Some cs ->
  (forall i u, group i cs = Some u ->
     exists r', In (i, r') (groups r) /\ lang r' u)
  /\ (forall i, In i (always r) -> is_Some (group i cs)).
Proof.
  induction s as [|c s IH]; simpl.
  - destruct (match_here r []) as [cs0|] eqn:E; [|discriminate].
    intros [= <-]. apply rmatch_captures in E
      as (w & s' & cs' & _ & _ & [= <-] & Ex & _ & Al).
    split; [|exact Al]. intros i u Hg. apply group_In in Hg.
    now destruct (Ex i u Hg) as [[]|?].
  - destruct (match_here r (c :: s)) as [cs0|] eqn:E.
    + intros [= <-]. apply rmatch_captures in E
        as (w & s' & cs' & _ & _ & [= <-] & Ex & _ & Al).
      split; [|exact Al]. intros i u Hg. apply group_In in Hg.
      now destruct (Ex i u Hg) as [[]|?].
    + exact IH.
Qed.


(** The text of a group that always takes part in the match of a line. *)
Lemma group_word r i r0 line m :
  js_match r line = Some m ->
  In i (always r) ->
  (forall r', In (i, r') (groups r) -> r' = r0) ->
  exists u, group_str i m = string_of_list_ascii u /\ lang r0 u.
Proof.
  intros Hm Hi Hr. apply search_captures in Hm as [Hw Ha].
  destruct (Ha i Hi) as [u Hu]. exists u. unfold group_str. rewrite Hu.
  split; [reflexivity|].
  destruct (Hw i u Hu) as (r' & Hin & Hl). now rewrite <- (Hr r' Hin).
Qed.

Ltac one_group :=
  simpl; intros ? H;
  repeat (destruct H as [H|H]; [inversion H; subst; try reflexivity; try lia|]);
  try destruct H.

(** X10.  What the fields of an emitted record hold.  The timestamp is
    always set; source and destination address are set together, and so
    are the two ports.  A protocol is one of the literal tokens TCP, UDP,
    ICMP.  An address is four non-empty runs of decimal digits separated
    by dots, with no bound on the numbers.  Flags are a non-empty text
    without a closing bracket. *)
Theorem emitted_record_fields (now : Z) (line : string) (p : PacketData.t) :
  processLine now line = Some p ->
  PacketData.timestamp p = Some now
  /\ (is_Some (PacketData.sourceIP p) <-> is_Some (PacketData.destIP p))
  /\ (is_Some (PacketData.sourcePort p) <-> is_Some (PacketData.destPort p))
  /\ (forall s, PacketData.protocol p = Some s ->
        s = "TCP" \/ s = "UDP" \/ s = "ICMP")
  /\ (forall s, PacketData.sourceIP p = Some s \/ PacketData.destIP p = Some s ->
        lang quad (list_ascii_of_string s))
  /\ (forall f, PacketData.flags p = Some f ->
        f <> "" /\ forallb notRBracket (list_ascii_of_string f) = true).
Proof.
  intros Hp. apply processLine_Some in Hp as (_ & _ & ->).
  unfold scan; cbn [PacketData.timestamp PacketData.sourceIP PacketData.destIP
    PacketData.sourcePort PacketData.destPort PacketData.protocol
    PacketData.flags].
  split; [reflexivity|].
  split; [destruct (js_match ipRe line); simpl; split; eauto|].
  split; [destruct (js_match portRe line); simpl; split; eauto|].
  split; [|split].
  - intros s Hs. destruct (js_match protocolRe line) as [m|] eqn:E;
      [|discriminate]. injection Hs as <-.
    destruct (group_word protocolRe 1
                (Alt (Str "TCP") (Alt (Str "UDP") (Str "ICMP"))) line m E)
      as (u & -> & Hu); [simpl; auto|one_group|].
    cbn [lang Str] in Hu.
    destruct Hu as [Hu|[Hu|Hu]];
      repeat (destruct Hu as (? & ? & -> & -> & Hu)); subst; auto.
  - intros s Hs.
    destruct (js_match ipRe line) as [m|] eqn:E;
      [|destruct Hs; discriminate].
    destruct Hs as [Hs|Hs]; injection Hs as <-.
    + destruct (group_word ipRe 1 quad line m E) as (u & -> & Hu);
        [simpl; auto|one_group|].
      now rewrite list_ascii_of_string_of_list_ascii.
    + destruct (group_word ipRe 2 quad line m E) as (u & -> & Hu);
        [simpl; auto|one_group|].
      now rewrite list_ascii_of_string_of_list_ascii.
  - intros f Hf. destruct (js_match flagsRe line) as [m|] eqn:E;
      [|discriminate]. injection Hf as <-.
    destruct (group_word flagsRe 1 (Many1 notRBracket) line m E)
      as (u & -> & Hne & Hu); [simpl; auto 10|one_group|].
    rewrite list_ascii_of_string_of_list_ascii. split; [|exact Hu].
    destruct u; [congruence|discriminate].
Qed.

(** The scenario line of the specification. *)
Lemma emitted_record_fields_witness :
  let p := scan 7 "10.0.0.5.4000 > 10.0.0.9.80: Flags [S], length 1500" in
  PacketData.timestamp p = Some 7%Z
  /\ (forall s, PacketData.sourceIP p = Some s \/ PacketData.destIP p = Some s ->
        lang quad (list_ascii_of_string s))
  /\ (forall f, PacketData.flags p = Some f ->
        f <> "" /\ forallb notRBracket (list_ascii_of_string f) = true).
Proof.
  destruct (emitted_record_fields 7
              "10.0.0.5.4000 > 10.0.0.9.80: Flags [S], length 1500" _ eq_refl)
    as (H1 & _ & _ & _ & H2 & H3).
  exact (conj H1 (conj H2 H3)).
Defined.

End CaptureFacts.

(** ** The capture adapter: chunks and the life cycle of a capture *)

Section ChunkFacts.
Import NetworkTap.

Lemma list_ascii_of_string_append (a b : string) :
  list_ascii_of_string (a +:+ b)
  = list_ascii_of_string a ++ list_ascii_of_string b.
Proof. induction a as [|c a IH]; simpl; [reflexivity|now rewrite IH]. Qed.

Lemma split_aux_sep sep l1 : forall l2 cur,
  JS.split_aux sep (l1 ++ sep :: l2) cur
  = JS.split_aux sep l1 cur ++ JS.split_aux sep l2 [].
Proof.
  induction l1 as [|c l1 IH]; intros l2 cur; simpl.
  - now rewrite Ascii.eqb_refl.
  - destruct (Ascii.eqb c sep); simpl; now rewrite IH.
Qed.

Lemma processLines_app clock l1 : forall i l2,
  processLines clock i (l1 ++ l2)
  = processLines clock i l1 ++ processLines clock (i + length l1) l2.
Proof.
  induction l1 as [|l l1 IH]; intros i l2; simpl.
  - now rewrite Nat.add_0_r.
  - rewrite IH, Nat.add_succ_r.
    destruct (processLine (clock i) l); reflexivity.
Qed.

Lemma processLines_shift clock n lines : forall i,
  processLines clock (n + i) lines
  = processLines (fun j => clock (n + j)) i lines.
Proof.
  induction lines as [|l ls IH]; intros i; simpl; [reflexivity|].
  rewrite <- IH, Nat.add_succ_r. reflexivity.
Qed.

Lemma processLines_length clock lines : forall i,
  length (processLines clock i lines) <= length lines.
Proof.
  induction lines as [|l ls IH]; intros i; simpl; [lia|].
  specialize (IH (S i)). destruct (processLine (clock i) l); simpl; lia.
Qed.

(** X11.  Lines are parsed independently and in order: the records of
    two chunks joined by a newline are the records of the first followed
    by those of the second (read with the clock of the lines that follow
    the first); and a chunk never yields more records than it has lines. *)
Theorem processPacket_joined (clock : nat -> Z) (a b : string) :
  processPacket clock (a +:+ String "010"%char b)
  = processPacket clock a
    ++ processPacket (fun j => clock (length (split_lines a) + j)) b
  /\ length (processPacket clock a) <= length (split_lines a).
Proof.
  unfold processPacket, split_lines, JS.split. split.
  - rewrite list_ascii_of_string_append. cbn [list_ascii_of_string].
    rewrite split_aux_sep, processLines_app. cbn [Nat.add].
    f_equal. rewrite <- processLines_shift, Nat.add_0_r. reflexivity.
  - apply processLines_length.
Qed.

(** X12.  Stopping and restarting a capture.  [stopCapture] always
    succeeds and leaves the adapter inactive; calling it again changes
    nothing more.  On an active adapter it drops the process handle; on an
    inactive one it returns at once and changes nothing, so the handle of
    a process that has closed by itself stays in place.  On an inactive
    adapter (after [stopCapture], or after the process has closed),
    [startCapture] hands one command to [exec]: if [exec] throws, the
    adapter is left exactly as it was; otherwise it becomes active with
    that process. *)
Theorem capture_restart
  (exec : string -> option string) (interfaceName filter : string)
  (st : state) :
  let stopped := snd (stopCapture st) in
  fst (stopCapture st) = Ok tt
  /\ isActive stopped = false
  /\ (isCapturing st = true -> tcpdumpProcess stopped = None)
  /\ (isCapturing st = false -> stopped = st)
  /\ (forall code,
        stopCapture (onClose code st) = (Ok tt, onClose code st)
        /\ tcpdumpProcess (snd (stopCapture (onClose code st)))
           = tcpdumpProcess st)
  /\ stopCapture stopped = (Ok tt, stopped)
  /\ (forall inactive, isCapturing inactive = false ->
      let r := startCapture exec interfaceName filter inactive in
      (fst r = Ok tt
       /\ isActive (snd r) = true
       /\ (exists cmd, tcpdumpProcess (snd r) = Some {| command := cmd |}
                       /\ spawned (snd r) = spawned inactive ++ [cmd]
                       /\ exec cmd = None))
      \/ ((exists m, fst r = Err ("Failed to start capture: " +:+ m))
          /\ snd r = inactive))
  /\ (forall code, isCapturing (onClose code st) = false).
Proof.
  cbv zeta. unfold stopCapture, isActive.
  destruct (isCapturing st) eqn:Hc; cbn; rewrite ?Hc; cbn;
    (repeat (split; [solve [auto | intros; congruence]|])); split; auto;
    intros inactive Hi; unfold startCapture; rewrite Hi;
    match goal with |- context [exec ?c] => destruct (exec c) eqn:E end;
    cbn; eauto 10.
Qed.

End ChunkFacts.

(** ** The scorer and the feature vector *)

Section ScorerMore.
Import FeatureExtractor AnomalyDetector.

Lemma float_one_neq_zero : 1%float <> 0%float.
Proof.
  intros H. apply (f_equal (fun x => PrimFloat.eqb x 1)) in H.
  vm_compute in H. discriminate.
Qed.

Lemma oneHot_spec (o : option string) (name : string) :
  oneHot o name = if decide (o = Some name) then 1%float else 0%float.
Proof.
  unfold oneHot. destruct o as [s|].
  - destruct (String.eqb_spec s name) as [->|Hne].
    + now rewrite decide_True.
    + rewrite decide_False; [reflexivity|congruence].
  - now rewrite decide_False.
Qed.

(** X13.  Features 1 to 5 are a one-hot encoding of the protocol over
    the vocabulary TCP, UDP, ICMP, HTTP, HTTPS: the indicator of a name is
    1 when the packet's protocol is exactly that name and 0 otherwise, so
    at most one indicator is 1, and all are 0 for a packet without
    protocol or with a protocol outside the vocabulary. *)
Theorem oneHot_indicators
  (Number : string -> float) (getHours : Z -> float)
  (p : PacketData.t) (v : list float) :
  extract Number getHours p = Ok v ->
  (forall i name, protocols !! i = Some name ->
     v !! S i = Some (if decide (PacketData.protocol p = Some name)
                      then 1%float else 0%float))
  /\ (forall i j, i < 5 -> j < 5 ->
        v !! S i = Some 1%float -> v !! S j = Some 1%float -> i = j)
  /\ ((forall name, PacketData.protocol p = Some name -> ~ In name protocols) ->
      forall i, i < 5 -> v !! S i = Some 0%float).
Proof.
  intros Hv.
  assert (H1 : forall i name, protocols !! i = Some name ->
     v !! S i = Some (if decide (PacketData.protocol p = Some name)
                      then 1%float else 0%float)).
  { unfold extract, extractIPFeatures in Hv.
    destruct (PacketData.sourceIP p), (PacketData.destIP p); try discriminate.
    injection Hv as <-. intros i name Hi.
    do 5 (destruct i as [|i]; [cbn in Hi; inversion Hi; subst name; cbn;
                               f_equal; apply oneHot_spec|]).
    discriminate. }
  split; [exact H1|]. split.
  - intros i j Hi Hj Ei Ej.
    assert (Hn : forall n, n < 5 -> v !! S n = Some 1%float ->
               protocols !! n = Some (default "" (PacketData.protocol p))).
    { intros n Hlt En.
      destruct (protocols !! n) as [name|] eqn:Hl.
      - rewrite (H1 n name Hl) in En.
        destruct (decide (PacketData.protocol p = Some name)) as [->|];
          [reflexivity|].
        apply (f_equal (default 0%float)) in En. cbn in En.
        symmetry in En. now apply float_one_neq_zero in En.
      - apply lookup_ge_None in Hl. simpl in Hl. lia. }
    pose proof (Hn i Hi Ei) as Li. pose proof (Hn j Hj Ej) as Lj.
    assert (Hnd : NoDup protocols).
    { unfold protocols. repeat constructor; rewrite ?list_elem_of_In;
        simpl; intuition discriminate. }
    exact (NoDup_lookup _ _ _ _ Hnd Li Lj).
  - intros Hout i Hi.
    destruct (protocols !! i) as [name|] eqn:Hl.
    + rewrite (H1 i name Hl). rewrite decide_False; [reflexivity|].
      intros Hp. apply (Hout name Hp).
      apply list_elem_of_In, list_elem_of_lookup. eauto.
    + apply lookup_ge_None in Hl. simpl in Hl. lia.
Qed.

(** A TCP packet: the first indicator is set, the second is not. *)
Lemma oneHot_indicators_witness :
  let p := PacketData.mk (Some 0%Z) (Some "10.0.0.5") (Some "10.0.0.9")
             (Some "TCP") (Some 60%N) None None None None None None in
  let v := match extract NumberDec getHoursUTC p with
           | Ok v => v
           | Err _ => []
           end in
  v !! 1 = Some 1%float /\ v !! 2 = Some 0%float.
Proof.
  intros p v.
  assert (Hv : extract NumberDec getHoursUTC p = Ok v)
    by (vm_compute; reflexivity).
  destruct (oneHot_indicators NumberDec getHoursUTC p v Hv) as (H & _ & _).
  split; [exact (H 0 "TCP" eq_refl)|exact (H 1 "UDP" eq_refl)].
Defined.

(** X14.  A training run releases the single-flight lock however its
    request settles: after an accepted [train] and its completion or
    failure, the next [train] is accepted again.  Only a successful run
    records the time and emits [trainingComplete]. *)
Theorem train_releases_lock
  (st : state) (epochs epochs' : option Z) (response : result string)
  (now : Z) :
  isTraining st = false ->
  let st1 := snd (train_begin epochs st) in
  let st2 := snd (train_end response now st1) in
  fst (train_begin epochs st) = Ok (default 50%Z epochs)
  /\ isTraining st1 = true
  /\ isTraining st2 = false
  /\ fst (train_begin epochs' st2) = Ok (default 50%Z epochs')
  /\ match response with
     | Ok data =>
         lastTrainingTime st2 = now
         /\ events st2 = events st ++ [TrainingComplete data]
     | Err _ =>
         lastTrainingTime st2 = lastTrainingTime st /\ events st2 = events st
     end.
Proof.
  intros H. cbv zeta. unfold train_begin. rewrite H. cbn [fst snd].
  destruct response as [data|e], epochs, epochs'; cbn; repeat split.
Qed.

(** A fresh scorer whose first run fails. *)
Lemma train_releases_lock_witness :
  let st2 := snd (train_end (Err "ECONNREFUSED") 5
                    (snd (train_begin None initial))) in
  isTraining st2 = false
  /\ fst (train_begin (Some 10%Z) st2) = Ok 10%Z
  /\ lastTrainingTime st2 = 0%Z /\ events st2 = [].
Proof.
  destruct (train_releases_lock initial None (Some 10%Z)
              (Err "ECONNREFUSED") 5 eq_refl) as (_ & _ & H1 & H2 & H3 & H4).
  exact (conj H1 (conj H2 (conj H3 H4))).
Defined.

End ScorerMore.

(** ** The orchestrator: what a packet can cause, and the life cycle *)

Section OrchestratorMore.
Import NetworkOrchestrator.
Context {Device : Type}.
Variable session_get :
  Device -> list string -> result (list RouterManager.Value) * Device.
Variable extractFeatures : PacketData.t -> result (list float).
Variable detectAnomaly :
  list float -> result AnomalyDetector.AnomalyDetectionResult.

Abbreviation getStats2 := (RouterManager.getStats Device session_get).
Abbreviation handleAnomaly2 := (handleAnomaly Device session_get).
Abbreviation handlePacket2 :=
  (handlePacket Device session_get extractFeatures detectAnomaly).

(** What [handleAnomaly] can do to the policy manager and to the events. *)
Lemma handleAnomaly_effects (a : anomaly) (st : state Device) :
  exists ev,
    events (handleAnomaly2 a st) = events st ++ ev /\ length ev <= 1
    /\ routerManager (handleAnomaly2 a st)
       = snd (getStats2 (routerManager st))
    /\ isRunning (handleAnomaly2 a st) = isRunning st
    /\ anomalyThreshold (handleAnomaly2 a st) = anomalyThreshold st
    /\ (ev <> [] ->
        (exists stats, fst (getStats2 (routerManager st)) = Ok stats)
        /\ (0.8 <? confidence a)%float = false).
Proof.
  pose proof (handleAnomaly_cases session_get a st) as H. cbv zeta in H.
  destruct (getStats2 (routerManager st)) as [[stats|e] rm]; cbn [fst snd].
  - destruct H as [(e & -> & _)|(-> & _ & H8)].
    + exists []. cbn. rewrite app_nil_r. repeat split; auto; congruence.
    + exists [Anomaly a stats]. cbn. repeat split; eauto.
  - rewrite H. exists []. cbn. rewrite app_nil_r.
    repeat split; auto; congruence.
Qed.

(** X15.  Whatever the packet, [handlePacket] asks nothing of the policy
    manager but at most one read of its statistics, emits at most one
    anomaly event, and leaves the running flag and the threshold alone.
    It emits an event only if the features were extracted, the scorer
    answered with an anomaly whose confidence reaches the threshold
    without exceeding 0.8 (above 0.8 the response is a call of a method
    the manager does not have), and the device stats were fetched; a
    failure of the extraction or of the scorer costs one line on the
    console and nothing else. *)
Theorem handlePacket_effects (p : PacketData.t) (st : state Device) :
  let st' := handlePacket2 p st in
  (exists ev,
     events st' = events st ++ ev /\ length ev <= 1
     /\ (ev <> [] ->
         exists fs r stats,
           extractFeatures p = Ok fs /\ detectAnomaly fs = Ok r
           /\ AnomalyDetector.isAnomaly r = true
           /\ (anomalyThreshold st <=? AnomalyDetector.confidence r)%float = true
           /\ (0.8 <? AnomalyDetector.confidence r)%float = false
           /\ fst (getStats2 (routerManager st)) = Ok stats))
  /\ (routerManager st' = routerManager st
      \/ routerManager st' = snd (getStats2 (routerManager st)))
  /\ isRunning st' = isRunning st
  /\ anomalyThreshold st' = anomalyThreshold st
  /\ (forall e, extractFeatures p = Err e ->
        st' = log Device (ErrorProcessingPacket e) st)
  /\ (forall fs e, extractFeatures p = Ok fs -> detectAnomaly fs = Err e ->
        st' = log Device (ErrorProcessingPacket e) st).
Proof.
  cbv zeta. unfold NetworkOrchestrator.handlePacket.
  assert (Hquiet : forall (s : state Device) (P : Prop),
    events s = events st ->
    exists ev,
      events s = events st ++ ev /\ length ev <= 1 /\ (ev <> [] -> P)).
  { intros s P He. exists []. rewrite !app_nil_r.
    repeat split; auto. congruence. }
  destruct (extractFeatures p) as [fs|e] eqn:Ef.
  - destruct (detectAnomaly fs) as [r|e] eqn:Ed.
    + destruct (AnomalyDetector.isAnomaly r) eqn:Hi; cbn [andb].
      * destruct (anomalyThreshold st <=? AnomalyDetector.confidence r)%float
          eqn:Ht.
        -- destruct (handleAnomaly_effects
                       {| packet := p; features := fs;
                          confidence := AnomalyDetector.confidence r |} st)
             as (ev & H1 & H2 & H3 & H4 & H5 & H6).
           split; [|repeat split; auto; intros; congruence].
           exists ev. repeat split; auto.
           intros Hne. destruct (H6 Hne) as [[stats Hs] H8].
           cbn [confidence] in H8. eauto 10.
        -- split; [apply Hquiet; reflexivity|].
           repeat split; auto; intros; congruence.
      * split; [apply Hquiet; reflexivity|].
        repeat split; auto; intros; congruence.
    + split; [apply Hquiet; reflexivity|].
      repeat split; auto; intros; congruence.
  - split; [apply Hquiet; reflexivity|].
    repeat split; auto; intros; congruence.
Qed.

(** X16.  The threshold the constructor sets is never zero and never
    NaN: a configured threshold that is [undefined], 0 or NaN is replaced
    by 0.8, any other configured value is kept. *)
Theorem threshold_never_falsy
  (config : OrchestratorConfig) (rm : RouterManager.state Device) :
  let t := anomalyThreshold (create Device config rm) in
  (t =? 0)%float = false
  /\ is_nan t = false
  /\ match cfg_anomalyThreshold config with
     | Some v => if (v =? 0)%float || is_nan v then t = 0.8%float else t = v
     | None => t = 0.8%float
     end.
Proof.
  cbv zeta. unfold create, or_default. cbn [anomalyThreshold].
  destruct (cfg_anomalyThreshold config) as [v|]; [|repeat split].
  destruct ((v =? 0)%float || is_nan v) eqn:E; [repeat split|].
  apply orb_false_elim in E as [E1 E2]. auto.
Qed.

End OrchestratorMore.

Section LifecycleFacts.
Import NetworkOrchestrator OrchestratorLifecycle.
Context {Device Tap : Type}.
Variable session_get :
  Device -> list string -> result (list RouterManager.Value) * Device.
Variable tapStart : Tap -> result unit * Tap.
Variable tapStop : Tap -> result unit * Tap.
Variable initialize : result unit.

Abbreviation start1 :=
  (start Device session_get Tap tapStart initialize).
Abbreviation stop1 := (stop Device Tap tapStop).

(** X17.  A failed [start] is not undone by [stop].  If a step of
    [start] throws, the running flag stays false, although the connection
    to the router has been attempted and the capture adapter is left in
    whatever state its own start reached; [stop] called afterwards returns
    at once and changes nothing, and no retraining interval was
    registered. *)
Theorem failed_start_is_not_stopped
  (sys : system Device Tap) (e : string) :
  isRunning (orchestrator sys) = false ->
  fst (start1 sys) = Err e ->
  let sys' := snd (start1 sys) in
  isRunning (orchestrator sys') = false
  /\ stop1 sys' = (Ok tt, sys')
  /\ tap sys' = snd (tapStart (tap sys))
  /\ routerManager (orchestrator sys')
     = RouterManager.connect Device session_get (routerManager (orchestrator sys))
  /\ intervals sys' = intervals sys.
Proof.
  intros Hr. cbv zeta. unfold start. rewrite Hr.
  destruct (tapStart (tap sys)) as [[[]|e1] t].
  - destruct initialize as [[]|e2]; [discriminate|]. intros _.
    unfold stop. cbn. rewrite Hr. cbn. auto.
  - intros _. unfold stop. cbn. rewrite Hr. cbn. auto.
Qed.


End LifecycleFacts.

Section LifecycleWitness.
Import NetworkOrchestrator OrchestratorLifecycle.

(** The adapter starts and the health check of the scorer fails. *)
Lemma failed_start_is_not_stopped_witness :
  let sys := build nat nat OrchestratorScenario.defaults Scenario.offline 0 in
  let started (t : nat) : result unit * nat := (Ok tt, S t) in
  let stopped (t : nat) : result unit * nat := (Ok tt, 0) in
  let sys' :=
    snd (start nat Scenario.noAnswer nat started (Err "ECONNREFUSED") sys) in
  isRunning (orchestrator sys') = false
  /\ stop nat nat stopped sys' = (Ok tt, sys')
  /\ tap sys' = 1
  /\ intervals sys' = [].
Proof.
  intros sys started stopped sys'.
  destruct (failed_start_is_not_stopped Scenario.noAnswer started stopped
              (Err "ECONNREFUSED") sys "ECONNREFUSED" eq_refl eq_refl)
    as (H1 & H2 & H3 & _ & H4).
  exact (conj H1 (conj H2 (conj H3 H4))).
Defined.

End LifecycleWitness.

(** ** Log compression: round trips *)

Section CompressionFacts.
Import LogCompression.

Lemma decompress_rleLoop rest : forall cur n,
  decompressRLE (rleLoop rest cur n) = repeat cur n ++ rest.
Proof.
  induction rest as [|l rest IH]; intros cur n; cbn [rleLoop].
  - unfold decompressRLE. cbn. now rewrite !app_nil_r.
  - destruct (String.eqb_spec l cur) as [->|Hne].
    + rewrite IH. cbn [repeat]. rewrite repeat_cons, <- app_assoc. reflexivity.
    + unfold decompressRLE in *. cbn [flat_map count log].
      rewrite IH. cbn. reflexivity.
Qed.

Lemma canonical_rleLoop rest : forall cur n,
  0 < n ->
  canonical (rleLoop rest cur n)
  /\ exists m rest', rleLoop rest cur n = {| count := m; log := cur |} :: rest'.
Proof.
  induction rest as [|l rest IH]; intros cur n Hn; cbn [rleLoop].
  - split; [cbn; auto|eauto].
  - destruct (String.eqb_spec l cur) as [->|Hne].
    + apply IH. lia.
    + destruct (IH l 1) as (Hc & m & rest' & E); [lia|].
      split; [|eauto]. rewrite E in *. cbn. cbn in Hc. auto.
Qed.

(** X19.  Run-length encoding loses nothing: decoding the encoding of a
    list of logs gives the list back, in order.  Every entry written has
    a count of at least one and two neighbouring entries never hold the
    same log, so the counts add up to the number of logs. *)
Theorem rle_round_trip (logs : list string) :
  decompressRLE (runLengthEncoding logs) = logs
  /\ canonical (runLengthEncoding logs)
  /\ list_sum (map count (runLengthEncoding logs)) = length logs
  /\ length (runLengthEncoding logs) <= length logs.
Proof.
  assert (H1 : decompressRLE (runLengthEncoding logs) = logs).
  { destruct logs as [|l rest]; [reflexivity|].
    cbn [runLengthEncoding]. now rewrite decompress_rleLoop. }
  assert (H2 : canonical (runLengthEncoding logs)).
  { destruct logs as [|l rest]; [exact I|].
    cbn [runLengthEncoding].
    destruct (canonical_rleLoop rest l 1) as [H _]; [lia|exact H]. }
  assert (Hsum : forall c, length (decompressRLE c) = list_sum (map count c)).
  { induction c as [|e c IH]; [reflexivity|].
    unfold decompressRLE in *. cbn. rewrite length_app, repeat_length, IH.
    reflexivity. }
  assert (Hlen : forall c, canonical c -> length c <= list_sum (map count c)).
  { induction c as [|e c IH]; [cbn; lia|].
    intros (Hp & _ & Hc). specialize (IH Hc).
    cbn [map list_sum foldr length]. change (foldr Nat.add 0) with list_sum.
    lia. }
  split; [exact H1|]. split; [exact H2|].
  rewrite <- Hsum, H1. split; [reflexivity|].
  rewrite <- H1 at 2. rewrite Hsum. now apply Hlen.
Qed.


Lemma rleLoop_repeat x n : forall tail k,
  rleLoop (repeat x n ++ tail) x k = rleLoop tail x (n + k).
Proof.
  induction n as [|n IH]; intros tail k; [reflexivity|].
  cbn [repeat app rleLoop]. rewrite String.eqb_refl, IH.
  f_equal. lia.
Qed.

(** X20.  The other direction: a run-length list whose counts are all
    positive and whose neighbours hold different logs is exactly what the
    encoder produces from its expansion, so such a list is the only
    encoding of the logs it stands for. *)
Theorem rle_canonical_round_trip (c : list entry) :
  canonical c -> runLengthEncoding (decompressRLE c) = c.
Proof.
  induction c as [|[n x] rest IH]; [reflexivity|].
  intros (Hn & Hnext & Hrest). cbn [count log] in *.
  specialize (IH Hrest).
  destruct n as [|n]; [lia|].
  unfold decompressRLE in *. cbn [flat_map count log repeat app].
  cbn [runLengthEncoding]. rewrite rleLoop_repeat.
  replace (n + 1) with (S n) by lia.
  destruct rest as [|[m y] rest']; [reflexivity|].
  cbn [count log] in *. destruct Hrest as (Hm & _).
  cbn [count] in Hm. destruct m as [|m]; [lia|].
  cbn [flat_map count log repeat app] in *.
  cbn [rleLoop]. destruct (String.eqb_spec y x) as [->|_]; [congruence|].
  f_equal. exact IH.
Qed.

Lemma rle_canonical_round_trip_witness :
  let c := [ {| count := 2; log := "up" |}; {| count := 1; log := "down" |};
             {| count := 3; log := "up" |} ] in
  canonical c /\ runLengthEncoding (decompressRLE c) = c.
Proof.
  intros c.
  assert (H : canonical c).
  { cbn. repeat split; try lia; discriminate. }
  split; [exact H|]. exact (rle_canonical_round_trip c H).
Defined.

Lemma get_app d ext key code :
  get d key = Some code -> get (d ++ ext) key = Some code.
Proof.
  induction d as [|[k c] d IH]; [discriminate|].
  cbn [get app]. destruct (String.eqb k key); auto.
Qed.

Lemma get_snoc d key code :
  get d key = None -> get (d ++ [(key, code)]) key = Some code.
Proof.
  induction d as [|[k c] d IH]; cbn [get app].
  - now rewrite String.eqb_refl.
  - destruct (String.eqb k key); [discriminate|auto].
Qed.

Lemma get_In d key code : get d key = Some code -> In (key, code) d.
Proof.
  induction d as [|[k c] d IH]; [discriminate|].
  cbn [get]. destruct (String.eqb_spec k key) as [->|_].
  - intros [= ->]. now left.
  - intros H. right. auto.
Qed.

Lemma reverseGet_None d code :
  ~ In code (map snd d) -> reverseGet d code = None.
Proof.
  induction d as [|[k c] d IH]; [reflexivity|].
  cbn [map snd reverseGet]. intros H.
  rewrite IH by (intros H'; apply H; now right).
  destruct (Nat.eqb_spec c code) as [->|_]; [|reflexivity].
  exfalso. apply H. now left.
Qed.

Lemma reverseGet_In d key code :
  List.NoDup (map snd d) -> In (key, code) d -> reverseGet d code = Some key.
Proof.
  induction d as [|[k c] d IH]; [intros _ []|].
  cbn [map snd reverseGet]. intros Hnd [[= -> ->]|Hin].
  - inversion Hnd; subst. rewrite reverseGet_None by assumption.
    now rewrite Nat.eqb_refl.
  - inversion Hnd; subst. now rewrite IH.
Qed.

Lemma dict_ok_snoc d n key : dict_ok d n -> dict_ok (d ++ [(key, n)]) (S n).
Proof.
  unfold dict_ok. intros H. rewrite map_app, H, seq_S. reflexivity.
Qed.

Lemma dictLoop_spec logs : forall d n dfinal codes,
  dictLoop logs d n = (dfinal, codes) ->
  dict_ok d n ->
  (exists ext, dfinal = d ++ ext)
  /\ dict_ok dfinal (length dfinal)
  /\ length dfinal <= length d + length logs
  /\ Forall2 (fun l c => get dfinal l = Some c) logs codes.
Proof.
  induction logs as [|l rest IH]; intros d n dfinal codes E Hd;
    cbn [dictLoop] in E.
  - injection E as <- <-. split; [exists []; now rewrite app_nil_r|].
    assert (length d = n) as ->
      by (rewrite <- (length_map snd), Hd; apply length_seq).
    split; [exact Hd|]. split; [cbn; lia|constructor].
  - destruct (get d l) as [code|] eqn:G.
    + destruct (dictLoop rest d n) as [df cs] eqn:E'.
      injection E as <- <-.
      destruct (IH _ _ _ _ E' Hd) as ((ext & ->) & Hok & Hlen & Hall).
      split; [eauto|]. split; [exact Hok|]. split; [change (length (l :: rest)) with (S (length rest)); lia|].
      constructor; [now apply get_app|exact Hall].
    + destruct (dictLoop rest (d ++ [(l, n)]) (S n)) as [df cs] eqn:E'.
      injection E as <- <-.
      destruct (IH _ _ _ _ E' (dict_ok_snoc _ _ l Hd))
        as ((ext & ->) & Hok & Hlen & Hall).
      split; [exists ([(l, n)] ++ ext); now rewrite app_assoc|].
      split; [exact Hok|].
      split; [rewrite !length_app in *;
              change (length (l :: rest)) with (S (length rest));
              change (length [(l, n)]) with 1 in *; lia|].
      constructor; [|exact Hall].
      apply get_app. now apply get_snoc.
Qed.

(** X21.  Dictionary compression loses nothing: decoding gives every log
    back, in order.  The codes handed out are 0, 1, 2, ... in the order in
    which the logs first appear, the dictionary maps every log to the code
    written for it (so equal logs get equal codes and different logs
    different ones), and it holds no more entries than there are logs. *)
Theorem dictionary_round_trip (logs : list string) :
  let c := dictionaryCompression logs in
  decompressDictionary c = map Some logs
  /\ Forall2 (fun l code => get (fst c) l = Some code) logs (snd c)
  /\ map snd (fst c) = seq 0 (length (fst c))
  /\ length (fst c) <= length logs
  /\ (forall i j li lj ci cj,
        logs !! i = Some li -> logs !! j = Some lj ->
        snd c !! i = Some ci -> snd c !! j = Some cj ->
        (ci = cj <-> li = lj)).
Proof.
  cbn zeta. unfold dictionaryCompression, decompressDictionary.
  destruct (dictLoop logs [] 0) as [d codes] eqn:E. cbn [fst snd].
  destruct (dictLoop_spec logs [] 0 d codes E eq_refl)
    as (_ & Hok & Hlen & Hall).
  assert (Hnd : List.NoDup (map snd d)).
  { rewrite Hok. apply List.seq_NoDup. }
  assert (Hrev : forall l c, get d l = Some c -> reverseGet d c = Some l).
  { intros l c G. apply reverseGet_In; [exact Hnd|now apply get_In]. }
  split.
  { clear Hlen E. induction Hall as [|l c ls cs G _ IH]; [reflexivity|].
    cbn [map]. now rewrite (Hrev _ _ G), IH. }
  split; [exact Hall|]. split; [exact Hok|]. split; [cbn in Hlen; lia|].
  intros i j li lj ci cj Hi Hj Hci Hcj.
  assert (Hget : forall k l c,
            logs !! k = Some l -> codes !! k = Some c -> get d l = Some c).
  { clear -Hall. induction Hall as [|l c ls cs G _ IH]; intros k l' c'.
    - now rewrite lookup_nil.
    - destruct k as [|k]; cbn.
      + now intros [= <-] [= <-].
      + apply IH. }
  pose proof (Hget _ _ _ Hi Hci) as Gi.
  pose proof (Hget _ _ _ Hj Hcj) as Gj.
  split.
  - intros ->. apply Hrev in Gi, Gj. congruence.
  - intros ->. congruence.
Qed.

End CompressionFacts.

(** ** The Bloom filter and the log compressor *)

Section BloomFacts.
Variable size hashCount : nat.
Variable digest : string -> nat.
Hypothesis size_pos : 0 < size.

Local Abbreviation hashFn := (BloomFilter.hashFn size digest).
Local Abbreviation add := (BloomFilter.add size hashCount digest).
Local Abbreviation mightContain :=
  (BloomFilter.mightContain size hashCount digest).

Lemma hashFn_lt i v : hashFn i v < size.
Proof. unfold BloomFilter.hashFn. apply Nat.mod_upper_bound. lia. Qed.

Lemma set_bits_length (v : string) (idx : list nat) : forall bits : list bool,
  length (fold_left (fun b i => <[hashFn i v := true]> b) idx bits)
  = length bits.
Proof.
  induction idx as [|i idx IH]; intros bits; [reflexivity|].
  cbn [fold_left]. now rewrite IH, length_insert.
Qed.

Lemma set_bits_keeps (v : string) (idx : list nat) : forall (bits : list bool) j,
  bits !! j = Some true ->
  fold_left (fun b i => <[hashFn i v := true]> b) idx bits !! j = Some true.
Proof.
  induction idx as [|i idx IH]; intros bits j H; [exact H|].
  cbn [fold_left]. apply IH.
  apply list_lookup_insert_Some.
  destruct (decide (hashFn i v = j)) as [E|E].
  - left. split; [exact E|]. split; [reflexivity|].
    eapply lookup_lt_Some; eauto.
  - right. auto.
Qed.

Lemma set_bits_sets (v : string) (idx : list nat) : forall (bits : list bool) i,
  In i idx -> length bits = size ->
  fold_left (fun b i => <[hashFn i v := true]> b) idx bits !! hashFn i v
  = Some true.
Proof.
  induction idx as [|a idx IH]; intros bits i Hin Hlen; [destruct Hin|].
  cbn [fold_left]. destruct (Nat.eq_dec a i) as [->|Hne].
  - apply set_bits_keeps. apply list_lookup_insert_eq.
    rewrite Hlen. apply hashFn_lt.
  - destruct Hin as [->|Hin]; [congruence|].
    apply IH; [exact Hin|now rewrite length_insert].
Qed.

Lemma add_length bits v : length (add bits v) = length bits.
Proof. apply set_bits_length. Qed.

Lemma mightContain_add bits v :
  length bits = size -> mightContain (add bits v) v = true.
Proof.
  intros Hlen. apply forallb_forall. intros i Hi.
  unfold BloomFilter.add. now rewrite (set_bits_sets v _ bits i Hi Hlen).
Qed.

Lemma mightContain_keeps bits v v' :
  mightContain bits v = true -> mightContain (add bits v') v = true.
Proof.
  unfold BloomFilter.mightContain. rewrite !forallb_forall.
  intros H i Hi. specialize (H i Hi).
  destruct (bits !! hashFn i v) as [[|]|] eqn:E; try discriminate.
  unfold BloomFilter.add. now rewrite (set_bits_keeps v' _ bits _ E).
Qed.

(** X22.  The Bloom filter has no false negatives: in a filter of
    positive size, a value that has been added is reported as possibly
    present, whatever has been added before or after it. *)
Theorem bloom_no_false_negative (before after : list string) (v : string) :
  mightContain
    (fold_left add (before ++ v :: after) (BloomFilter.create size)) v
  = true.
Proof.
  rewrite fold_left_app. cbn [fold_left].
  set (b := fold_left add before (BloomFilter.create size)).
  assert (Hb : length b = size).
  { subst b. generalize (BloomFilter.create size)
      (length_replicate size false : length (BloomFilter.create size) = size).
    induction before as [|x xs IH]; intros bits Hl; [exact Hl|].
    cbn [fold_left]. apply IH. now rewrite add_length. }
  pose proof (mightContain_add b v Hb) as H.
  revert H. generalize (add b v).
  induction after as [|x xs IH]; intros bits H; [exact H|].
  cbn [fold_left]. apply IH. now apply mightContain_keeps.
Qed.

End BloomFacts.

Section CompressorFacts.
Import LogCompressor.
Variable size hashCount : nat.
Variable digest : string -> nat.
Hypothesis size_pos : 0 < size.

Local Abbreviation compressLog1 := (compressLog size hashCount digest).
Local Abbreviation compressAll1 := (compressAll size hashCount digest).
Local Abbreviation tracks1 := (tracks size hashCount digest).

Lemma list_sum_snoc (l : list nat) (x : nat) :
  list_sum (l ++ [x]) = list_sum l + x.
Proof. rewrite list_sum_app. cbn. lia. Qed.

Lemma tracks_create : tracks1 (create size) [].
Proof.
  unfold tracks, create. cbn.
  split; [apply length_replicate|]. split; [reflexivity|].
  split; [intros l Hl; set_solver|].
  split; [reflexivity|]. split; [now rewrite size_empty|].
  split; [reflexivity|lia].
Qed.

Lemma compressLog_step s seen l :
  tracks1 s seen ->
  fst (compressLog1 s l) = negb (bool_decide (l ∈ seen))
  /\ tracks1 (snd (compressLog1 s l)) (seen ++ [l]).
Proof.
  intros (Hlen & Hset & Hbloom & Htot & Huniq & Horig & Hcomp).
  assert (Hmem : l ∈ uniqueSet s <-> l ∈ seen).
  { rewrite Hset. apply elem_of_list_to_set. }
  assert (Hsum : list_sum (map String.length (seen ++ [l]))
                 = list_sum (map String.length seen) + String.length l).
  { rewrite map_app. change (map String.length [l]) with [String.length l].
    apply list_sum_snoc. }
  assert (Hcount : length (seen ++ [l]) = S (length seen)).
  { rewrite length_app. cbn [length]. lia. }
  unfold compressLog.
  destruct (bool_decide (l ∈ uniqueSet s)) eqn:Hin.
  - apply bool_decide_eq_true in Hin.
    rewrite (Hbloom l Hin). cbn [andb fst snd].
    assert (Hseen : l ∈ seen) by now apply Hmem.
    split; [now rewrite bool_decide_eq_true_2|].
    unfold tracks.
    cbn [bloomFilter uniqueSet compressionStats totalLogs uniqueLogs
         compressedSize originalSize].
    split; [exact Hlen|].
    split.
    { rewrite Hset. apply leibniz_equiv. rewrite list_to_set_snoc.
      assert (Hl : l ∈ (list_to_set seen : gset string))
        by now apply elem_of_list_to_set.
      intros x. rewrite elem_of_union, elem_of_singleton.
      split; [auto|]. intros [Hx| ->]; assumption. }
    split; [exact Hbloom|].
    split; [lia|]. split; [exact Huniq|]. split; lia.
  - apply bool_decide_eq_false in Hin.
    rewrite andb_false_r. cbn [fst snd].
    assert (Hseen : l ∉ seen) by (intros H; now apply Hin, Hmem).
    split; [now rewrite bool_decide_eq_false_2|].
    unfold tracks.
    cbn [bloomFilter uniqueSet compressionStats totalLogs uniqueLogs
         compressedSize originalSize].
    split; [now rewrite add_length|].
    split.
    { rewrite Hset. apply leibniz_equiv. now rewrite list_to_set_snoc. }
    split.
    { intros l' Hl'. apply elem_of_union in Hl' as [Hl'|Hl'].
      - apply mightContain_keeps. auto.
      - apply elem_of_singleton in Hl' as ->.
        now apply mightContain_add. }
    split; [lia|].
    split.
    { rewrite size_union, size_singleton; [lia|].
      intros x Hx Hx'. apply elem_of_singleton in Hx' as ->. auto. }
    split; lia.
Qed.

Lemma compressAll_spec logs : forall s seen,
  tracks1 s seen ->
  tracks1 (snd (compressAll1 s logs)) (seen ++ logs)
  /\ length (fst (compressAll1 s logs)) = length logs
  /\ forall i l, logs !! i = Some l ->
       fst (compressAll1 s logs) !! i
       = Some (negb (bool_decide (l ∈ seen ++ take i logs))).
Proof.
  induction logs as [|x rest IH]; intros s seen Hs.
  - cbn. rewrite app_nil_r. split; [exact Hs|]. split; [reflexivity|].
    intros i l. now rewrite lookup_nil.
  - cbn [compressAll].
    destruct (compressLog_step s seen x Hs) as (Hb & Hs1).
    destruct (compressLog1 s x) as [b s1]. cbn [fst snd] in *.
    destruct (IH s1 (seen ++ [x]) Hs1) as (Ht & Hl & Hi).
    destruct (compressAll1 s1 rest) as [bs s2]. cbn [fst snd] in *.
    rewrite <- app_assoc in Ht. split; [exact Ht|].
    split; [cbn; now rewrite Hl|].
    intros [|i] l.
    + intros [= <-]. cbn [take]. rewrite app_nil_r, <- Hb. reflexivity.
    + intros H. change (rest !! i = Some l) in H.
      change (bs !! i
              = Some (negb (bool_decide (l ∈ seen ++ x :: take i rest)))).
      rewrite (Hi _ _ H), <- app_assoc. reflexivity.
Qed.

(** X23.  The log compressor (over a filter of positive size) tells new
    logs from repeated ones exactly:
    fed a sequence of logs from its initial state, it answers [true] for
    a log precisely when no equal log came earlier, whatever the hash
    function of its Bloom filter does.  Its statistics count every log,
    count the distinct ones, and the compressed size never exceeds the
    original size, which is the total length of the logs. *)
Theorem compressLog_first_occurrences (logs : list string) :
  let flags := fst (compressAll1 (create size) logs) in
  let s := snd (compressAll1 (create size) logs) in
  length flags = length logs
  /\ (forall i l, logs !! i = Some l ->
        flags !! i = Some (negb (bool_decide (l ∈ take i logs))))
  /\ uniqueSet s = list_to_set logs
  /\ totalLogs (compressionStats s) = length logs
  /\ uniqueLogs (compressionStats s)
     = base.size (list_to_set logs : gset string)
  /\ originalSize (compressionStats s) = list_sum (map String.length logs)
  /\ compressedSize (compressionStats s)
     <= originalSize (compressionStats s).
Proof.
  cbn zeta.
  destruct (compressAll_spec logs (create size) [] tracks_create)
    as ((_ & Hset & _ & Htot & Huniq & Horig & Hcomp) & Hl & Hi).
  cbn [app] in *.
  split; [exact Hl|]. split; [exact Hi|]. split; [exact Hset|].
  split; [exact Htot|]. split; [now rewrite Huniq, Hset|].
  split; [exact Horig|exact Hcomp].
Qed.

(** X24.  [clear] brings a compressor (over a filter of positive size)
    that has been fed any sequence of logs back to the state of a newly
    built one. *)
Theorem clear_restores_initial (logs : list string) :
  clear (snd (compressAll1 (create size) logs)) = create size.
Proof.
  destruct (compressAll_spec logs (create size) [] tracks_create)
    as ((Hlen & _) & _).
  unfold clear, BloomFilter.clear. rewrite Hlen. reflexivity.
Qed.

End CompressorFacts.

Section CompressorWitness.
Import LogCompressor.

Lemma bloom_no_false_negative_witness :
  0 < 8
  /\ BloomFilter.mightContain 8 3 String.length
       (fold_left (BloomFilter.add 8 3 String.length)
          (["a"; "bb"] ++ "ccc" :: ["dddd"]) (BloomFilter.create 8)) "ccc"
     = true.
Proof.
  split; [lia|].
  apply (bloom_no_false_negative 8 3 String.length); lia.
Defined.

Lemma compressLog_first_occurrences_witness :
  0 < 4
  /\ uniqueLogs (compressionStats
       (snd (compressAll 4 2 String.length (create 4) ["a"; "bb"; "a"])))
     = base.size (list_to_set ["a"; "bb"; "a"] : gset string).
Proof.
  split; [lia|].
  assert (H : 0 < 4) by lia.
  apply (compressLog_first_occurrences 4 2 String.length H ["a"; "bb"; "a"]).
Defined.

Lemma clear_restores_initial_witness :
  0 < 4
  /\ clear (snd (compressAll 4 2 String.length (create 4) ["a"; "bb"; "a"]))
     = create 4.
Proof.
  split; [lia|].
  apply (clear_restores_initial 4 2 String.length); lia.
Defined.

End CompressorWitness.

(** ** Detecting the interfaces *)

Section DetectFacts.
Import Regex NetworkTap DetectInterfaces.

Lemma lazy1_sound {A} p s (k : list ascii -> option A) a :
  lazy1 p s k = Some a ->
  exists w s', s = w ++ s' /\ w <> [] /\ forallb p w = true /\ k s' = Some a.
Proof.
  revert a. induction s as [|c s IH]; intros a H; cbn [lazy1] in H;
    [discriminate|].
  destruct (p c) eqn:Hp; [|discriminate].
  destruct (k s) as [b|] eqn:Hk.
  - injection H as ->. exists [c], s. cbn. rewrite Hp. auto.
  - destruct (IH a H) as (w & s' & -> & _ & Hw & Hk').
    exists (c :: w), s'. cbn. rewrite Hp. auto.
Qed.

Lemma many_greedy {A} p w s' (k : list ascii -> option A) a :
  forallb p w = true ->
  match s' with [] => True | c :: _ => p c = false end ->
  k s' = Some a ->
  many p (w ++ s') k = Some a.
Proof.
  intros Hw Hs Hk. induction w as [|c w IH]; cbn [app].
  - destruct s' as [|c s']; cbn [many]; [exact Hk|]. now rewrite Hs.
  - cbn [forallb] in Hw. apply andb_prop in Hw as [Hc Hw].
    cbn [many]. rewrite Hc, (IH Hw). reflexivity.
Qed.

Lemma many_const {A} p s (a : A) : many p s (fun _ => Some a) = Some a.
Proof.
  induction s as [|c s IH]; cbn [many]; [reflexivity|].
  destruct (p c); [now rewrite IH|reflexivity].
Qed.

Lemma whitespace_not_dot c : (if isWhiteSpace c then c <> "."%char else True).
Proof.
  destruct (isWhiteSpace c) eqn:E; [|exact I]. intros ->. discriminate.
Qed.

Lemma notLineTerminator_ink c :
  isWhiteSpace c = false -> notLineTerminator c = true.
Proof.
  unfold notLineTerminator. intros H.
  destruct (Ascii.eqb_spec c "010"%char) as [->|_]; [discriminate|].
  destruct (Ascii.eqb_spec c "013"%char) as [->|_]; [discriminate|].
  reflexivity.
Qed.

Lemma trimStart_head s c t :
  trimStart s = c :: t -> isWhiteSpace c = false.
Proof.
  induction s as [|x s IH]; cbn [trimStart]; [discriminate|].
  destruct (isWhiteSpace x) eqn:E; [exact IH|].
  now intros [= <- _].
Qed.

Lemma trimEnd_last s pre c :
  trimEnd s = pre ++ [c] -> isWhiteSpace c = false.
Proof.
  unfold trimEnd. intros H.
  apply (f_equal (@rev ascii)) in H.
  rewrite rev_involutive, rev_app_distr in H. cbn in H.
  eapply trimStart_head; eauto.
Qed.

(** Two readings of a line as digits, dot, rest agree. *)
Lemma digits_dot_unique ds : forall ds' x y,
  forallb isDigit ds = true -> forallb isDigit ds' = true ->
  ds ++ "."%char :: x = ds' ++ "."%char :: y -> ds = ds' /\ x = y.
Proof.
  induction ds as [|d ds IH]; intros [|d' ds'] x y H H'; cbn [app];
    cbn [forallb] in *.
  - now intros [= ->].
  - intros [= <- _]. apply andb_prop in H' as [H' _]. discriminate.
  - intros [= -> _]. apply andb_prop in H as [H _]. discriminate.
  - intros [= -> E]. apply andb_prop in H as [_ H].
    apply andb_prop in H' as [_ H'].
    destruct (IH _ _ _ H H' E) as [-> ->]. auto.
Qed.

Lemma consumed_prefix (a b : list ascii) : consumed (a ++ b) b = a.
Proof.
  unfold consumed. rewrite length_app.
  replace (length a + length b - length b) with (length a) by lia.
  apply take_app_length.
Qed.

Lemma matchLine_sound line name :
  matchLine line = Some name ->
  exists ds w1 w2 rest,
    line = ds ++ "."%char :: w1 ++ name ++ w2 ++ rest
    /\ ds <> [] /\ forallb isDigit ds = true
    /\ w1 <> [] /\ forallb isWhiteSpace w1 = true
    /\ name <> [] /\ forallb notLineTerminator name = true
    /\ w2 <> [] /\ forallb isWhiteSpace w2 = true.
Proof.
  unfold matchLine. intros H.
  apply rmatch_sound in H as (w & s1 & cs1 & -> & Hw & H).
  apply lazy1_sound in H as (n & s2 & -> & Hn & Hdot & H).
  apply rmatch_sound in H as (w2 & rest & _ & -> & Hw2 & H).
  injection H as <-.
  cbn [lang digits dot] in Hw, Hw2.
  destruct Hw as (ds & x & -> & (Hds & Hdig) & (y & w1 & -> & -> & Hw1 & Hws)).
  destruct Hw2 as (Hw2 & Hws2).
  exists ds, w1, w2, rest.
  rewrite consumed_prefix. split; [now rewrite <- !app_assoc|]. auto 10.
Qed.

Lemma lazy1_word {A} (f : list ascii -> A) c2 w2 rest tok : forall t,
  isWhiteSpace t = false ->
  forallb (fun c => negb (isWhiteSpace c)) tok = true ->
  isWhiteSpace c2 = true ->
  lazy1 notLineTerminator (t :: tok ++ c2 :: w2 ++ rest)
    (fun s2 => rmatch (Many1 isWhiteSpace) s2 [] (fun _ _ => Some (f s2)))
  = Some (f (c2 :: w2 ++ rest)).
Proof.
  induction tok as [|t' tok IH]; intros t Ht Hink Hc2.
  - cbn [app lazy1]. rewrite (notLineTerminator_ink t Ht).
    cbn [rmatch]. rewrite Hc2. now rewrite many_const.
  - cbn [forallb] in Hink. apply andb_prop in Hink as [Ht' Hink].
    apply negb_true_iff in Ht'.
    cbn [app lazy1]. rewrite (notLineTerminator_ink t Ht).
    cbn [rmatch]. rewrite Ht'. apply (IH t' Ht' Hink Hc2).
Qed.

(** The first word after the number, when white space follows it. *)
Lemma matchLine_word ds w1 tok w2 rest :
  ds <> [] -> forallb isDigit ds = true ->
  w1 <> [] -> forallb isWhiteSpace w1 = true ->
  tok <> [] -> forallb (fun c => negb (isWhiteSpace c)) tok = true ->
  w2 <> [] -> forallb isWhiteSpace w2 = true ->
  matchLine (ds ++ "."%char :: w1 ++ tok ++ w2 ++ rest) = Some tok.
Proof.
  intros Hds Hdig Hw1 Hws1 Htok Hink Hw2 Hws2.
  destruct ds as [|d ds]; [congruence|].
  destruct w1 as [|c1 w1]; [congruence|].
  destruct tok as [|t tok]; [congruence|].
  destruct w2 as [|c2 w2]; [congruence|].
  cbn [forallb] in *.
  apply andb_prop in Hdig as [Hd Hdig]. apply andb_prop in Hws1 as [Hc1 Hws1].
  apply andb_prop in Hink as [Ht Hink]. apply andb_prop in Hws2 as [Hc2 Hws2].
  apply negb_true_iff in Ht.
  unfold matchLine, digits, dot.
  cbn [rmatch app]. rewrite Hd.
  erewrite many_greedy; [reflexivity|exact Hdig|reflexivity|].
  rewrite Ascii.eqb_refl. rewrite Hc1.
  erewrite many_greedy; [reflexivity|exact Hws1|exact Ht|].
  pose proof (lazy1_word (consumed (t :: tok ++ c2 :: w2 ++ rest))
                c2 w2 rest tok t Ht Hink Hc2) as L.
  cbn [rmatch] in L. rewrite L. f_equal.
  apply (consumed_prefix (t :: tok) (c2 :: w2 ++ rest)).
Qed.

(** X25.  Which interfaces [detectInterfaces] reports.  A failure of
    [tcpdump -D] is rethrown with the prefix of the method.  Otherwise
    every name reported is not empty and comes from a line of the output
    that, once trimmed, reads: digits, a dot, white space, the name, white
    space, and more text after it. *)
Theorem detectInterfaces_names (tcpdump : result string) :
  match tcpdump, detectInterfaces tcpdump with
  | Err message, r =>
      r = Err ("Failed to detect network interfaces: " +:+ message)
  | Ok stdout, Ok names =>
      forall name, In name names ->
        name <> ""
        /\ exists line ds w1 w2 rest,
             In line (split_lines stdout)
             /\ list_ascii_of_string (trim line)
                = ds ++ "."%char :: w1 ++ list_ascii_of_string name
                     ++ w2 ++ rest
             /\ ds <> [] /\ forallb isDigit ds = true
             /\ w1 <> [] /\ forallb isWhiteSpace w1 = true
             /\ w2 <> [] /\ forallb isWhiteSpace w2 = true
             /\ rest <> []
  | Ok _, Err _ => False
  end.
Proof.
  destruct tcpdump as [stdout|message]; cbn [detectInterfaces];
    [|reflexivity].
  intros name Hin.
  apply filter_In in Hin as [Hin Hne].
  apply in_map_iff in Hin as (tl & Hname & Hin).
  apply filter_In in Hin as [Hin _].
  apply in_map_iff in Hin as (line & <- & Hline).
  split.
  { intros ->. discriminate. }
  unfold interfaceOf in Hname.
  destruct (matchLine (list_ascii_of_string (trim line))) as [w|] eqn:Hm;
    [|subst name; discriminate].
  subst name.
  destruct (matchLine_sound _ _ Hm)
    as (ds & w1 & w2 & rest & E & Hds & Hdig & Hw1 & Hws1 & _ & _ & Hw2 & Hws2).
  exists line, ds, w1, w2, rest.
  rewrite list_ascii_of_string_of_list_ascii.
  repeat (split; [assumption|]).
  intros ->. rewrite app_nil_r in E.
  destruct (exists_last Hw2) as (w2' & c & ->).
  assert (Hc : isWhiteSpace c = true).
  { rewrite forallb_app in Hws2. apply andb_prop in Hws2 as [_ Hws2].
    cbn in Hws2. now rewrite andb_true_r in Hws2. }
  unfold trim in E. rewrite list_ascii_of_string_of_list_ascii in E.
  rewrite !app_comm_cons, !app_assoc in E.
  apply trimEnd_last in E. congruence.
Qed.

Lemma nonEmpty_string_of_list (w : list ascii) :
  w <> [] -> nonEmpty (string_of_list_ascii w) = true.
Proof. destruct w as [|c w]; [congruence|reflexivity]. Qed.

(** X26.  [detectInterfaces] reports the first word after the number of
    every output line that, once trimmed, reads: digits, a dot, white
    space, a word, white space, and more text. *)
Theorem detectInterfaces_first_word
  (stdout line : string) (ds w1 tok w2 rest : list ascii) :
  In line (split_lines stdout) ->
  list_ascii_of_string (trim line)
  = ds ++ "."%char :: w1 ++ tok ++ w2 ++ rest ->
  ds <> [] -> forallb isDigit ds = true ->
  w1 <> [] -> forallb isWhiteSpace w1 = true ->
  tok <> [] -> forallb (fun c => negb (isWhiteSpace c)) tok = true ->
  w2 <> [] -> forallb isWhiteSpace w2 = true ->
  interfaceOf (trim line) = string_of_list_ascii tok
  /\ exists names,
       detectInterfaces (Ok stdout) = Ok names
       /\ In (string_of_list_ascii tok) names.
Proof.
  intros Hline Hshape Hds Hdig Hw1 Hws1 Htok Hink Hw2 Hws2.
  assert (Hname : interfaceOf (trim line) = string_of_list_ascii tok).
  { unfold interfaceOf. rewrite Hshape. now rewrite matchLine_word. }
  split; [exact Hname|].
  eexists. split; [reflexivity|].
  apply filter_In. split; [|now apply nonEmpty_string_of_list].
  apply in_map_iff. exists (trim line). split; [exact Hname|].
  apply filter_In. split; [apply in_map; exact Hline|].
  rewrite <- (string_of_list_ascii_of_string (trim line)), Hshape.
  apply nonEmpty_string_of_list. destruct ds; [congruence|discriminate].
Qed.

(** X27.  A line in which the dot after the number is not followed by
    white space reports no interface: the pattern asks for white space
    between the dot and the name. *)
Theorem interfaceOf_needs_space (ds rest : list ascii) (c : ascii) :
  forallb isDigit ds = true ->
  isWhiteSpace c = false ->
  interfaceOf (string_of_list_ascii (ds ++ "."%char :: c :: rest)) = "".
Proof.
  intros Hdig Hc. unfold interfaceOf.
  rewrite list_ascii_of_string_of_list_ascii.
  destruct (matchLine (ds ++ "."%char :: c :: rest)) as [w|] eqn:Hm;
    [|reflexivity].
  exfalso.
  destruct (matchLine_sound _ _ Hm)
    as (ds' & w1 & w2 & rest' & E & _ & Hdig' & Hw1 & Hws1 & _).
  destruct (digits_dot_unique _ _ _ _ Hdig Hdig' E) as [_ E'].
  destruct w1 as [|c1 w1]; [congruence|].
  cbn [app] in E'. injection E' as -> _.
  cbn [forallb] in Hws1. apply andb_prop in Hws1 as [Hws1 _]. congruence.
Qed.

Lemma detectInterfaces_names_witness :
  let stdout := "1. eth0 [Up, Running]
2.wlan0 [Up]
3. lo" in
  detectInterfaces (Ok stdout) = Ok ["eth0"]
  /\ exists line ds w1 w2 rest,
       In line (split_lines stdout)
       /\ list_ascii_of_string (trim line)
          = ds ++ "."%char :: w1 ++ list_ascii_of_string "eth0" ++ w2 ++ rest.
Proof.
  intros stdout.
  assert (E : detectInterfaces (Ok stdout) = Ok ["eth0"])
    by (vm_compute; reflexivity).
  split; [exact E|].
  pose proof (detectInterfaces_names (Ok stdout)) as H.
  cbv beta iota in H. rewrite E in H.
  destruct (H "eth0" (or_introl eq_refl))
    as (_ & line & ds & w1 & w2 & rest & H1 & H2 & _).
  exists line, ds, w1, w2, rest. auto.
Defined.

Lemma detectInterfaces_first_word_witness :
  let stdout := "1. eth0 [Up, Running]
2.wlan0 [Up]
3. lo" in
  In "1. eth0 [Up, Running]" (split_lines stdout)
  /\ exists names,
       detectInterfaces (Ok stdout) = Ok names /\ In "eth0" names.
Proof.
  intros stdout.
  assert (Hline : In "1. eth0 [Up, Running]" (split_lines stdout))
    by (left; reflexivity).
  split; [exact Hline|].
  apply (detectInterfaces_first_word stdout "1. eth0 [Up, Running]"
           (list_ascii_of_string "1") (list_ascii_of_string " ")
           (list_ascii_of_string "eth0") (list_ascii_of_string " ")
           (list_ascii_of_string "[Up, Running]") Hline);
    solve [discriminate | reflexivity].
Defined.

Lemma interfaceOf_needs_space_witness :
  interfaceOf "1.eth0 [Up, Running, Connected]" = "".
Proof.
  apply (interfaceOf_needs_space
           (list_ascii_of_string "1")
           (list_ascii_of_string "th0 [Up, Running, Connected]") "e"%char);
    reflexivity.
Defined.

End DetectFacts.

(** ** The status of the system *)

Section StatusFacts.
Import NetworkOrchestrator OrchestratorLifecycle OrchestratorStatus.
Context {Device Tap ModelStats Policies : Type}.
Variable session_get :
  Device -> list string -> result (list RouterManager.Value) * Device.
Variable tapStart : Tap -> result unit * Tap.
Variable initialize : result unit.
Variable getModelStats : result ModelStats.
Variable getPolicies : RouterManager.state Device -> result Policies.

Lemma getStatus_offline (o : state Device) :
  RouterManager.isConnected (routerManager o) = false ->
  getStatus Device session_get ModelStats Policies getModelStats getPolicies o
  = (Err "Failed to get router statistics", o).
Proof.
  intros H. unfold getStatus, RouterManager.getStats, RouterManager.snmpGet.
  rewrite H. cbn. destruct o. reflexivity.
Qed.

(** X28.  The status of a newly built system is never available: before
    [start] and after it, whether [start] succeeded or threw, [getStatus]
    fails with the error of the router statistics, since the manager
    never gets connected; it does so whatever the scoring service would
    answer, and leaves the system as it was. *)
Theorem status_unavailable
  (config : OrchestratorConfig) (d : Device)
  (file : option (gmap string RouterManager.NetworkPolicy)) (t : Tap) :
  let sys := build Device Tap config (ManagerOps.construct Device d file) t in
  let status :=
    getStatus Device session_get ModelStats Policies getModelStats
              getPolicies in
  let started :=
    orchestrator (snd (start Device session_get Tap tapStart initialize sys))
  in
  status (orchestrator sys)
  = (Err "Failed to get router statistics", orchestrator sys)
  /\ status started = (Err "Failed to get router statistics", started).
Proof.
  cbv zeta. split; [now apply getStatus_offline|].
  apply getStatus_offline.
  assert (H : RouterManager.isConnected
                (RouterManager.connect Device session_get
                   (ManagerOps.construct Device d file)) = false).
  { rewrite (connect_disconnected session_get) by reflexivity.
    apply handleConnectionError_spec. }
  unfold start, build. cbn [orchestrator create isRunning].
  cbn [tap routerManager].
  destruct (tapStart t) as [[[]|e] t'];
    [destruct initialize as [[]|e]|];
    cbn [snd orchestrator routerManager with_router with_running];
    exact H.
Qed.

End StatusFacts.

(** ** The connection statistics *)

Section AnalyzerFacts.
Import NetworkAnalyzer.

Lemma bump_lookup (m : gmap string nat) (k a : string) :
  default 0 (bump m k !! a)
  = default 0 (m !! a) + (if String.eqb k a then 1 else 0).
Proof.
  unfold bump. destruct (String.eqb_spec k a) as [->|Hne].
  - now rewrite lookup_insert_eq.
  - rewrite lookup_insert_ne by exact Hne. cbn. lia.
Qed.

Lemma updateConnectionStats_counts conns : forall st a,
  default 0 (topTalkers (updateConnectionStats st conns) !! a)
  = default 0 (topTalkers st !! a) + seen localAddress a conns
  /\ default 0 (topDestinations (updateConnectionStats st conns) !! a)
     = default 0 (topDestinations st !! a) + seen remoteAddress a conns.
Proof.
  unfold updateConnectionStats, seen.
  induction conns as [|c conns IH]; intros st a; cbn [fold_left List.filter].
  - cbn. lia.
  - destruct (IH (updateOne st c) a) as [-> ->].
    cbn [updateOne topTalkers topDestinations]. rewrite !bump_lookup.
    destruct (String.eqb (localAddress c) a),
             (String.eqb (remoteAddress c) a);
      rewrite ?length_cons; split; lia.
Qed.

(** X29.  The talker and destination tables count observations, not
    connections: after any number of updates of a new analyzer, the count
    under an address is the number of connections handed in with that
    local (or remote) address, a connection that is reported again being
    counted again; the table of connections holds at most one entry for
    each, so it never has more entries than the counts add up to. *)
Theorem updateConnectionStats_counts_observations
  (updates : list (list ConnectionInfo)) (a : string) :
  let st := fold_left updateConnectionStats updates noStats in
  default 0 (topTalkers st !! a) = seen localAddress a (concat updates)
  /\ default 0 (topDestinations st !! a)
     = seen remoteAddress a (concat updates)
  /\ (topTalkers st !! a = None <->
      forall c, In c (concat updates) -> localAddress c <> a)
  /\ base.size (connections st) <= length (concat updates).
Proof.
  cbv zeta.
  assert (Hfold : forall us st,
            fold_left updateConnectionStats us st
            = updateConnectionStats st (concat us)).
  { induction us as [|u us IH]; intros st; [reflexivity|].
    cbn [fold_left concat]. rewrite IH. unfold updateConnectionStats.
    now rewrite fold_left_app. }
  rewrite Hfold. generalize (concat updates). clear. intros conns.
  destruct (updateConnectionStats_counts conns noStats a) as [H1 H2].
  cbn in H1, H2. split; [exact H1|]. split; [exact H2|]. split.
  - assert (Hpos : forall cs st,
              is_Some (topTalkers st !! a) ->
              is_Some (topTalkers (updateConnectionStats st cs) !! a)).
    { induction cs as [|c cs IH]; intros st Hs; [exact Hs|].
      apply IH. cbn [updateOne topTalkers]. unfold bump.
      destruct (decide (localAddress c = a)) as [->|Hne].
      - rewrite lookup_insert_eq. eauto.
      - now rewrite lookup_insert_ne. }
    assert (Hnone : forall cs st,
              topTalkers st !! a = None ->
              (forall c, In c cs -> localAddress c <> a) ->
              topTalkers (updateConnectionStats st cs) !! a = None).
    { induction cs as [|c cs IH]; intros st Hs Hall; [exact Hs|].
      apply IH; [|intros c' Hc'; apply Hall; now right].
      cbn [updateOne topTalkers]. unfold bump.
      rewrite lookup_insert_ne; [exact Hs|]. apply Hall. now left. }
    split.
    + intros Hn c Hc Heq.
      apply in_split in Hc as (l1 & l2 & ->).
      unfold updateConnectionStats in Hn.
      rewrite fold_left_app in Hn. cbn [fold_left] in Hn.
      assert (Hs : is_Some (topTalkers
                    (updateOne (fold_left updateOne l1 noStats) c) !! a)).
      { cbn [updateOne topTalkers]. unfold bump. rewrite Heq.
        rewrite lookup_insert_eq. eauto. }
      apply (Hpos l2) in Hs. unfold updateConnectionStats in Hs.
      rewrite Hn in Hs. destruct Hs as [x Hx]. discriminate.
    + intros Hall. apply Hnone; [reflexivity|exact Hall].
  - assert (Hsize : forall cs st,
              base.size (connections (updateConnectionStats st cs))
              <= base.size (connections st) + length cs).
    { induction cs as [|c cs IH]; intros st; [cbn; lia|].
      unfold updateConnectionStats in *. cbn [fold_left].
      specialize (IH (updateOne st c)). cbn [updateOne connections] in IH.
      pose proof (map_size_insert (key c) c (connections st)) as Hi.
      rewrite length_cons.
      destruct (connections st !! key c); unfold id in Hi; lia. }
    specialize (Hsize conns noStats).
    cbn [noStats connections] in Hsize. rewrite map_size_empty in Hsize.
    lia.
Qed.

End AnalyzerFacts.
